(** * ROSE-Formats: the binary codec layer

    utils.py, rose_data.py and zms_import.py, and of zmd_export.py and
    zmd_import.py the functions that work on the decoded data alone.

    A shallow embedding of the readers and writers of the three ROSE Online
    asset formats (ZMD skeletons, ZMO animations, ZMS meshes) together with
    the properties of the specification that concern them.

    Conventions.
    - A file opened for reading is the list of bytes that remain to be read;
      [f.read(n)] takes up to [n] of them.
    - A file opened for writing is the list of bytes written so far.
    - A computation on an open file is an [io]: it returns a value and the
      new state of the file, raises a Python exception, or never returns.
    - A single-precision float is held by its IEEE-754 bit pattern (a [Z]
      below 2^32), which is what [struct.pack("<f")] writes and
      [struct.unpack("<f")] reads.
    - The EUC-KR code table and the rounding of a division by 100 belong to
      the Python runtime and to mathutils, not to this repository: they are
      the fields of the class [Runtime]. *)

From Stdlib Require Import ZArith List Lia Bool String Ascii.
From Stdlib Require Import SpecFloat DecimalString.
From Stdlib.Strings Require Import Byte.
From stdpp Require Import base tactics option list numbers.
Import ListNotations.

#[local] Open Scope Z_scope.

(** ** Bytes and little-endian integers *)

Module Bytes.

#[global] Instance byte_eq_dec : EqDecision byte := Byte.byte_eq_dec.

Definition Z_of_byte (b : byte) : Z := Z.of_N (Byte.to_N b).

Definition byte_of_Z (z : Z) : byte :=
  match Byte.of_N (Z.to_N (z mod 256)) with
  | Some b => b
  | None => x00
  end.

(** The value of a byte string read as an unsigned little-endian number. *)
Fixpoint le_unsigned (bs : list byte) : Z :=
  match bs with
  | [] => 0
  | b :: bs' => Z_of_byte b + 256 * le_unsigned bs'
  end.

(** The [n] low bytes of [u], least significant first. *)
Fixpoint le_bytes (n : nat) (u : Z) : list byte :=
  match n with
  | O => []
  | S n' => byte_of_Z u :: le_bytes n' (u / 256)
  end.

(** Two's complement reading of an unsigned [w]-bit value. *)
Definition to_signed (w : Z) (u : Z) : Z :=
  if u <? 2 ^ (w - 1) then u else u - 2 ^ w.

End Bytes.
Export Bytes.

(** ** Python values *)

(** A Python [str]: a sequence of Unicode code points. *)
Definition pystr := list N.

Definition pystr_of_string (s : string) : pystr :=
  map N_of_ascii (list_ascii_of_string s).

(** Single-precision floats, by bit pattern. *)
Definition f32 := Z.

Definition f32_zero : f32 := 0.
Definition f32_one : f32 := 0x3f800000.

(** What the repository takes from its runtime: the EUC-KR codec of Python
    ([bytes.decode("EUC-KR")], [bytes(s, "EUC-KR")]; [None] stands for the
    codec's UnicodeDecodeError / UnicodeEncodeError) and the two divisions
    by 100 of a single-precision value: the one mathutils makes on each
    component of [Vector / 100], and the one Python makes in [x / 100]
    whose quotient is then stored in a [Vector]. *)
Class Runtime := {
  euc_kr_decode : list byte -> option pystr;
  euc_kr_encode : pystr -> option (list byte);
  vector_div100 : f32 -> f32;
  float_div100 : f32 -> f32
}.

(** ** Exceptions and computations on an open file *)

Inductive exn :=
| struct_error
| UnicodeDecodeError
| UnicodeEncodeError
| RoseParseError (token : pystr)
| UnboundLocalError
| IndexError.

Definition stream := list byte.

(** The outcome of running a piece of code on an open file: a value and the
    state of the file (the bytes still unread, or the bytes written), an
    exception with the state of the file when it was raised, or no outcome
    at all. *)
Inductive outcome (A : Type) :=
| Ret (a : A) (rest : stream)
| Raise (e : exn) (rest : stream)
| Hang.
Arguments Ret {A} a rest.
Arguments Raise {A} e rest.
Arguments Hang {A}.

Definition io (A : Type) : Type := stream -> outcome A.

Definition ret {A} (a : A) : io A := fun s => Ret a s.

Definition raise {A} (e : exn) : io A := fun s => Raise e s.

Definition bind {A B} (m : io A) (k : A -> io B) : io B :=
  fun s =>
    match m s with
    | Ret a s' => k a s'
    | Raise e s' => Raise e s'
    | Hang => Hang
    end.

Notation "x <- m ;; k" := (bind m (fun x => k))
  (at level 100, m at next level, right associativity).

(** [try: x = m  except: handler] with a bare [except], which catches every
    exception. A computation that never returns is not caught. *)
Definition try_except {A} (m : io A) (handler : io A) : io A :=
  fun s =>
    match m s with
    | Ret a s' => Ret a s'
    | Raise _ s' => handler s'
    | Hang => Hang
    end.

(** [for x in l: st = body x st]. *)
Fixpoint for_each {X St} (l : list X) (body : X -> St -> io St) (st : St)
  : io St :=
  match l with
  | [] => ret st
  | x :: l' => st' <- body x st ;; for_each l' body st'
  end.

(** [range(n)] for a Python int [n]: empty when [n] is not positive. *)
Definition range (n : Z) : list nat := seq 0 (Z.to_nat n).

(** ** utils.py: reading *)

Module utils.

(** [f.read(n)]: up to [n] bytes; fewer at the end of the file. *)
Definition f_read (n : nat) : io (list byte) :=
  fun s => Ret (take n s) (drop n s).

(** [struct.unpack(fmt, data)[0]] for the three formats in use. The data
    must have exactly the size of the format. *)
Definition unpack_h (data : list byte) : io Z :=
  if decide (length data = 2%nat) then ret (to_signed 16 (le_unsigned data))
  else raise struct_error.

Definition unpack_i (data : list byte) : io Z :=
  if decide (length data = 4%nat) then ret (to_signed 32 (le_unsigned data))
  else raise struct_error.

Definition unpack_f (data : list byte) : io f32 :=
  if decide (length data = 4%nat) then ret (le_unsigned data)
  else raise struct_error.

Definition read_i16 : io Z := data <- f_read 2 ;; unpack_h data.
Definition read_f32 : io f32 := data <- f_read 4 ;; unpack_f data.
Definition read_i32 : io Z := data <- f_read 4 ;; unpack_i data.

Section WithRuntime.
Context `{Runtime}.

Definition decode (bs : list byte) : io pystr :=
  match euc_kr_decode bs with
  | Some str => ret str
  | None => raise UnicodeDecodeError
  end.

(** Read fixed-size string. *)
Definition read_fstr (size : nat) : io pystr :=
  data <- f_read size ;; decode data.

(** The loop of [read_str], run for at most [fuel] iterations: [None] when
    the loop is still running after them. *)
Fixpoint read_str_loop (fuel : nat) (bstring : list byte) (s : stream)
  : option (list byte * stream) :=
  match fuel with
  | O => None
  | S fuel' =>
      let byte := take 1 s in
      let s' := drop 1 s in
      if decide (byte = [x00]) then Some (bstring, s')
      else read_str_loop fuel' (bstring ++ byte) s'
  end.

(** Read null-terminated string. One more iteration than there are bytes
    left decides the loop: see [read_str_loop_hang] and
    [read_str_loop_enough]. *)
Definition read_str : io pystr :=
  fun s =>
    match read_str_loop (S (length s)) [] s with
    | Some (bstring, s') => decode bstring s'
    | None => Hang
    end.

End WithRuntime.

Definition Vector2 : Type := f32 * f32.
Definition Vector3 : Type := f32 * f32 * f32.
Definition Vector4 : Type := f32 * f32 * f32 * f32.

(** A quaternion, components in the order w, x, y, z. *)
Record Quaternion := mkQuaternion { qw : f32; qx : f32; qy : f32; qz : f32 }.

Definition Color : Type := f32 * f32 * f32.

(** [Vector.Fill(n)], [Quaternion()] and [Color()]. *)
Definition Vector_Fill2 : Vector2 := (f32_zero, f32_zero).
Definition Vector_Fill3 : Vector3 := (f32_zero, f32_zero, f32_zero).
Definition Vector_Fill4 : Vector4 := (f32_zero, f32_zero, f32_zero, f32_zero).
Definition Quaternion_identity : Quaternion :=
  mkQuaternion f32_one f32_zero f32_zero f32_zero.
Definition Color_default : Color := (f32_zero, f32_zero, f32_zero).

Definition read_vector3_f32 : io Vector3 :=
  x <- read_f32 ;; y <- read_f32 ;; z <- read_f32 ;; ret (x, y, z).

(** The four shorts are stored in a mathutils vector, which holds them as
    floats; a 16-bit integer is kept here as the integer it is. *)
Definition read_vector4_i16 : io (Z * Z * Z * Z) :=
  x <- read_i16 ;; y <- read_i16 ;; z <- read_i16 ;; w <- read_i16 ;;
  ret (x, y, z, w).

(** [read_vector4_f32(f, is_rotation=True)] and
    [read_vector4_f32(f)]: the same four reads, w first. *)
Definition read_vector4_f32_rotation : io Quaternion :=
  w <- read_f32 ;; x <- read_f32 ;; y <- read_f32 ;; z <- read_f32 ;;
  ret (mkQuaternion w x y z).

Definition read_vector4_f32 : io Vector4 :=
  w <- read_f32 ;; x <- read_f32 ;; y <- read_f32 ;; z <- read_f32 ;;
  ret (w, x, y, z).

Definition read_vector2_f32 : io Vector2 :=
  x <- read_f32 ;; y <- read_f32 ;; ret (x, y).

Definition read_vector3_i16 : io (Z * Z * Z) :=
  x <- read_i16 ;; y <- read_i16 ;; z <- read_i16 ;; ret (x, y, z).

Definition read_color : io (Color * f32) :=
  r <- read_f32 ;; g <- read_f32 ;; b <- read_f32 ;; a <- read_f32 ;;
  ret ((r, g, b), a).

End utils.
Export utils.

(** ** utils.py: writing *)

Module utils_write.

(** [f.write(data)]. *)
Definition f_write (data : list byte) : io unit :=
  fun file => Ret tt (file ++ data).

(** [struct.pack("<i", data)]: struct.error outside the 32-bit range. *)
Definition pack_i (data : Z) : io (list byte) :=
  if decide (- 2 ^ 31 <= data < 2 ^ 31) then ret (le_bytes 4 (data mod 2 ^ 32))
  else raise struct_error.

(** [struct.pack("<f", data)] of a single-precision value. *)
Definition pack_f (data : f32) : list byte := le_bytes 4 data.

(** [struct.pack("<{size}s", data)]: cut or padded with zero bytes to
    [size] bytes. *)
Definition pack_s (size : nat) (data : list byte) : list byte :=
  resize size x00 data.

Definition write_i32 (data : Z) : io unit :=
  bs <- pack_i data ;; f_write bs.

Definition write_f32 (data : f32) : io unit := f_write (pack_f data).

Definition write_vector3_f32 (data : Vector3) : io unit :=
  let '(x, y, z) := data in
  _ <- write_f32 x ;; _ <- write_f32 y ;; write_f32 z.

Definition write_vector4_f32 (data : Quaternion) : io unit :=
  _ <- write_f32 (qw data) ;; _ <- write_f32 (qx data) ;;
  _ <- write_f32 (qy data) ;; write_f32 (qz data).

Section WithRuntime.
Context `{Runtime}.

Definition encode (data : pystr) : io (list byte) :=
  match euc_kr_encode data with
  | Some bs => ret bs
  | None => raise UnicodeEncodeError
  end.

Definition write_fstr (data : pystr) (size : nat) : io unit :=
  byte_data <- encode data ;; f_write (pack_s size byte_data).

Definition write_str (data : pystr) : io unit :=
  bs <- encode data ;;
  let string := bs ++ [x00] in
  let string_size := length string in
  f_write (pack_s string_size string).

End WithRuntime.

End utils_write.
Export utils_write.

(** Python's [l[i]] for an int [i]: negative indices count from the end,
    and an index outside [-len(l), len(l)) raises IndexError. *)
Definition py_index {A} (l : list A) (i : Z) : option A :=
  if decide (0 <= i) then l !! Z.to_nat i
  else if decide (- Z.of_nat (length l) <= i) then
    l !! Z.to_nat (Z.of_nat (length l) + i)
  else None.

(** [str(n)] for an int [n]. *)
Definition py_str_of_int (n : Z) : pystr :=
  pystr_of_string (DecimalString.NilZero.string_of_int (Z.to_int n)).

(** [sub in s] for two strings: [sub] occurs in [s] as a run of
    consecutive characters. *)
Fixpoint py_startswith (s sub : pystr) : bool :=
  match sub, s with
  | [], _ => true
  | _ :: _, [] => false
  | x :: sub', y :: s' => bool_decide (x = y) && py_startswith s' sub'
  end.

Fixpoint py_in (sub s : pystr) : bool :=
  py_startswith s sub ||
  match s with
  | [] => false
  | _ :: s' => py_in sub s'
  end.

(** ** rose_data.py *)

Module rose_data.

Section WithRuntime.
Context `{Runtime}.

(** [v / 100] for a three-component vector. *)
Definition Vector_div100 (v : Vector3) : Vector3 :=
  let '(x, y, z) := v in (vector_div100 x, vector_div100 y, vector_div100 z).

(** [Vector((x / 100, y / 100, z / 100))]. *)
Definition Vector_of_div100 (v : Vector3) : Vector3 :=
  let '(x, y, z) := v in (float_div100 x, float_div100 y, float_div100 z).

End WithRuntime.

(** Holds ROSE bone data. *)
Module BoneData.

Record t := mk {
  parent : Z;
  name : pystr;
  position : Vector3;
  rotation : Quaternion
}.

(** [BoneData()]. *)
Definition init : t := mk 0 [] Vector_Fill3 Quaternion_identity.

Definition set_parent (v : Z) (self : t) : t :=
  mk v (name self) (position self) (rotation self).
Definition set_name (v : pystr) (self : t) : t :=
  mk (parent self) v (position self) (rotation self).
Definition set_position (v : Vector3) (self : t) : t :=
  mk (parent self) (name self) v (rotation self).
Definition set_rotation (v : Quaternion) (self : t) : t :=
  mk (parent self) (name self) (position self) v.

Section WithRuntime.
Context `{Runtime}.

Definition load_data (self : t) (is_dummy : bool) (format_v_2 : bool) : io t :=
  self <- (if is_dummy then name <- read_str ;; ret (set_name name self)
           else ret self) ;;
  parent <- read_i32 ;;
  let self := set_parent parent self in
  self <- (if negb is_dummy then name <- read_str ;; ret (set_name name self)
           else ret self) ;;
  v <- read_vector3_f32 ;;
  let self := set_position (Vector_div100 v) self in
  if format_v_2 then ret self
  else
    q <- read_vector4_f32_rotation ;;
    ret (set_rotation q self).

Definition save_data (self : t) (is_dummy : bool) (format_v_2 : bool)
  : io unit :=
  _ <- (if is_dummy then write_str (name self) else ret tt) ;;
  _ <- write_i32 (parent self) ;;
  _ <- (if negb is_dummy then write_str (name self) else ret tt) ;;
  _ <- write_vector3_f32 (position self) ;;
  if negb format_v_2 then write_vector4_f32 (rotation self) else ret tt.

End WithRuntime.

End BoneData.

Module SkeletonData.

Record t := mk {
  format_code : Z;
  bones : list BoneData.t;
  dummies : list BoneData.t
}.

(** [SkeletonData()]. *)
Definition init : t := mk 0 [] [].

Definition set_format_code (v : Z) (self : t) : t :=
  mk v (bones self) (dummies self).
Definition set_bones (v : list BoneData.t) (self : t) : t :=
  mk (format_code self) v (dummies self).
Definition set_dummies (v : list BoneData.t) (self : t) : t :=
  mk (format_code self) (bones self) v.

Definition ZMD0003 : pystr := pystr_of_string "ZMD0003".
Definition ZMD0002 : pystr := pystr_of_string "ZMD0002".
Definition ZMD000 : pystr := pystr_of_string "ZMD000".

(** [_print_bone_list]: the text printed is left out; what remains is the
    lookup [self.bones[bone.parent]] made for every listed bone, which
    raises IndexError on a parent index outside the bone list. *)
Definition _print_bone_list (self : t) (bone_list : list BoneData.t)
  : io unit :=
  for_each bone_list
    (fun bone _ =>
       match py_index (bones self) (BoneData.parent bone) with
       | Some _ => ret tt
       | None => raise IndexError
       end) tt.

Definition _print_data (self : t) : io unit :=
  _ <- _print_bone_list self (bones self) ;;
  match dummies self with
  | [] => ret tt
  | _ => _print_bone_list self (dummies self)
  end.

Section WithRuntime.
Context `{Runtime}.

Definition _load_format_code (self : t) : io t :=
  format_code <- read_fstr 7 ;;
  if decide (format_code = ZMD0003) then ret (set_format_code 3 self)
  else if decide (format_code = ZMD0002) then ret (set_format_code 2 self)
  else raise (RoseParseError format_code).

(** The body of the loop of [_load_bones], for the index [i]. *)
Definition load_bone_at (i : nat) (self : t) : io t :=
  let self := set_bones (bones self ++ [BoneData.init]) self in
  match bones self !! i with
  | None => raise IndexError
  | Some bone =>
      bone <- BoneData.load_data bone false false ;;
      ret (set_bones (<[i := bone]> (bones self)) self)
  end.

Definition _load_bones (self : t) : io t :=
  bone_count <- read_i32 ;;
  for_each (range bone_count) load_bone_at self.

(** The body of the loop of [_load_dummies], for the index [i]. *)
Definition load_dummy_at (i : nat) (self : t) : io t :=
  let self := set_dummies (dummies self ++ [BoneData.init]) self in
  match dummies self !! i with
  | None => raise IndexError
  | Some dummy =>
      dummy <- BoneData.load_data dummy true
                 (bool_decide (format_code self = 2)) ;;
      ret (set_dummies (<[i := dummy]> (dummies self)) self)
  end.

Definition _load_dummies (self : t) : io t :=
  dummy_count <- try_except (n <- read_i32 ;; ret (Some n)) (ret None) ;;
  match dummy_count with
  | None => ret self
  | Some dummy_count => for_each (range dummy_count) load_dummy_at self
  end.

(** The three steps made while the file is open. *)
Definition load_file (self : t) : io t :=
  self <- _load_format_code self ;;
  self <- _load_bones self ;;
  _load_dummies self.

Definition load_data (self : t) : io t :=
  self <- load_file self ;;
  _ <- _print_data self ;;
  ret self.

Definition _save_format_code (self : t) : io unit :=
  let format_code := ZMD000 ++ py_str_of_int (format_code self) in
  write_fstr format_code 7.

Definition _save_bones (self : t) : io unit :=
  _ <- write_i32 (Z.of_nat (length (bones self))) ;;
  for_each (bones self) (fun bone _ => BoneData.save_data bone false false) tt.

Definition _save_dummies (self : t) : io unit :=
  _ <- write_i32 (Z.of_nat (length (dummies self))) ;;
  for_each (dummies self)
    (fun dummy _ =>
       BoneData.save_data dummy true (bool_decide (format_code self = 2))) tt.

Definition save_file (self : t) : io unit :=
  _ <- _save_format_code self ;;
  _ <- _save_bones self ;;
  _save_dummies self.

Definition save_data (self : t) : io unit :=
  _ <- save_file self ;;
  _print_data self.

End WithRuntime.

End SkeletonData.

Module TrackType.
Definition POSITION : Z := Z.shiftl 1 1.
Definition ROTATION : Z := Z.shiftl 1 2.
Definition NORMAL : Z := Z.shiftl 1 3.
Definition ALPHA : Z := Z.shiftl 1 4.
Definition UV1 : Z := Z.shiftl 1 5.
Definition UV2 : Z := Z.shiftl 1 6.
Definition UV3 : Z := Z.shiftl 1 7.
Definition UV4 : Z := Z.shiftl 1 8.
Definition TEXTUREANIM : Z := Z.shiftl 1 9.
Definition SCALE : Z := Z.shiftl 1 10.
End TrackType.

Module ChannelData.

Record t := mk {
  identifier : Z;
  type : Z;
  position : list Vector3;
  rotation : list Quaternion;
  normal : list Vector3;
  alpha : list f32;
  uv_1 : list Vector2;
  uv_2 : list Vector2;
  uv_3 : list Vector2;
  uv_4 : list Vector2;
  texture_animation : list f32;
  scale : list f32
}.

(** [ChannelData(tracktype, track_id)]. *)
Definition init (tracktype track_id : Z) : t :=
  mk track_id tracktype [] [] [] [] [] [] [] [] [] [].

(** [self.<field>.append(v)], one per sequence. *)
Definition position_append (v : Vector3) (c : t) : t :=
  mk (identifier c) (type c) (position c ++ [v]) (rotation c) (normal c)
     (alpha c) (uv_1 c) (uv_2 c) (uv_3 c) (uv_4 c) (texture_animation c)
     (scale c).
Definition rotation_append (v : Quaternion) (c : t) : t :=
  mk (identifier c) (type c) (position c) (rotation c ++ [v]) (normal c)
     (alpha c) (uv_1 c) (uv_2 c) (uv_3 c) (uv_4 c) (texture_animation c)
     (scale c).
Definition normal_append (v : Vector3) (c : t) : t :=
  mk (identifier c) (type c) (position c) (rotation c) (normal c ++ [v])
     (alpha c) (uv_1 c) (uv_2 c) (uv_3 c) (uv_4 c) (texture_animation c)
     (scale c).
Definition alpha_append (v : f32) (c : t) : t :=
  mk (identifier c) (type c) (position c) (rotation c) (normal c)
     (alpha c ++ [v]) (uv_1 c) (uv_2 c) (uv_3 c) (uv_4 c)
     (texture_animation c) (scale c).
Definition uv_1_append (v : Vector2) (c : t) : t :=
  mk (identifier c) (type c) (position c) (rotation c) (normal c)
     (alpha c) (uv_1 c ++ [v]) (uv_2 c) (uv_3 c) (uv_4 c)
     (texture_animation c) (scale c).
Definition uv_2_append (v : Vector2) (c : t) : t :=
  mk (identifier c) (type c) (position c) (rotation c) (normal c)
     (alpha c) (uv_1 c) (uv_2 c ++ [v]) (uv_3 c) (uv_4 c)
     (texture_animation c) (scale c).
Definition uv_3_append (v : Vector2) (c : t) : t :=
  mk (identifier c) (type c) (position c) (rotation c) (normal c)
     (alpha c) (uv_1 c) (uv_2 c) (uv_3 c ++ [v]) (uv_4 c)
     (texture_animation c) (scale c).
Definition uv_4_append (v : Vector2) (c : t) : t :=
  mk (identifier c) (type c) (position c) (rotation c) (normal c)
     (alpha c) (uv_1 c) (uv_2 c) (uv_3 c) (uv_4 c ++ [v])
     (texture_animation c) (scale c).
Definition texture_animation_append (v : f32) (c : t) : t :=
  mk (identifier c) (type c) (position c) (rotation c) (normal c)
     (alpha c) (uv_1 c) (uv_2 c) (uv_3 c) (uv_4 c)
     (texture_animation c ++ [v]) (scale c).
Definition scale_append (v : f32) (c : t) : t :=
  mk (identifier c) (type c) (position c) (rotation c) (normal c)
     (alpha c) (uv_1 c) (uv_2 c) (uv_3 c) (uv_4 c) (texture_animation c)
     (scale c ++ [v]).

Definition enabled (bit : Z) (self : t) : bool :=
  bool_decide (Z.land bit (type self) <> 0).

Definition positions_enabled := enabled TrackType.POSITION.
Definition rotations_enabled := enabled TrackType.ROTATION.
Definition normals_enabled := enabled TrackType.NORMAL.
Definition alpha_enabled := enabled TrackType.ALPHA.
Definition uv1_enabled := enabled TrackType.UV1.
Definition uv2_enabled := enabled TrackType.UV2.
Definition uv3_enabled := enabled TrackType.UV3.
Definition uv4_enabled := enabled TrackType.UV4.
Definition textureanim_enabled := enabled TrackType.TEXTUREANIM.
Definition scale_enabled := enabled TrackType.SCALE.

End ChannelData.

Module AnimationData.

(** [format_code] is the int 0 in a new object and the 8-character token
    once loaded; the empty string stands for the former. [channel_count]
    exists from [_setup_channels] on. *)
Record t := mk {
  format_code : pystr;
  fps : Z;
  frame_count : Z;
  channel_count : Z;
  channels : list ChannelData.t
}.

(** [AnimationData()]. *)
Definition init : t := mk [] 0 0 0 [].

Definition set_channels (v : list ChannelData.t) (self : t) : t :=
  mk (format_code self) (fps self) (frame_count self) (channel_count self) v.

Section WithRuntime.
Context `{Runtime}.

(** The [if] / [elif] at the head of the body of [_load_channel_data],
    for the channel [c] of one frame: a position, else a rotation. *)
Definition load_position_or_rotation (c : ChannelData.t) : io ChannelData.t :=
  if ChannelData.positions_enabled c then
    x <- read_f32 ;; y <- read_f32 ;; z <- read_f32 ;;
    ret (ChannelData.position_append (Vector_of_div100 (x, y, z)) c)
  else if ChannelData.rotations_enabled c then
    w <- read_f32 ;; x <- read_f32 ;; y <- read_f32 ;; z <- read_f32 ;;
    ret (ChannelData.rotation_append (mkQuaternion w x y z) c)
  else ret c.

(** The whole body, for the channel [c] of one frame. [alpha] is the
    function's local variable of that name: [None] until the first
    assignment to it. *)
Definition load_channel_frame (c : ChannelData.t) (alpha : option f32)
  : io (ChannelData.t * option f32) :=
  c <- load_position_or_rotation c ;;
  c <- (if ChannelData.normals_enabled c then
          x <- read_f32 ;; y <- read_f32 ;; z <- read_f32 ;;
          ret (ChannelData.normal_append (x, y, z) c)
        else ret c) ;;
  st <- (if ChannelData.alpha_enabled c then
           alpha <- read_f32 ;;
           ret (ChannelData.alpha_append alpha c, Some alpha)
         else ret (c, alpha)) ;;
  let '(c, alpha) := st in
  c <- (if ChannelData.uv1_enabled c then
          x <- read_f32 ;; y <- read_f32 ;;
          ret (ChannelData.uv_1_append (x, y) c)
        else ret c) ;;
  c <- (if ChannelData.uv2_enabled c then
          x <- read_f32 ;; y <- read_f32 ;;
          ret (ChannelData.uv_2_append (x, y) c)
        else ret c) ;;
  c <- (if ChannelData.uv3_enabled c then
          x <- read_f32 ;; y <- read_f32 ;;
          ret (ChannelData.uv_3_append (x, y) c)
        else ret c) ;;
  c <- (if ChannelData.uv4_enabled c then
          x <- read_f32 ;; y <- read_f32 ;;
          ret (ChannelData.uv_4_append (x, y) c)
        else ret c) ;;
  c <- (if ChannelData.textureanim_enabled c then
          texture_anim <- read_f32 ;;
          match alpha with
          | Some alpha => ret (ChannelData.texture_animation_append alpha c)
          | None => raise UnboundLocalError
          end
        else ret c) ;;
  c <- (if ChannelData.scale_enabled c then
          scale <- read_f32 ;;
          match alpha with
          | Some alpha => ret (ChannelData.scale_append alpha c)
          | None => raise UnboundLocalError
          end
        else ret c) ;;
  ret (c, alpha).

Definition _load_settings (self : t) : io t :=
  format_code <- read_fstr 8 ;;
  fps <- read_i32 ;;
  frame_count <- read_i32 ;;
  ret (mk format_code fps frame_count (channel_count self) (channels self)).

Definition _setup_channels (self : t) : io t :=
  channel_count <- read_i32 ;;
  let self :=
    mk (format_code self) (fps self) (frame_count self) channel_count
       (channels self) in
  for_each (range channel_count)
    (fun i self =>
       tracktype <- read_i32 ;;
       track_id <- read_i32 ;;
       ret (set_channels
              (channels self ++ [ChannelData.init tracktype track_id]) self))
    self.

(** The state of the two loops is the channel list and the local variable
    [alpha]. The body of the inner loop, for the channel of index [j]: *)
Definition load_channel_at (j : nat) (st : list ChannelData.t * option f32)
  : io (list ChannelData.t * option f32) :=
  let '(channels, alpha) := st in
  match channels !! j with
  | None => raise IndexError
  | Some c =>
      r <- load_channel_frame c alpha ;;
      ret (<[j := fst r]> channels, snd r)
  end.

(** The body of the outer loop: one frame. *)
Definition load_frame (i : nat) (st : list ChannelData.t * option f32)
  : io (list ChannelData.t * option f32) :=
  for_each (seq 0 (length (fst st))) load_channel_at st.

Definition _load_channel_data (self : t) : io t :=
  st <- for_each (range (frame_count self)) load_frame (channels self, None) ;;
  ret (set_channels (fst st) self).

Definition load_data (self : t) : io t :=
  self <- _load_settings self ;;
  self <- _setup_channels self ;;
  _load_channel_data self.

End WithRuntime.

End AnimationData.

End rose_data.
Export rose_data.

(** ** zms_import.py *)

Module zms_import.

Module VertexFormat.
Definition POSITION : Z := Z.shiftl 1 1.
Definition NORMAL : Z := Z.shiftl 1 2.
Definition COLOR : Z := Z.shiftl 1 3.
Definition BONEWEIGHT : Z := Z.shiftl 1 4.
Definition BONEINDEX : Z := Z.shiftl 1 5.
Definition TANGENT : Z := Z.shiftl 1 6.
Definition UV1 : Z := Z.shiftl 1 7.
Definition UV2 : Z := Z.shiftl 1 8.
Definition UV3 : Z := Z.shiftl 1 9.
Definition UV4 : Z := Z.shiftl 1 10.
End VertexFormat.

(** The [color] attribute of a vertex: [Color()] in a new vertex, the pair
    [(Color, alpha)] returned by [read_color] once the colour pass ran. *)
Inductive color_value :=
| PlainColor (c : Color)
| ColorAlpha (c : Color) (a : f32).

Module Vertex.

Record t := mk {
  position : Vector3;
  normal : Vector3;
  color : color_value;
  bone_weights : Vector4;
  bone_indices : Z * Z * Z * Z;
  tangent : Vector3;
  uv_layers : list (option Vector2)
}.

(** [Vertex()]. *)
Definition init : t :=
  mk Vector_Fill3 Vector_Fill3 (PlainColor Color_default) Vector_Fill4
     (0, 0, 0, 0) Vector_Fill3 [None; None; None; None].

Definition set_position (v : Vector3) (self : t) : t :=
  mk v (normal self) (color self) (bone_weights self) (bone_indices self)
     (tangent self) (uv_layers self).
Definition set_normal (v : Vector3) (self : t) : t :=
  mk (position self) v (color self) (bone_weights self) (bone_indices self)
     (tangent self) (uv_layers self).
Definition set_color (v : Color * f32) (self : t) : t :=
  mk (position self) (normal self) (ColorAlpha (fst v) (snd v))
     (bone_weights self) (bone_indices self) (tangent self) (uv_layers self).
Definition set_bone_weights (v : Vector4) (self : t) : t :=
  mk (position self) (normal self) (color self) v (bone_indices self)
     (tangent self) (uv_layers self).
Definition set_bone_indices (v : Z * Z * Z * Z) (self : t) : t :=
  mk (position self) (normal self) (color self) (bone_weights self) v
     (tangent self) (uv_layers self).
Definition set_tangent (v : Vector3) (self : t) : t :=
  mk (position self) (normal self) (color self) (bone_weights self)
     (bone_indices self) v (uv_layers self).
(** [self.uv_layers[k] = v] for [k] from 0 to 3. *)
Definition set_uv_layer (k : nat) (v : Vector2) (self : t) : t :=
  mk (position self) (normal self) (color self) (bone_weights self)
     (bone_indices self) (tangent self) (<[k := Some v]> (uv_layers self)).

End Vertex.

Record BoundingBox := mkBoundingBox { bb_min : Vector3; bb_max : Vector3 }.

Module MeshImportData.

Record t := mk {
  identifier : pystr;
  format : Z;
  bounding_box : BoundingBox;
  bones : list Z;
  vertices : list Vertex.t;
  indices : list (Z * Z * Z);
  materials : list Z;
  strips : list Z;
  pool : Z
}.

(** [MeshImportData()]. *)
Definition init : t :=
  mk [] (-1) (mkBoundingBox Vector_Fill3 Vector_Fill3) [] [] [] [] [] 0.

Definition set_identifier (v : pystr) (self : t) : t :=
  mk v (format self) (bounding_box self) (bones self) (vertices self)
     (indices self) (materials self) (strips self) (pool self).
Definition set_format (v : Z) (self : t) : t :=
  mk (identifier self) v (bounding_box self) (bones self) (vertices self)
     (indices self) (materials self) (strips self) (pool self).
Definition set_bounding_box (v : BoundingBox) (self : t) : t :=
  mk (identifier self) (format self) v (bones self) (vertices self)
     (indices self) (materials self) (strips self) (pool self).
Definition set_bones (v : list Z) (self : t) : t :=
  mk (identifier self) (format self) (bounding_box self) v (vertices self)
     (indices self) (materials self) (strips self) (pool self).
Definition set_vertices (v : list Vertex.t) (self : t) : t :=
  mk (identifier self) (format self) (bounding_box self) (bones self) v
     (indices self) (materials self) (strips self) (pool self).
Definition set_indices (v : list (Z * Z * Z)) (self : t) : t :=
  mk (identifier self) (format self) (bounding_box self) (bones self)
     (vertices self) v (materials self) (strips self) (pool self).
Definition set_materials (v : list Z) (self : t) : t :=
  mk (identifier self) (format self) (bounding_box self) (bones self)
     (vertices self) (indices self) v (strips self) (pool self).
Definition set_strips (v : list Z) (self : t) : t :=
  mk (identifier self) (format self) (bounding_box self) (bones self)
     (vertices self) (indices self) (materials self) v (pool self).
Definition set_pool (v : Z) (self : t) : t :=
  mk (identifier self) (format self) (bounding_box self) (bones self)
     (vertices self) (indices self) (materials self) (strips self) v.

Definition enabled (bit : Z) (self : t) : bool :=
  bool_decide (Z.land bit (format self) <> 0).

Definition positions_enabled := enabled VertexFormat.POSITION.
Definition normals_enabled := enabled VertexFormat.NORMAL.
Definition colors_enabled := enabled VertexFormat.COLOR.
Definition bones_enabled (self : t) : bool :=
  enabled VertexFormat.BONEWEIGHT self && enabled VertexFormat.BONEINDEX self.
Definition tangents_enabled := enabled VertexFormat.TANGENT.
Definition uv1_enabled := enabled VertexFormat.UV1.
Definition uv2_enabled := enabled VertexFormat.UV2.
Definition uv3_enabled := enabled VertexFormat.UV3.
Definition uv4_enabled := enabled VertexFormat.UV4.

(** [vertex_positions], [edges] and [faces]: the three lists handed to
    [from_pydata]. [int(face.x)] is the short that was read. *)
Definition vertex_positions (self : t) : list (f32 * f32 * f32) :=
  fold_left
    (fun positions vertex =>
       let '(x, y, z) := Vertex.position vertex in positions ++ [(x, y, z)])
    (vertices self) [].

Definition edges (self : t) : list (Z * Z) :=
  fold_left
    (fun edges face =>
       let '(x, y, z) := face in
       ((edges ++ [(x, y)]) ++ [(y, z)]) ++ [(z, y)])
    (indices self) [].

Definition faces (self : t) : list (Z * Z * Z) :=
  fold_left
    (fun faces face => let '(x, y, z) := face in faces ++ [(x, y, z)])
    (indices self) [].

Definition ZMS0007 : pystr := pystr_of_string "ZMS0007".
Definition ZMS0008 : pystr := pystr_of_string "ZMS0008".

(** [self.vertices[i].<attribute> = value]: the value is already read when
    the vertex is looked up. *)
Definition vertex_assign (i : nat) (upd : Vertex.t -> Vertex.t) (self : t)
  : io t :=
  match vertices self !! i with
  | None => raise IndexError
  | Some v => ret (set_vertices (<[i := upd v]> (vertices self)) self)
  end.

(** [for i in range(vert_count): self.vertices[i].<attribute> = rd(f)]. *)
Definition vertex_pass {X} (vert_count : Z) (rd : io X)
    (upd : X -> Vertex.t -> Vertex.t) (self : t) : io t :=
  for_each (range vert_count)
    (fun i self => x <- rd ;; vertex_assign i (upd x) self) self.

(** The pass over the bone weights and bone indices: two assignments per
    vertex. *)
Definition bone_pass (vert_count : Z) (self : t) : io t :=
  for_each (range vert_count)
    (fun i self =>
       w <- read_vector4_f32 ;;
       self <- vertex_assign i (Vertex.set_bone_weights w) self ;;
       ix <- read_vector4_i16 ;;
       vertex_assign i (Vertex.set_bone_indices ix) self) self.

(** [if cond: pass_]. *)
Definition when (cond : bool) (pass_ : t -> io t) (self : t) : io t :=
  if cond then pass_ self else ret self.

(** [load] after the check of the identifier, in three parts. First the
    format word, the bounding box, the bone table and the vertex count with
    the allocation of the vertices. *)
Definition load_header (self : t) : io (t * Z) :=
  format <- read_i32 ;;
  let self := set_format format self in
  vmin <- read_vector3_f32 ;;
  let self :=
    set_bounding_box (mkBoundingBox vmin (bb_max (bounding_box self))) self in
  vmax <- read_vector3_f32 ;;
  let self :=
    set_bounding_box (mkBoundingBox (bb_min (bounding_box self)) vmax) self in
  bone_count <- read_i16 ;;
  self <- for_each (range bone_count)
            (fun _ self =>
               b <- read_i16 ;; ret (set_bones (bones self ++ [b]) self))
            self ;;
  vert_count <- read_i16 ;;
  self <- for_each (range vert_count)
            (fun _ self =>
               ret (set_vertices (vertices self ++ [Vertex.init]) self)) self ;;
  ret (self, vert_count).

(** Then one pass over the vertices per enabled attribute. *)
Definition load_vertex_passes (vert_count : Z) (self : t) : io t :=
  self <- when (positions_enabled self)
            (vertex_pass vert_count read_vector3_f32 Vertex.set_position)
            self ;;
  self <- when (normals_enabled self)
            (vertex_pass vert_count read_vector3_f32 Vertex.set_normal) self ;;
  self <- when (colors_enabled self)
            (vertex_pass vert_count read_color Vertex.set_color) self ;;
  self <- when (bones_enabled self) (bone_pass vert_count) self ;;
  self <- when (tangents_enabled self)
            (vertex_pass vert_count read_vector3_f32 Vertex.set_tangent) self ;;
  self <- when (uv1_enabled self)
            (vertex_pass vert_count read_vector2_f32 (Vertex.set_uv_layer 0))
            self ;;
  self <- when (uv2_enabled self)
            (vertex_pass vert_count read_vector2_f32 (Vertex.set_uv_layer 1))
            self ;;
  self <- when (uv3_enabled self)
            (vertex_pass vert_count read_vector2_f32 (Vertex.set_uv_layer 2))
            self ;;
  when (uv4_enabled self)
    (vertex_pass vert_count read_vector2_f32 (Vertex.set_uv_layer 3)) self.

(** Then the triangles, the material indices and the strip table. *)
Definition load_topology (self : t) : io t :=
  index_count <- read_i16 ;;
  self <- for_each (range index_count)
            (fun _ self =>
               t <- read_vector3_i16 ;;
               ret (set_indices (indices self ++ [t]) self)) self ;;
  material_count <- read_i16 ;;
  self <- for_each (range material_count)
            (fun _ self =>
               m <- read_i16 ;;
               ret (set_materials (materials self ++ [m]) self)) self ;;
  strip_count <- read_i16 ;;
  for_each (range strip_count)
    (fun _ self =>
       x <- read_i16 ;; ret (set_strips (strips self ++ [x]) self)) self.

(** All that follows the check of the identifier and precedes the pool. *)
Definition load_sections (self : t) : io t :=
  r <- load_header self ;;
  self <- load_vertex_passes (snd r) (fst r) ;;
  load_topology self.

(** The last statement of [load]: the pool of a version-8 file, inside a
    [try] with a bare [except]. *)
Definition load_pool (version : Z) (self : t) : io t :=
  if decide (8 <= version) then
    try_except (pool <- read_i16 ;; ret (set_pool pool self)) (ret self)
  else ret self.

Section WithRuntime.
Context `{Runtime}.

(** The head of [load]: the identifier and the version it stands for. *)
Definition load_identifier (self : t) : io (t * Z) :=
  identifier <- read_str ;;
  let self := set_identifier identifier self in
  let version :=
    if decide (identifier = ZMS0007) then Some 7
    else if decide (identifier = ZMS0008) then Some 8
    else None in
  match version with
  | None => raise (RoseParseError identifier)
  | Some version => ret (self, version)
  end.

Definition load (self : t) : io t :=
  r <- load_identifier self ;;
  let '(self, version) := r in
  self <- load_sections self ;;
  load_pool version self.

End WithRuntime.

End MeshImportData.

End zms_import.
Export zms_import.

(** ** zmd_export.py *)

Module zmd_export.

(** The two lists of a [Skeleton]. The armature it reads them from belongs
    to Blender and is left out. *)
Module Skeleton.

Record t := mk {
  bones : list BoneData.t;
  dummies : list BoneData.t
}.

(** [Skeleton()]. *)
Definition init : t := mk [] [].

(** ["0" + str(i)]. *)
Definition mark (i : nat) : pystr :=
  pystr_of_string "0" ++ py_str_of_int (Z.of_nat i).

Definition _sort_dummies (self : t) : t :=
  let dummies_sorted :=
    fold_left
      (fun dummies_sorted i =>
         fold_left
           (fun dummies_sorted dummy =>
              if py_in (mark i) (BoneData.name dummy)
              then dummies_sorted ++ [dummy]
              else dummies_sorted)
           (dummies self) dummies_sorted)
      (range (Z.of_nat (length (dummies self)))) [] in
  mk (bones self) dummies_sorted.

End Skeleton.

End zmd_export.

(** ** zmd_import.py *)

Module zmd_import.

(** What a run of [_get_parent_rotation] comes to: a rotation, an
    exception, or a loop that is still running when the fuel is spent. *)
Inductive walk :=
| Returns (rotation : Quaternion)
| Raises (e : exn)
| Running.

Module Skeleton.

Section WithQuaternions.

(** [a @ b], the quaternion product of mathutils. *)
Variable quat_mul : Quaternion -> Quaternion -> Quaternion.

(** The [while] loop of [_get_parent_rotation] once [index] is known not
    to be 0, run for at most [fuel] iterations. *)
Fixpoint parent_rotation_loop (fuel : nat) (bones : list BoneData.t)
    (current : Z) (rotation : Quaternion) : walk :=
  match fuel with
  | O => Running
  | S fuel' =>
      match py_index bones current with
      | None => Raises IndexError
      | Some bone =>
          let rotation := quat_mul (BoneData.rotation bone) rotation in
          if decide (current = 0) then Returns rotation
          else parent_rotation_loop fuel' bones (BoneData.parent bone) rotation
      end
  end.

Definition _get_parent_rotation (fuel : nat) (data : SkeletonData.t)
    (index : Z) (is_dummy : bool) : walk :=
  let bones := SkeletonData.bones data in
  let rotation := Quaternion_identity in
  match py_index (if is_dummy then SkeletonData.dummies data else bones)
          index with
  | None => Raises IndexError
  | Some bone =>
      let current := BoneData.parent bone in
      if decide (index <> 0)
      then parent_rotation_loop fuel bones current rotation
      else Returns rotation
  end.

End WithQuaternions.

End Skeleton.

End zmd_import.

(** ** A runtime to evaluate the code with

    EUC-KR coincides with ASCII on the bytes below 0x80; the two-byte
    range goes through the KS X 1001 table, which [ascii_runtime] does not
    hold: it reports a codec error there. Both divisions are the IEEE-754
    single-precision one (round to nearest even) of the Standard Library's
    [SpecFloat]; should mathutils multiply by the reciprocal of 100
    instead, the quotients used below (of 100.0 and of 0.0) are the same.
    The general statements hold for every [Runtime]; this one serves to
    run the code on concrete files whose text is ASCII. *)

Module IEEE.

Definition sign_bit (s : bool) : Z := if s then 2 ^ 31 else 0.

Definition SF_of_bits (n : Z) : spec_float :=
  let s := Z.testbit n 31 in
  let e := (n / 2 ^ 23) mod 256 in
  let m := n mod 2 ^ 23 in
  if e =? 0 then
    match m with
    | Zpos p => S754_finite s p (-149)
    | _ => S754_zero s
    end
  else if e =? 255 then
    if m =? 0 then S754_infinity s else S754_nan
  else
    match m + 2 ^ 23 with
    | Zpos p => S754_finite s p (e - 150)
    | _ => S754_nan
    end.

Definition bits_of_SF (x : spec_float) : Z :=
  match x with
  | S754_zero s => sign_bit s
  | S754_infinity s => sign_bit s + 255 * 2 ^ 23
  | S754_nan => 0x7fc00000
  | S754_finite s m e =>
      sign_bit s +
      (if Zpos m <? 2 ^ 23 then Zpos m
       else (e + 150) * 2 ^ 23 + (Zpos m - 2 ^ 23))
  end.

Definition f32_div (a b : f32) : f32 :=
  bits_of_SF (SFdiv 24 128 (SF_of_bits a) (SF_of_bits b)).

Definition f32_mul (a b : f32) : f32 :=
  bits_of_SF (SFmul 24 128 (SF_of_bits a) (SF_of_bits b)).

(** 100.0 *)
Definition f32_100 : f32 := 0x42c80000.

End IEEE.

Definition ascii_decode (bs : list byte) : option pystr :=
  if forallb (fun b => (Byte.to_N b <? 128)%N) bs then Some (map Byte.to_N bs)
  else None.

Definition ascii_encode (s : pystr) : option (list byte) :=
  if forallb (fun c => (c <? 128)%N) s
  then Some (map (fun c => byte_of_Z (Z.of_N c)) s)
  else None.

Definition ascii_runtime : Runtime :=
  {| euc_kr_decode := ascii_decode;
     euc_kr_encode := ascii_encode;
     vector_div100 := fun x => IEEE.f32_div x IEEE.f32_100;
     float_div100 := fun x => IEEE.f32_div x IEEE.f32_100 |}.

(** The bytes of an ASCII literal. *)
Definition b (s : string) : list byte := String.list_byte_of_string s.

(** ** The layout of a skeleton file

    What a ZMD file holds for a bone or a dummy, and the bytes of a file
    made of such records: the layout the reader above accepts. A bone
    record carries its rotation in both versions; a dummy record carries
    one in version 3 only. *)

Module Layout.

Record bone_record := mk_record {
  r_parent : Z;
  r_name : list byte;
  r_position : Vector3;
  r_rotation : Quaternion
}.

Definition i32_bytes (z : Z) : list byte := le_bytes 4 (z mod 2 ^ 32).
Definition i16_bytes (z : Z) : list byte := le_bytes 2 (z mod 2 ^ 16).

Definition vector3_bytes (v : Vector3) : list byte :=
  let '(x, y, z) := v in pack_f x ++ pack_f y ++ pack_f z.

Definition quaternion_bytes (q : Quaternion) : list byte :=
  pack_f (qw q) ++ pack_f (qx q) ++ pack_f (qy q) ++ pack_f (qz q).

Definition bone_bytes (r : bone_record) : list byte :=
  i32_bytes (r_parent r) ++ r_name r ++ [x00] ++
  vector3_bytes (r_position r) ++ quaternion_bytes (r_rotation r).

Definition dummy_bytes (version : Z) (r : bone_record) : list byte :=
  r_name r ++ [x00] ++ i32_bytes (r_parent r) ++
  vector3_bytes (r_position r) ++
  (if decide (version = 2) then [] else quaternion_bytes (r_rotation r)).

Definition token_bytes (version : Z) : list byte :=
  if decide (version = 2) then b "ZMD0002" else b "ZMD0003".

Definition skeleton_bytes (version : Z) (bones dummies : list bone_record)
  : list byte :=
  token_bytes version ++
  i32_bytes (Z.of_nat (length bones)) ++ concat (map bone_bytes bones) ++
  i32_bytes (Z.of_nat (length dummies)) ++
  concat (map (dummy_bytes version) dummies).

(** A float that is not a NaN: the bit pattern of a NaN need not survive
    the passage through a Python float. *)
Definition is_number (x : f32) : bool :=
  (0 <=? x) && (x <? 2 ^ 32) &&
  negb (((x / 2 ^ 23) mod 256 =? 255) && negb (x mod 2 ^ 23 =? 0)).

Definition is_f32 (x : f32) : bool := (0 <=? x) && (x <? 2 ^ 32).

Section WithRuntime.
Context `{Runtime}.

(** The name is free of zero bytes and survives decoding and encoding;
    the parent is the index of a bone; the floats are single-precision
    bit patterns, those of the rotation not NaN. *)
Definition wf_record (nbones : nat) (r : bone_record) : bool :=
  forallb (fun c => negb (bool_decide (c = x00))) (r_name r) &&
  match euc_kr_decode (r_name r) with
  | Some nm => bool_decide (euc_kr_encode nm = Some (r_name r))
  | None => false
  end &&
  (0 <=? r_parent r) && (r_parent r <? Z.of_nat nbones) &&
  (let '(x, y, z) := r_position r in is_f32 x && is_f32 y && is_f32 z) &&
  is_number (qw (r_rotation r)) && is_number (qx (r_rotation r)) &&
  is_number (qy (r_rotation r)) && is_number (qz (r_rotation r)).

(** A well-formed skeleton file: version 2 or 3, counts that fit the
    32-bit fields, well-formed records, and a runtime whose codec reads
    and writes the two tokens as ASCII. *)
Definition wf_skeleton (version : Z) (bones dummies : list bone_record)
  : bool :=
  bool_decide (version = 2 \/ version = 3) &&
  (Z.of_nat (length bones) <? 2 ^ 31) &&
  (Z.of_nat (length dummies) <? 2 ^ 31) &&
  forallb (wf_record (length bones)) bones &&
  forallb (wf_record (length bones)) dummies &&
  bool_decide (euc_kr_decode (b "ZMD0002") = Some SkeletonData.ZMD0002) &&
  bool_decide (euc_kr_decode (b "ZMD0003") = Some SkeletonData.ZMD0003) &&
  bool_decide (euc_kr_encode SkeletonData.ZMD0002 = Some (b "ZMD0002")) &&
  bool_decide (euc_kr_encode SkeletonData.ZMD0003 = Some (b "ZMD0003")).

Definition decoded_name (r : bone_record) : pystr :=
  default [] (euc_kr_decode (r_name r)).

(** The bone and the dummy the reader builds from a record. *)
Definition decoded_bone (r : bone_record) : BoneData.t :=
  BoneData.mk (r_parent r) (decoded_name r) (Vector_div100 (r_position r))
    (r_rotation r).

Definition decoded_dummy (version : Z) (r : bone_record) : BoneData.t :=
  BoneData.mk (r_parent r) (decoded_name r) (Vector_div100 (r_position r))
    (if decide (version = 2) then Quaternion_identity else r_rotation r).

Definition decoded_skeleton (version : Z) (bones dummies : list bone_record)
  : SkeletonData.t :=
  SkeletonData.mk version (map decoded_bone bones)
    (map (decoded_dummy version) dummies).

(** The record with its position divided by 100. *)
Definition scaled (r : bone_record) : bone_record :=
  mk_record (r_parent r) (r_name r) (Vector_div100 (r_position r))
    (r_rotation r).

(** What [wf_record] says, as propositions. *)
Record wf_record_facts (nbones : nat) (r : bone_record) : Prop := {
  wf_name_no_nul : x00 ∉ r_name r;
  wf_name_decode : euc_kr_decode (r_name r) = Some (decoded_name r);
  wf_name_encode : euc_kr_encode (decoded_name r) = Some (r_name r);
  wf_parent : 0 <= r_parent r < Z.of_nat nbones;
  wf_px : 0 <= (r_position r).1.1 < 2 ^ 32;
  wf_py : 0 <= (r_position r).1.2 < 2 ^ 32;
  wf_pz : 0 <= (r_position r).2 < 2 ^ 32;
  wf_qw : 0 <= qw (r_rotation r) < 2 ^ 32;
  wf_qx : 0 <= qx (r_rotation r) < 2 ^ 32;
  wf_qy : 0 <= qy (r_rotation r) < 2 ^ 32;
  wf_qz : 0 <= qz (r_rotation r) < 2 ^ 32
}.

(** What [wf_skeleton] says, as propositions. *)
Record wf_skeleton_facts (version : Z) (bones dummies : list bone_record)
  : Prop := {
  wf_version : version = 2 \/ version = 3;
  wf_bone_count : Z.of_nat (length bones) < 2 ^ 31;
  wf_dummy_count : Z.of_nat (length dummies) < 2 ^ 31;
  wf_bones : forallb (wf_record (length bones)) bones = true;
  wf_dummies : forallb (wf_record (length bones)) dummies = true;
  wf_decode_2 : euc_kr_decode (b "ZMD0002") = Some SkeletonData.ZMD0002;
  wf_decode_3 : euc_kr_decode (b "ZMD0003") = Some SkeletonData.ZMD0003;
  wf_encode_2 : euc_kr_encode SkeletonData.ZMD0002 = Some (b "ZMD0002");
  wf_encode_3 : euc_kr_encode SkeletonData.ZMD0003 = Some (b "ZMD0003")
}.

End WithRuntime.

End Layout.

(** ** A skeleton in memory and the file written for it *)

Module Saved.
Import Layout.

Section WithRuntime.
Context `{Runtime}.

(** The record [save_data] writes for a bone or a dummy. *)
Definition record_of (bone : BoneData.t) : bone_record :=
  mk_record (BoneData.parent bone)
    (default [] (euc_kr_encode (BoneData.name bone)))
    (BoneData.position bone) (BoneData.rotation bone).

(** The name has EUC-KR bytes and these decode to the name. *)
Definition wf_name (bone : BoneData.t) : bool :=
  match euc_kr_encode (BoneData.name bone) with
  | Some bs => bool_decide (euc_kr_decode bs = Some (BoneData.name bone))
  | None => false
  end.

(** No component of the position is a NaN. *)
Definition wf_position (bone : BoneData.t) : bool :=
  let '(x, y, z) := BoneData.position bone in
  is_number x && is_number y && is_number z.

(** A skeleton whose file is well formed, with names that survive
    encoding and decoding and positions that are numbers. *)
Definition wf_saved (sk : SkeletonData.t) : bool :=
  wf_skeleton (SkeletonData.format_code sk)
    (map record_of (SkeletonData.bones sk))
    (map record_of (SkeletonData.dummies sk)) &&
  forallb wf_name (SkeletonData.bones sk) &&
  forallb wf_name (SkeletonData.dummies sk) &&
  forallb wf_position (SkeletonData.bones sk) &&
  forallb wf_position (SkeletonData.dummies sk).

(** What a bone and a dummy are once written and read back. *)
Definition reloaded_bone (bone : BoneData.t) : BoneData.t :=
  BoneData.set_position (Vector_div100 (BoneData.position bone)) bone.

Definition reloaded_dummy (version : Z) (dummy : BoneData.t) : BoneData.t :=
  BoneData.mk (BoneData.parent dummy) (BoneData.name dummy)
    (Vector_div100 (BoneData.position dummy))
    (if decide (version = 2) then Quaternion_identity
     else BoneData.rotation dummy).

Definition reloaded (sk : SkeletonData.t) : SkeletonData.t :=
  SkeletonData.mk (SkeletonData.format_code sk)
    (map reloaded_bone (SkeletonData.bones sk))
    (map (reloaded_dummy (SkeletonData.format_code sk))
       (SkeletonData.dummies sk)).

End WithRuntime.

End Saved.

(** A vertex with a position and a second UV pair and nothing else. *)
Definition position_uv2_vertex (p : Vector3) (uv : Vector2) : Vertex.t :=
  Vertex.mk p Vector_Fill3 (PlainColor Color_default) Vector_Fill4
    (0, 0, 0, 0) Vector_Fill3 [None; Some uv; None; None].

(** ** The layout of a mesh file with positions and second UV pairs

    What a version-7 ZMS file whose format word has the POSITION and UV2
    bits alone holds, and its bytes: the layout the reader above accepts. *)

Module MeshLayout.
Import Layout.

Record content := mk_content {
  m_ident : list byte;
  m_min : Vector3;
  m_max : Vector3;
  m_bones : list Z;
  m_positions : list Vector3;
  m_uv2 : list Vector2;
  m_triangles : list (Z * Z * Z);
  m_materials : list Z;
  m_strips : list Z
}.

Definition vector2_bytes (v : Vector2) : list byte :=
  pack_f v.1 ++ pack_f v.2.

Definition triangle_bytes (t : Z * Z * Z) : list byte :=
  i16_bytes t.1.1 ++ i16_bytes t.1.2 ++ i16_bytes t.2.

(** A 16-bit count followed by that many entries. *)
Definition table_bytes {X} (enc : X -> list byte) (xs : list X) : list byte :=
  i16_bytes (Z.of_nat (length xs)) ++ concat (map enc xs).

Definition position_uv2_bytes (c : content) : list byte :=
  m_ident c ++ [x00] ++
  i32_bytes (VertexFormat.POSITION + VertexFormat.UV2) ++
  vector3_bytes (m_min c) ++ vector3_bytes (m_max c) ++
  table_bytes i16_bytes (m_bones c) ++
  i16_bytes (Z.of_nat (length (m_positions c))) ++
  concat (map vector3_bytes (m_positions c)) ++
  concat (map vector2_bytes (m_uv2 c)) ++
  table_bytes triangle_bytes (m_triangles c) ++
  table_bytes i16_bytes (m_materials c) ++
  table_bytes i16_bytes (m_strips c).

Definition is_i16 (z : Z) : bool := (- 2 ^ 15 <=? z) && (z <? 2 ^ 15).

Definition is_vector3 (v : Vector3) : bool :=
  is_f32 v.1.1 && is_f32 v.1.2 && is_f32 v.2.

Definition is_vector2 (v : Vector2) : bool := is_f32 v.1 && is_f32 v.2.

Definition is_triangle (t : Z * Z * Z) : bool :=
  is_i16 t.1.1 && is_i16 t.1.2 && is_i16 t.2.

Definition is_count {X} (xs : list X) : bool :=
  Z.of_nat (length xs) <? 2 ^ 15.

(** The identifier is free of zero bytes and decodes to the version-7
    token; every table fits its 16-bit count; there is one second UV pair
    per position; the shorts and floats fit their fields. *)
Definition wf_content `{Runtime} (c : content) : bool :=
  forallb (fun x => negb (bool_decide (x = x00))) (m_ident c) &&
  bool_decide (euc_kr_decode (m_ident c) = Some MeshImportData.ZMS0007) &&
  is_vector3 (m_min c) && is_vector3 (m_max c) &&
  is_count (m_bones c) && forallb is_i16 (m_bones c) &&
  is_count (m_positions c) && forallb is_vector3 (m_positions c) &&
  bool_decide (length (m_uv2 c) = length (m_positions c)) &&
  forallb is_vector2 (m_uv2 c) &&
  is_count (m_triangles c) && forallb is_triangle (m_triangles c) &&
  is_count (m_materials c) && forallb is_i16 (m_materials c) &&
  is_count (m_strips c) && forallb is_i16 (m_strips c).

(** The mesh the reader builds from it. *)
Definition decoded_mesh (c : content) : MeshImportData.t :=
  MeshImportData.mk MeshImportData.ZMS0007
    (VertexFormat.POSITION + VertexFormat.UV2)
    (mkBoundingBox (m_min c) (m_max c)) (m_bones c)
    (zip_with position_uv2_vertex (m_positions c) (m_uv2 c))
    (m_triangles c) (m_materials c) (m_strips c) 0.

End MeshLayout.

(** ** The layout of the bone pass of a mesh file

    What the file holds for a vertex when both the BONEWEIGHT and the
    BONEINDEX bits are set: four floats of weights followed by four shorts
    of indices. *)

Module BoneLayout.
Import Layout MeshLayout.





End BoneLayout.

(** ** The layout of an animation file of positions and rotations

    What a ZMO file holds when every channel has the POSITION bit alone or
    the ROTATION bit alone, and its bytes: the format code, the frame
    rate, the two counts, the descriptors, and then frame after frame one
    value per channel, in the order of the descriptors. *)

Module AnimationLayout.
Import Layout.

(** The value a frame holds for one channel. *)
Inductive sample :=
| Position (v : Vector3)
| Rotation (q : Quaternion).

Definition tracktype (x : sample) : Z :=
  match x with
  | Position _ => TrackType.POSITION
  | Rotation _ => TrackType.ROTATION
  end.

Definition sample_bytes (x : sample) : list byte :=
  match x with
  | Position v => vector3_bytes v
  | Rotation q => quaternion_bytes q
  end.

Definition is_sample (x : sample) : bool :=
  match x with
  | Position v => is_f32 v.1.1 && is_f32 v.1.2 && is_f32 v.2
  | Rotation q =>
      is_f32 (qw q) && is_f32 (qx q) && is_f32 (qy q) && is_f32 (qz q)
  end.

Record content := mk_content {
  a_token : list byte;
  a_fps : Z;
  a_tracks : list (Z * Z);
  a_frames : list (list sample)
}.

Definition descriptor_bytes (d : Z * Z) : list byte :=
  i32_bytes d.1 ++ i32_bytes d.2.

Definition frame_bytes (frame : list sample) : list byte :=
  concat (map sample_bytes frame).

Definition animation_bytes (c : content) : list byte :=
  a_token c ++ i32_bytes (a_fps c) ++
  i32_bytes (Z.of_nat (length (a_frames c))) ++
  i32_bytes (Z.of_nat (length (a_tracks c))) ++
  concat (map descriptor_bytes (a_tracks c)) ++
  concat (map frame_bytes (a_frames c)).

Definition is_i32 (z : Z) : bool := (- 2 ^ 31 <=? z) && (z <? 2 ^ 31).

(** The format code has eight bytes that the codec reads; the numbers fit
    their fields; every frame holds, channel by channel, a value of the
    kind the descriptor announces. *)
Definition wf_content `{Runtime} (c : content) : bool :=
  bool_decide (length (a_token c) = 8%nat) &&
  bool_decide (is_Some (euc_kr_decode (a_token c))) &&
  is_i32 (a_fps c) &&
  (Z.of_nat (length (a_frames c)) <? 2 ^ 31) &&
  (Z.of_nat (length (a_tracks c)) <? 2 ^ 31) &&
  forallb (fun d : Z * Z => is_i32 d.1 && is_i32 d.2) (a_tracks c) &&
  forallb
    (fun frame =>
       bool_decide (map tracktype frame = map fst (a_tracks c)) &&
       forallb is_sample frame)
    (a_frames c).

(** What a frame appends to a channel. *)
Definition append_sample `{Runtime} (x : sample) (c : ChannelData.t)
  : ChannelData.t :=
  match x with
  | Position v => ChannelData.position_append (Vector_of_div100 v) c
  | Rotation q => ChannelData.rotation_append q c
  end.

(** The positions and the rotations the frames hold for the channel of
    index [j]. *)
Definition positions_of `{Runtime} (j : nat) (frames : list (list sample))
  : list Vector3 :=
  flat_map
    (fun frame =>
       match frame !! j with
       | Some (Position v) => [Vector_of_div100 v]
       | _ => []
       end) frames.

Definition rotations_of (j : nat) (frames : list (list sample))
  : list Quaternion :=
  flat_map
    (fun frame =>
       match frame !! j with
       | Some (Rotation q) => [q]
       | _ => []
       end) frames.

(** The channel the reader builds for the descriptor of index [j]. *)
Definition decoded_channel `{Runtime} (frames : list (list sample))
    (j : nat) (d : Z * Z) : ChannelData.t :=
  ChannelData.mk d.2 d.1 (positions_of j frames) (rotations_of j frames)
    [] [] [] [] [] [] [] [].

Definition decoded_animation `{Runtime} (c : content) : AnimationData.t :=
  AnimationData.mk (default [] (euc_kr_decode (a_token c))) (a_fps c)
    (Z.of_nat (length (a_frames c))) (Z.of_nat (length (a_tracks c)))
    (imap (decoded_channel (a_frames c)) (a_tracks c)).

End AnimationLayout.

(** ** Devices for the statements *)

(** [n] values read one after the other. *)
Fixpoint read_list {X} (n : nat) (rd : io X) : io (list X) :=
  match n with
  | O => ret []
  | S n' => x <- rd ;; xs <- read_list n' rd ;; ret (x :: xs)
  end.

(** A computation that reads a file front to back, raising struct.error
    as soon as the bytes run out: whenever it returns, it has consumed a
    prefix [p] of the file, it returns the same on every file that starts
    with [p], and it raises struct.error on every file that stops inside
    [p]. *)
Definition strict {A} (m : io A) : Prop :=
  forall s a r,
    m s = Ret a r ->
    exists p,
      s = p ++ r /\
      (forall r', m (p ++ r') = Ret a r') /\
      (forall k, (k < length p)%nat -> m (take k p) = Raise struct_error []).

(** A computation that always comes to an end: it returns or raises. *)
Definition terminates {A} (m : io A) : Prop := forall s, m s <> Hang.

(** What a channel keeps through the steps that follow the position and
    rotation step. *)
Definition same_track (c c' : ChannelData.t) : Prop :=
  ChannelData.type c' = ChannelData.type c /\
  ChannelData.position c' = ChannelData.position c /\
  ChannelData.rotation c' = ChannelData.rotation c.

(** What a channel keeps through the steps that precede the texture
    animation and scale steps. *)
Definition same_tail (c c' : ChannelData.t) : Prop :=
  ChannelData.type c' = ChannelData.type c /\
  ChannelData.texture_animation c' = ChannelData.texture_animation c /\
  ChannelData.scale c' = ChannelData.scale c.

(** One frame of a channel: the type stays; with the POSITION bit set one
    position is appended and the rotation sequence is left alone. *)
Definition frame_rel (c c' : ChannelData.t) : Prop :=
  ChannelData.type c' = ChannelData.type c /\
  (ChannelData.positions_enabled c = true ->
   length (ChannelData.position c') = S (length (ChannelData.position c)) /\
   ChannelData.rotation c' = ChannelData.rotation c).

(** After [k] frames. *)
Definition frames_rel (k : nat) (c c' : ChannelData.t) : Prop :=
  ChannelData.type c' = ChannelData.type c /\
  (ChannelData.positions_enabled c = true ->
   length (ChannelData.position c')
   = (k + length (ChannelData.position c))%nat /\
   ChannelData.rotation c' = ChannelData.rotation c).

(** What the vertex passes keep of a mesh. *)
Definition pass_keeps (self m : MeshImportData.t) : Prop :=
  MeshImportData.format m = MeshImportData.format self /\
  MeshImportData.pool m = MeshImportData.pool self /\
  length (MeshImportData.vertices m) = length (MeshImportData.vertices self).

(** What the topology and the pool keep. *)
Definition tail_keeps (self m : MeshImportData.t) : Prop :=
  MeshImportData.format m = MeshImportData.format self /\
  MeshImportData.vertices m = MeshImportData.vertices self.

(** A channel descriptor: the track type, then the track identifier. *)
Definition read_descriptor : io (Z * Z) :=
  tracktype <- read_i32 ;; track_id <- read_i32 ;; ret (tracktype, track_id).

(** The lengths of the ten sequences of a channel, in the order of the
    fields, and how many values one frame appends to each: one where the
    bit of the sequence is set, except that a rotation is appended only
    when the POSITION bit is unset. *)
Definition sequence_lengths (c : ChannelData.t) : list nat :=
  [ length (ChannelData.position c); length (ChannelData.rotation c);
    length (ChannelData.normal c); length (ChannelData.alpha c);
    length (ChannelData.uv_1 c); length (ChannelData.uv_2 c);
    length (ChannelData.uv_3 c); length (ChannelData.uv_4 c);
    length (ChannelData.texture_animation c); length (ChannelData.scale c) ].

Definition one_if (cond : bool) : nat := if cond then 1%nat else 0%nat.

Definition per_frame (c : ChannelData.t) : list nat :=
  [ one_if (ChannelData.positions_enabled c);
    one_if (negb (ChannelData.positions_enabled c) &&
            ChannelData.rotations_enabled c);
    one_if (ChannelData.normals_enabled c);
    one_if (ChannelData.alpha_enabled c);
    one_if (ChannelData.uv1_enabled c); one_if (ChannelData.uv2_enabled c);
    one_if (ChannelData.uv3_enabled c); one_if (ChannelData.uv4_enabled c);
    one_if (ChannelData.textureanim_enabled c);
    one_if (ChannelData.scale_enabled c) ].

(** A channel [k] frames later: the same descriptor, and [k] times the
    values of one frame more in each sequence. *)
Definition grown (k : nat) (c c' : ChannelData.t) : Prop :=
  ChannelData.type c' = ChannelData.type c /\
  ChannelData.identifier c' = ChannelData.identifier c /\
  sequence_lengths c'
  = zip_with Nat.add (sequence_lengths c) (map (Nat.mul k) (per_frame c)).

(** What the vertex passes have made of a vertex once the first [stage]
    of the nine have run, in a mesh with the format word of [m]. An
    attribute whose pass has not run, because it comes later or because
    its bit is unset, is as [Vertex()] made it; a colour or a UV pair whose
    pass has run has been assigned. There are four UV slots throughout. *)
Definition after_passes (stage : nat) (m : MeshImportData.t) (v : Vertex.t)
  : Prop :=
  let ran (k : nat) (flag : bool) : bool := (k <? stage)%nat && flag in
  (ran 0%nat (MeshImportData.positions_enabled m) = false ->
   Vertex.position v = Vector_Fill3) /\
  (ran 1%nat (MeshImportData.normals_enabled m) = false ->
   Vertex.normal v = Vector_Fill3) /\
  (if ran 2%nat (MeshImportData.colors_enabled m)
   then exists c a, Vertex.color v = ColorAlpha c a
   else Vertex.color v = PlainColor Color_default) /\
  (ran 3%nat (MeshImportData.bones_enabled m) = false ->
   Vertex.bone_weights v = Vector_Fill4 /\
   Vertex.bone_indices v = (0, 0, 0, 0)) /\
  (ran 4%nat (MeshImportData.tangents_enabled m) = false ->
   Vertex.tangent v = Vector_Fill3) /\
  length (Vertex.uv_layers v) = 4%nat /\
  (if ran 5%nat (MeshImportData.uv1_enabled m)
   then exists uv, Vertex.uv_layers v !! 0%nat = Some (Some uv)
   else Vertex.uv_layers v !! 0%nat = Some None) /\
  (if ran 6%nat (MeshImportData.uv2_enabled m)
   then exists uv, Vertex.uv_layers v !! 1%nat = Some (Some uv)
   else Vertex.uv_layers v !! 1%nat = Some None) /\
  (if ran 7%nat (MeshImportData.uv3_enabled m)
   then exists uv, Vertex.uv_layers v !! 2%nat = Some (Some uv)
   else Vertex.uv_layers v !! 2%nat = Some None) /\
  (if ran 8%nat (MeshImportData.uv4_enabled m)
   then exists uv, Vertex.uv_layers v !! 3%nat = Some (Some uv)
   else Vertex.uv_layers v !! 3%nat = Some None).

(** A vertex of a loaded mesh [m]: the attributes follow the format word. *)
Definition follows_format (m : MeshImportData.t) (v : Vertex.t) : Prop :=
  after_passes 9 m v.

(** ** Files to run the code on *)

Module Examples.
Import Layout.

(** 1.0, 2.0 and 0.5 *)
Definition one : f32 := f32_one.
Definition two : f32 := 0x40000000.
Definition half : f32 := 0x3f000000.

(** A bone 100 cm along x, turned half a turn about x. *)
Definition root_record : bone_record :=
  mk_record 0 (b "root") (IEEE.f32_100, 0, 0) (mkQuaternion 0 one 0 0).

(** A dummy attached to that bone, 100 cm along y. *)
Definition dummy_record : bone_record :=
  mk_record 0 (b "p_01") (0, IEEE.f32_100, 0) (mkQuaternion one 0 0 0).

(** That bone in memory, 1 m along x. *)
Definition root_bone : BoneData.t :=
  BoneData.mk 0 (pystr_of_string "root") (one, 0, 0) (mkQuaternion 0 one 0 0).

(** A version-2 skeleton of that one bone and no dummy. *)
Definition zmd2_one_bone : stream := skeleton_bytes 2 [root_record] [].

(** The same file cut after the first byte of the dummy count. *)
Definition zmd2_cut_in_dummy_count : stream :=
  token_bytes 2 ++ i32_bytes 1 ++ bone_bytes root_record ++ [x00].

(** A version-8 mesh without vertices, triangles, materials or strips,
    up to the pool. *)
Definition zms8_sections : stream :=
  i32_bytes 0 ++ vector3_bytes (0, 0, 0) ++ vector3_bytes (one, one, one) ++
  i16_bytes 0 ++ i16_bytes 0 ++ i16_bytes 0 ++ i16_bytes 0 ++ i16_bytes 0.

(** That mesh with the first of the two bytes of the pool. *)
Definition zms8_half_pool : stream :=
  b "ZMS0008" ++ [x00] ++ zms8_sections ++ [x05].

(** A version-7 mesh of two vertices with the POSITION and UV2 bits. *)
Definition two_vertices : MeshLayout.content :=
  MeshLayout.mk_content (b "ZMS0007") (0, 0, 0) (one, one, one) []
    [(one, 0, 0); (0, two, 0)] [(half, half); (one, 0)] [] [] [].

Definition zms7_two_vertices : stream :=
  MeshLayout.position_uv2_bytes two_vertices.

(** An animation of [frame_count] frames and one channel of type
    [tracktype], whose payload is the floats [payload]. *)
Definition zmo_one_channel (frame_count tracktype : Z) (payload : list f32)
  : stream :=
  b "ZMO0002" ++ [x00] ++ i32_bytes 30 ++ i32_bytes frame_count ++
  i32_bytes 1 ++ i32_bytes tracktype ++ i32_bytes 0 ++
  concat (map pack_f payload).

(** A second bone attached to the first, a second dummy attached to that
    second bone, and the version-3 skeleton of the two bones and the two
    dummies. *)
Definition child_record : bone_record :=
  mk_record 0 (b "b1") (0, IEEE.f32_100, 0) (mkQuaternion 0 0 one 0).

Definition hand_record : bone_record :=
  mk_record 1 (b "p_02") (0, 0, 0) (mkQuaternion one 0 0 0).

Definition zmd3_two_bones : stream :=
  skeleton_bytes 3 [root_record; child_record] [dummy_record; hand_record].

(** An animation of two frames for a root channel of positions and a
    channel of rotations. *)
Definition two_frames : AnimationLayout.content :=
  AnimationLayout.mk_content (b "ZMO0002" ++ [x00]) 30
    [(TrackType.POSITION, 0); (TrackType.ROTATION, 1)]
    [ [AnimationLayout.Position (IEEE.f32_100, 0, 0);
       AnimationLayout.Rotation (mkQuaternion one 0 0 0)];
      [AnimationLayout.Position (0, IEEE.f32_100, 0);
       AnimationLayout.Rotation (mkQuaternion 0 one 0 0)] ].

End Examples.

(** * Properties *)

(** ** The monad *)

Lemma bind_Ret {A B} (m : io A) (k : A -> io B) s a s' :
  m s = Ret a s' -> bind m k s = k a s'.
Proof. intros E. unfold bind. now rewrite E. Qed.

Lemma bind_Raise {A B} (m : io A) (k : A -> io B) s e s' :
  m s = Raise e s' -> bind m k s = Raise e s'.
Proof. intros E. unfold bind. now rewrite E. Qed.

Lemma bind_inv_Ret {A B} (m : io A) (k : A -> io B) s v r :
  bind m k s = Ret v r -> exists a s', m s = Ret a s' /\ k a s' = Ret v r.
Proof.
  unfold bind. destruct (m s) as [a s'| |]; try discriminate. eauto.
Qed.

Lemma ret_inv {A} (a v : A) s r : ret a s = Ret v r -> v = a /\ r = s.
Proof. unfold ret. intros E. now inversion E. Qed.

(** Splits a hypothesis [(x <- m ;; k) s = Ret v r] into its steps. *)
Ltac bind_inv H :=
  let a := fresh "a" in
  let s := fresh "s" in
  let E := fresh "E" in
  apply bind_inv_Ret in H; destruct H as (a & s & E & H).

(** ** Bytes *)

Lemma Z_of_byte_of_Z z : Z_of_byte (byte_of_Z z) = z mod 256.
Proof.
  unfold Z_of_byte, byte_of_Z.
  assert (Hr : 0 <= z mod 256 < 256) by (apply Z.mod_pos_bound; lia).
  destruct (Byte.of_N (Z.to_N (z mod 256))) as [c|] eqn:E.
  - apply Byte.to_of_N in E. rewrite E. lia.
  - apply Byte.of_N_None_iff in E. lia.
Qed.

Lemma length_le_bytes n u : length (le_bytes n u) = n.
Proof.
  revert u. induction n as [|n IH]; intros u; simpl; [done|].
  now rewrite IH.
Qed.

Lemma le_unsigned_le_bytes n u :
  le_unsigned (le_bytes n u) = u mod 256 ^ Z.of_nat n.
Proof.
  revert u. induction n as [|n IH]; intros u.
  - simpl. now rewrite Z.mod_1_r.
  - cbn [le_bytes le_unsigned]. rewrite IH, Z_of_byte_of_Z.
    rewrite Nat2Z.inj_succ, Z.pow_succ_r by lia.
    rewrite Z.rem_mul_r by lia. reflexivity.
Qed.

Lemma to_signed_mod w z :
  0 < w -> - 2 ^ (w - 1) <= z < 2 ^ (w - 1) -> to_signed w (z mod 2 ^ w) = z.
Proof.
  intros Hw Hz. unfold to_signed.
  assert (Hp : 2 ^ w = 2 * 2 ^ (w - 1)).
  { rewrite <- Z.pow_succ_r by lia. f_equal. lia. }
  destruct (Z.ltb_spec (z mod 2 ^ w) (2 ^ (w - 1))) as [Hlt|Hge].
  - destruct (Z.neg_nonneg_cases z) as [Hn|Hn].
    + rewrite <- (Z.mod_unique z (2 ^ w) (-1) (z + 2 ^ w)) in Hlt; lia.
    + apply Z.mod_small. lia.
  - destruct (Z.neg_nonneg_cases z) as [Hn|Hn].
    + rewrite <- (Z.mod_unique z (2 ^ w) (-1) (z + 2 ^ w)); lia.
    + rewrite Z.mod_small in Hge; lia.
Qed.

(** ** The primitive readers *)

Lemma f_read_app n bs r :
  length bs = n -> f_read n (bs ++ r) = Ret bs r.
Proof.
  intros <-. unfold f_read. now rewrite take_app_length, drop_app_length.
Qed.

Lemma read_i32_bytes z r :
  - 2 ^ 31 <= z < 2 ^ 31 -> read_i32 (Layout.i32_bytes z ++ r) = Ret z r.
Proof.
  intros Hz. unfold read_i32, Layout.i32_bytes.
  rewrite (bind_Ret _ _ _ _ _ (f_read_app 4 _ r (length_le_bytes _ _))).
  unfold unpack_i. rewrite length_le_bytes.
  rewrite decide_True by done. unfold ret. f_equal.
  rewrite le_unsigned_le_bytes. change (256 ^ Z.of_nat 4) with (2 ^ 32).
  rewrite Z.mod_mod by lia. now apply to_signed_mod.
Qed.

Lemma read_i16_bytes z r :
  - 2 ^ 15 <= z < 2 ^ 15 -> read_i16 (Layout.i16_bytes z ++ r) = Ret z r.
Proof.
  intros Hz. unfold read_i16, Layout.i16_bytes.
  rewrite (bind_Ret _ _ _ _ _ (f_read_app 2 _ r (length_le_bytes _ _))).
  unfold unpack_h. rewrite length_le_bytes.
  rewrite decide_True by done. unfold ret. f_equal.
  rewrite le_unsigned_le_bytes. change (256 ^ Z.of_nat 2) with (2 ^ 16).
  rewrite Z.mod_mod by lia. now apply to_signed_mod.
Qed.

Lemma read_f32_pack x r :
  0 <= x < 2 ^ 32 -> read_f32 (pack_f x ++ r) = Ret x r.
Proof.
  intros Hx. unfold read_f32, pack_f.
  rewrite (bind_Ret _ _ _ _ _ (f_read_app 4 _ r (length_le_bytes _ _))).
  unfold unpack_f. rewrite length_le_bytes.
  rewrite decide_True by done. unfold ret. f_equal.
  rewrite le_unsigned_le_bytes. change (256 ^ Z.of_nat 4) with (2 ^ 32).
  now apply Z.mod_small.
Qed.

(** A read of [n] bytes on a file with fewer bytes left raises
    struct.error and leaves the file exhausted. *)
Lemma read_i32_short s :
  (length s < 4)%nat -> read_i32 s = Raise struct_error [].
Proof.
  intros Hs. unfold read_i32, bind, f_read, unpack_i.
  rewrite decide_False by (rewrite length_take; lia).
  unfold raise. f_equal. apply drop_ge. lia.
Qed.

Lemma read_i16_short s :
  (length s < 2)%nat -> read_i16 s = Raise struct_error [].
Proof.
  intros Hs. unfold read_i16, bind, f_read, unpack_h.
  rewrite decide_False by (rewrite length_take; lia).
  unfold raise. f_equal. apply drop_ge. lia.
Qed.

Lemma read_f32_short s :
  (length s < 4)%nat -> read_f32 s = Raise struct_error [].
Proof.
  intros Hs. unfold read_f32, bind, f_read, unpack_f.
  rewrite decide_False by (rewrite length_take; lia).
  unfold raise. f_equal. apply drop_ge. lia.
Qed.

Lemma read_i32_long s :
  (4 <= length s)%nat ->
  read_i32 s = Ret (to_signed 32 (le_unsigned (take 4 s))) (drop 4 s).
Proof.
  intros Hs. unfold read_i32, bind, f_read, unpack_i.
  now rewrite decide_True by (rewrite length_take; lia).
Qed.

Lemma read_i16_long s :
  (2 <= length s)%nat ->
  read_i16 s = Ret (to_signed 16 (le_unsigned (take 2 s))) (drop 2 s).
Proof.
  intros Hs. unfold read_i16, bind, f_read, unpack_h.
  now rewrite decide_True by (rewrite length_take; lia).
Qed.

Lemma read_f32_long s :
  (4 <= length s)%nat ->
  read_f32 s = Ret (le_unsigned (take 4 s)) (drop 4 s).
Proof.
  intros Hs. unfold read_f32, bind, f_read, unpack_f.
  now rewrite decide_True by (rewrite length_take; lia).
Qed.

(** ** Strings *)

Section Strings.
Context `{Runtime}.

(** Without a zero byte ahead the loop of [read_str] is still running
    after any number of iterations: at the end of the file [f.read(1)] is
    empty, which is not the terminator, and nothing changes any more. *)
Lemma read_str_loop_hang s :
  x00 ∉ s -> forall fuel bstring, read_str_loop fuel bstring s = None.
Proof.
  intros Hs fuel. revert s Hs.
  induction fuel as [|fuel IH]; intros s Hs bstring; [done|].
  cbn [read_str_loop]. destruct s as [|c s].
  - rewrite decide_False by done. now apply IH.
  - assert (c <> x00) by (intros ->; apply Hs; left).
    rewrite decide_False by (simpl; congruence).
    apply IH. intros Hin. apply Hs. now right.
Qed.

(** With a zero byte ahead, the loop leaves with the bytes before it as
    soon as it is given more iterations than there are such bytes. *)
Lemma read_str_loop_enough name r :
  x00 ∉ name ->
  forall fuel bstring,
    (length name < fuel)%nat ->
    read_str_loop fuel bstring (name ++ x00 :: r) = Some (bstring ++ name, r).
Proof.
  induction name as [|c name IH]; intros Hn fuel bstring Hf.
  - destruct fuel as [|fuel]; [simpl in Hf; lia|].
    cbn. rewrite decide_True by done. now rewrite app_nil_r.
  - destruct fuel as [|fuel]; [simpl in Hf; lia|].
    assert (c <> x00) by (intros ->; apply Hn; left).
    cbn [read_str_loop app]. rewrite decide_False by (simpl; congruence).
    simpl take. simpl drop. rewrite IH.
    + now rewrite <- app_assoc.
    + intros Hin. apply Hn. now right.
    + simpl in Hf. lia.
Qed.

Lemma read_str_terminated name r :
  x00 ∉ name -> read_str (name ++ x00 :: r) = decode name r.
Proof.
  intros Hn. unfold read_str.
  rewrite (read_str_loop_enough name r Hn) by (rewrite length_app; simpl; lia).
  reflexivity.
Qed.

Lemma read_str_unterminated s : x00 ∉ s -> read_str s = Hang.
Proof.
  intros Hs. unfold read_str. now rewrite read_str_loop_hang.
Qed.

End Strings.

(** C8 (the code departs from the claim). On the three bytes "ZMS", a file
    that ends before any zero byte, [read_str] raises nothing: its loop is
    still running after any number of iterations, so the call never
    returns, where the claim has it fail with a truncation error. *)
Theorem read_str_eof_never_returns `{Runtime} :
  (forall fuel, read_str_loop fuel [] (b "ZMS") = None) /\
  read_str (b "ZMS") = Hang /\
  (forall e r, read_str (b "ZMS") <> Raise e r).
Proof.
  assert (Hs : x00 ∉ b "ZMS").
  { cbn. intros Hin. repeat (apply elem_of_cons in Hin as [Hin|Hin]; [discriminate|]).
    now apply elem_of_nil in Hin. }
  split; [|split].
  - intros fuel. now apply read_str_loop_hang.
  - now apply read_str_unterminated.
  - intros e r. rewrite read_str_unterminated by done. discriminate.
Qed.

(** C10 (as amended). When fewer than [n] bytes remain, [read_fstr(f, n)]
    takes them all. When they are EUC-KR text it returns their decoding: a
    short string, the empty one on an exhausted file. When they are not,
    as when the file stops inside a two-byte character, it raises the
    codec's UnicodeDecodeError. In no case does it raise struct.error. *)
Theorem read_fstr_short `{Runtime} (n : nat) (s : stream) :
  (length s < n)%nat ->
  read_fstr n s =
    match euc_kr_decode s with
    | Some str => Ret str []
    | None => Raise UnicodeDecodeError []
    end /\
  (forall r, read_fstr n s <> Raise struct_error r).
Proof.
  intros Hs.
  assert (E : read_fstr n s =
    match euc_kr_decode s with
    | Some str => Ret str []
    | None => Raise UnicodeDecodeError []
    end).
  { unfold read_fstr, bind, f_read, decode.
    rewrite take_ge, drop_ge by lia.
    now destruct (euc_kr_decode s). }
  split; [exact E|].
  intros r. rewrite E. destruct (euc_kr_decode s); discriminate.
Qed.

Lemma read_fstr_short_witness :
  (length (b "ZMD") < 7)%nat /\
  @read_fstr ascii_runtime 7 (b "ZMD") = Ret (pystr_of_string "ZMD") [].
Proof.
  split; [simpl; lia|].
  destruct (@read_fstr_short ascii_runtime 7 (b "ZMD")) as [E _]; [simpl; lia|].
  rewrite E. reflexivity.
Defined.

(** C10 (as stated) fails on a field that stops inside a two-byte
    character: of the seven bytes of the token the file holds the three
    bytes of ZMD and the lead byte 0xB0 of a Hangul syllable, whose trail
    byte is missing. Fewer than seven bytes remain, and the read returns
    no short string: the codec rejects the incomplete character and
    [read_fstr] raises UnicodeDecodeError. ([ascii_runtime] rejects every
    byte from 0x80 on; on a lead byte without its trail byte that is what
    EUC-KR does.) *)
Lemma read_fstr_cut_character_counterexample :
  (length (b "ZMD" ++ [xb0]) < 7)%nat /\
  @euc_kr_decode ascii_runtime (b "ZMD" ++ [xb0]) = None /\
  @read_fstr ascii_runtime 7 (b "ZMD" ++ [xb0]) = Raise UnicodeDecodeError [].
Proof.
  split; [simpl; lia|]. split; reflexivity.
Qed.

(** ** Loops *)

(** A property of the state that every iteration keeps holds when the
    loop is left. *)
Lemma for_each_invariant {X St} (P : St -> Prop) (l : list X)
    (body : X -> St -> io St) :
  (forall x st s st' s', P st -> body x st s = Ret st' s' -> P st') ->
  forall st s st' s', P st -> for_each l body st s = Ret st' s' -> P st'.
Proof.
  intros Hbody. induction l as [|x l IH]; intros st s st' s' HP E.
  - apply ret_inv in E as [-> _]. exact HP.
  - cbn [for_each] in E. bind_inv E. eauto.
Qed.

(** ** Skeletons: records *)

Section SkeletonRecords.
Context `{Runtime}.
Import Layout.

Lemma read_str_name name r :
  x00 ∉ name -> read_str (name ++ [x00] ++ r) = decode name r.
Proof. apply read_str_terminated. Qed.

Lemma is_f32_spec x : is_f32 x = true -> 0 <= x < 2 ^ 32.
Proof. unfold is_f32. rewrite andb_true_iff. lia. Qed.

Lemma is_number_f32 x : is_number x = true -> 0 <= x < 2 ^ 32.
Proof. unfold is_number. rewrite !andb_true_iff. lia. Qed.

Lemma read_vector3_f32_bytes v r :
  0 <= v.1.1 < 2 ^ 32 -> 0 <= v.1.2 < 2 ^ 32 -> 0 <= v.2 < 2 ^ 32 ->
  read_vector3_f32 (vector3_bytes v ++ r) = Ret v r.
Proof.
  destruct v as [[x y] z]. cbn [fst snd]. intros Hx Hy Hz.
  unfold read_vector3_f32, vector3_bytes.
  rewrite <- !app_assoc.
  rewrite (bind_Ret _ _ _ _ _ (read_f32_pack x _ Hx)).
  rewrite (bind_Ret _ _ _ _ _ (read_f32_pack y _ Hy)).
  rewrite (bind_Ret _ _ _ _ _ (read_f32_pack z _ Hz)).
  reflexivity.
Qed.

Lemma read_vector4_f32_rotation_bytes q r :
  0 <= qw q < 2 ^ 32 -> 0 <= qx q < 2 ^ 32 ->
  0 <= qy q < 2 ^ 32 -> 0 <= qz q < 2 ^ 32 ->
  read_vector4_f32_rotation (quaternion_bytes q ++ r) = Ret q r.
Proof.
  intros Hw Hx Hy Hz. unfold read_vector4_f32_rotation, quaternion_bytes.
  rewrite <- !app_assoc.
  rewrite (bind_Ret _ _ _ _ _ (read_f32_pack _ _ Hw)).
  rewrite (bind_Ret _ _ _ _ _ (read_f32_pack _ _ Hx)).
  rewrite (bind_Ret _ _ _ _ _ (read_f32_pack _ _ Hy)).
  rewrite (bind_Ret _ _ _ _ _ (read_f32_pack _ _ Hz)).
  now destruct q.
Qed.

Lemma wf_record_spec nbones r :
  wf_record nbones r = true -> wf_record_facts nbones r.
Proof.
  unfold wf_record. rewrite !andb_true_iff.
  destruct (r_position r) as [[x y] z] eqn:Epos.
  rewrite !andb_true_iff.
  intros ((((((((Hn & Hc) & Hp0) & Hp1) & ((Hx & Hy) & Hz))
             & Hqw) & Hqx) & Hqy) & Hqz).
  destruct (euc_kr_decode (r_name r)) as [nm|] eqn:Ed; [|discriminate].
  apply bool_decide_eq_true in Hc.
  split; unfold decoded_name; rewrite ?Ed, ?Epos; simpl;
    auto using is_f32_spec, is_number_f32; try lia.
  rewrite forallb_forall in Hn. intros Hin.
  apply list_elem_of_In in Hin. specialize (Hn _ Hin).
  now rewrite bool_decide_eq_true_2 in Hn.
Qed.

(** Decoding a bone record: [_load_bones] calls [load_data(f, False)],
    so the rotation is read whatever the version. *)
Lemma load_data_bone_bytes self nbones r rest :
  Z.of_nat nbones < 2 ^ 31 ->
  wf_record nbones r = true ->
  BoneData.load_data self false false (bone_bytes r ++ rest)
  = Ret (decoded_bone r) rest.
Proof.
  intros Hnb W. apply wf_record_spec in W. destruct W.
  unfold BoneData.load_data, bone_bytes. cbn [negb].
  rewrite <- !app_assoc.
  rewrite (bind_Ret _ _ _ self _ eq_refl).
  rewrite (bind_Ret _ _ _ (r_parent r) _) by (apply read_i32_bytes; lia).
  erewrite (bind_Ret (name <- read_str ;; _)); cycle 1.
  { erewrite bind_Ret; [reflexivity|].
    rewrite read_str_name by done.
    unfold decode. rewrite wf_name_decode0. reflexivity. }
  rewrite (bind_Ret _ _ _ _ _
             (read_vector3_f32_bytes _ _ wf_px0 wf_py0 wf_pz0)).
  rewrite (bind_Ret _ _ _ _ _
             (read_vector4_f32_rotation_bytes _ _ wf_qw0 wf_qx0 wf_qy0 wf_qz0)).
  reflexivity.
Qed.

(** Decoding a dummy record: no rotation is read from a version-2 file,
    and the dummy keeps the rotation it had. *)
Lemma load_data_dummy_bytes self version nbones r rest :
  Z.of_nat nbones < 2 ^ 31 ->
  wf_record nbones r = true ->
  BoneData.load_data self true (bool_decide (version = 2))
    (dummy_bytes version r ++ rest)
  = Ret (BoneData.mk (r_parent r) (decoded_name r)
           (Vector_div100 (r_position r))
           (if decide (version = 2) then BoneData.rotation self
            else r_rotation r)) rest.
Proof.
  intros Hnb W. apply wf_record_spec in W. destruct W.
  unfold BoneData.load_data, dummy_bytes. cbn [negb].
  rewrite <- !app_assoc.
  erewrite (bind_Ret (name <- read_str ;; _)); cycle 1.
  { erewrite bind_Ret; [reflexivity|].
    rewrite read_str_name by done.
    unfold decode. rewrite wf_name_decode0. reflexivity. }
  rewrite (bind_Ret _ _ _ (r_parent r) _) by (apply read_i32_bytes; lia).
  rewrite (bind_Ret _ _ _ _ _ eq_refl).
  rewrite (bind_Ret _ _ _ _ _
             (read_vector3_f32_bytes _ _ wf_px0 wf_py0 wf_pz0)).
  destruct (decide (version = 2)) as [E|E].
  - rewrite bool_decide_eq_true_2 by done. reflexivity.
  - rewrite bool_decide_eq_false_2 by done.
    rewrite (bind_Ret _ _ _ _ _
               (read_vector4_f32_rotation_bytes _ _ wf_qw0 wf_qx0 wf_qy0 wf_qz0)).
    reflexivity.
Qed.

End SkeletonRecords.

(** ** Skeletons: files *)

Lemma lookup_snoc_last {A} (l : list A) (y : A) :
  (l ++ [y]) !! length l = Some y.
Proof. now apply list_lookup_middle. Qed.

Lemma insert_snoc_last {A} (l : list A) (x y : A) :
  <[length l := x]> (l ++ [y]) = l ++ [x].
Proof.
  rewrite insert_app_r_alt by lia. now rewrite Nat.sub_diag.
Qed.

Section SkeletonFile.
Context `{Runtime}.
Import Layout.

Lemma load_bones_loop rs :
  forall self rest nbones,
    Z.of_nat nbones < 2 ^ 31 ->
    forallb (wf_record nbones) rs = true ->
    for_each (seq (length (SkeletonData.bones self)) (length rs))
      SkeletonData.load_bone_at self (concat (map bone_bytes rs) ++ rest)
    = Ret (SkeletonData.set_bones
             (SkeletonData.bones self ++ map decoded_bone rs) self) rest.
Proof.
  induction rs as [|r rs IH]; intros self rest nbones Hnb W.
  - cbn. rewrite app_nil_r. now destruct self.
  - cbn [forallb] in W. apply andb_true_iff in W as [Wr Wrs].
    cbn [length seq for_each map concat]. rewrite <- app_assoc.
    erewrite bind_Ret; cycle 1.
    { unfold SkeletonData.load_bone_at.
      cbn [SkeletonData.bones SkeletonData.set_bones].
      rewrite lookup_snoc_last.
      erewrite bind_Ret; [|eapply load_data_bone_bytes; eauto].
      rewrite insert_snoc_last. reflexivity. }
    set (self' := SkeletonData.set_bones _ _).
    replace (S (length (SkeletonData.bones self)))
      with (length (SkeletonData.bones self'))
      by (subst self'; cbn; rewrite length_app; cbn; lia).
    rewrite (IH self' rest nbones Hnb Wrs).
    subst self'. cbn. now rewrite <- app_assoc.
Qed.

Lemma load_dummies_loop rs :
  forall self rest nbones,
    Z.of_nat nbones < 2 ^ 31 ->
    forallb (wf_record nbones) rs = true ->
    for_each (seq (length (SkeletonData.dummies self)) (length rs))
      SkeletonData.load_dummy_at self
      (concat (map (dummy_bytes (SkeletonData.format_code self)) rs) ++ rest)
    = Ret (SkeletonData.set_dummies
             (SkeletonData.dummies self ++
              map (decoded_dummy (SkeletonData.format_code self)) rs) self)
        rest.
Proof.
  induction rs as [|r rs IH]; intros self rest nbones Hnb W.
  - cbn. rewrite app_nil_r. now destruct self.
  - cbn [forallb] in W. apply andb_true_iff in W as [Wr Wrs].
    cbn [length seq for_each map concat]. rewrite <- app_assoc.
    erewrite bind_Ret; cycle 1.
    { unfold SkeletonData.load_dummy_at.
      cbn [SkeletonData.dummies SkeletonData.set_dummies
           SkeletonData.format_code].
      rewrite lookup_snoc_last.
      erewrite bind_Ret; [|eapply load_data_dummy_bytes; eauto].
      rewrite insert_snoc_last. reflexivity. }
    set (self' := SkeletonData.set_dummies _ _).
    replace (S (length (SkeletonData.dummies self)))
      with (length (SkeletonData.dummies self'))
      by (subst self'; cbn; rewrite length_app; cbn; lia).
    change (SkeletonData.format_code self)
      with (SkeletonData.format_code self').
    rewrite (IH self' rest nbones Hnb Wrs).
    subst self'. cbn. now rewrite <- app_assoc.
Qed.

Lemma wf_skeleton_spec version bones dummies :
  wf_skeleton version bones dummies = true ->
  wf_skeleton_facts version bones dummies.
Proof.
  unfold wf_skeleton. rewrite !andb_true_iff, !bool_decide_eq_true.
  intros ((((((((? & ?) & ?) & ?) & ?) & ?) & ?) & ?) & ?).
  split; auto; lia.
Qed.

Lemma load_format_code_token version bones dummies self rest :
  wf_skeleton version bones dummies = true ->
  SkeletonData._load_format_code self (token_bytes version ++ rest)
  = Ret (SkeletonData.set_format_code version self) rest.
Proof.
  intros W. apply wf_skeleton_spec in W.
  destruct W as [Hv _ _ _ _ Hd2 Hd3 _ _].
  unfold SkeletonData._load_format_code, read_fstr, token_bytes.
  destruct Hv as [-> | ->].
  - rewrite decide_True by done.
    rewrite (bind_Ret _ _ _ SkeletonData.ZMD0002 rest).
    + rewrite decide_False by (vm_compute; discriminate).
      now rewrite decide_True by done.
    + rewrite (bind_Ret _ _ _ _ _ (f_read_app 7 (b "ZMD0002") rest eq_refl)).
      unfold decode. now rewrite Hd2.
  - rewrite decide_False by done.
    rewrite (bind_Ret _ _ _ SkeletonData.ZMD0003 rest).
    + now rewrite decide_True by done.
    + rewrite (bind_Ret _ _ _ _ _ (f_read_app 7 (b "ZMD0003") rest eq_refl)).
      unfold decode. now rewrite Hd3.
Qed.

(** Decoding a well-formed file yields the decoded records, bone
    rotations included in both versions, and reads the file to its end. *)
Lemma load_file_skeleton_bytes version bones dummies :
  wf_skeleton version bones dummies = true ->
  SkeletonData.load_file SkeletonData.init
    (skeleton_bytes version bones dummies)
  = Ret (decoded_skeleton version bones dummies) [].
Proof.
  intros W. pose proof (wf_skeleton_spec _ _ _ W) as F.
  destruct F as [Hv Hbc Hdc Hbs Hds _ _ _ _].
  unfold SkeletonData.load_file, skeleton_bytes.
  rewrite (bind_Ret _ _ _ _ _ (load_format_code_token _ _ _ _ _ W)).
  erewrite bind_Ret; cycle 1.
  { unfold SkeletonData._load_bones.
    erewrite (bind_Ret read_i32) by (apply read_i32_bytes; lia).
    unfold range. rewrite Nat2Z.id.
    apply (load_bones_loop bones
             (SkeletonData.set_format_code version SkeletonData.init) _
             (length bones)); assumption. }
  unfold SkeletonData._load_dummies.
  erewrite (bind_Ret (try_except _ _)); cycle 1.
  { unfold try_except.
    erewrite (bind_Ret read_i32) by (apply read_i32_bytes; lia).
    reflexivity. }
  cbv beta iota. unfold range. rewrite Nat2Z.id.
  rewrite <- (app_nil_r (concat (map (dummy_bytes version) dummies))).
  set (self := SkeletonData.set_bones _ _).
  change version with (SkeletonData.format_code self) at 1.
  etrans; [apply (load_dummies_loop dummies self [] (length bones));
           assumption|].
  reflexivity.
Qed.

End SkeletonFile.

(** ** Skeletons: writing *)

Section SkeletonSave.
Context `{Runtime}.
Import Layout.

Lemma write_i32_bytes z file :
  - 2 ^ 31 <= z < 2 ^ 31 -> write_i32 z file = Ret tt (file ++ i32_bytes z).
Proof.
  intros Hz. unfold write_i32, pack_i, bind.
  now rewrite decide_True by lia.
Qed.

Lemma write_vector3_f32_bytes v file :
  write_vector3_f32 v file = Ret tt (file ++ vector3_bytes v).
Proof.
  destruct v as [[x y] z].
  unfold write_vector3_f32, write_f32, vector3_bytes, bind, f_write.
  now rewrite <- !app_assoc.
Qed.

Lemma write_vector4_f32_bytes q file :
  write_vector4_f32 q file = Ret tt (file ++ quaternion_bytes q).
Proof.
  unfold write_vector4_f32, write_f32, quaternion_bytes, bind, f_write.
  now rewrite <- !app_assoc.
Qed.

Lemma write_str_bytes nm bs file :
  euc_kr_encode nm = Some bs ->
  write_str nm file = Ret tt (file ++ bs ++ [x00]).
Proof.
  intros E. unfold write_str, encode, bind. rewrite E. unfold ret, f_write, pack_s.
  now rewrite resize_all.
Qed.

(** [save_data] writes the position it is given, as it is. *)
Lemma save_data_bone_bytes bone bs file :
  - 2 ^ 31 <= BoneData.parent bone < 2 ^ 31 ->
  euc_kr_encode (BoneData.name bone) = Some bs ->
  BoneData.save_data bone false false file
  = Ret tt (file ++ i32_bytes (BoneData.parent bone) ++ bs ++ [x00] ++
            vector3_bytes (BoneData.position bone) ++
            quaternion_bytes (BoneData.rotation bone)).
Proof.
  intros Hp E. unfold BoneData.save_data. cbn [negb].
  rewrite (bind_Ret _ _ _ tt file eq_refl).
  rewrite (bind_Ret _ _ _ _ _ (write_i32_bytes _ _ Hp)).
  rewrite (bind_Ret _ _ _ _ _ (write_str_bytes _ _ _ E)).
  rewrite (bind_Ret _ _ _ _ _ (write_vector3_f32_bytes _ _)).
  rewrite write_vector4_f32_bytes.
  now rewrite <- !app_assoc.
Qed.

Lemma save_data_dummy_bytes dummy bs format_v_2 file :
  - 2 ^ 31 <= BoneData.parent dummy < 2 ^ 31 ->
  euc_kr_encode (BoneData.name dummy) = Some bs ->
  BoneData.save_data dummy true format_v_2 file
  = Ret tt (file ++ bs ++ [x00] ++ i32_bytes (BoneData.parent dummy) ++
            vector3_bytes (BoneData.position dummy) ++
            (if format_v_2 then []
             else quaternion_bytes (BoneData.rotation dummy))).
Proof.
  intros Hp E. unfold BoneData.save_data. cbn [negb].
  rewrite (bind_Ret _ _ _ _ _ (write_str_bytes _ _ _ E)).
  rewrite (bind_Ret _ _ _ _ _ (write_i32_bytes _ _ Hp)).
  rewrite (bind_Ret _ _ _ tt _ eq_refl).
  rewrite (bind_Ret _ _ _ _ _ (write_vector3_f32_bytes _ _)).
  destruct format_v_2; cbn [negb].
  - unfold ret. now rewrite app_nil_r, <- !app_assoc.
  - rewrite write_vector4_f32_bytes. now rewrite <- !app_assoc.
Qed.

Lemma save_bones_loop nbones rs :
  Z.of_nat nbones < 2 ^ 31 ->
  forallb (wf_record nbones) rs = true ->
  forall file,
    for_each (map decoded_bone rs)
      (fun bone _ => BoneData.save_data bone false false) tt file
    = Ret tt (file ++ concat (map bone_bytes (map scaled rs))).
Proof.
  intros Hnb. induction rs as [|r rs IH]; intros W file.
  - cbn. now rewrite app_nil_r.
  - cbn [forallb] in W. apply andb_true_iff in W as [Wr Wrs].
    apply wf_record_spec in Wr. destruct Wr.
    cbn [map for_each concat].
    erewrite bind_Ret; cycle 1.
    { apply save_data_bone_bytes with (bs := r_name r); cbn; [lia|done]. }
    rewrite (IH Wrs). unfold bone_bytes.
    cbn [decoded_bone scaled BoneData.parent BoneData.position
         BoneData.rotation r_parent r_name r_position r_rotation].
    now rewrite <- !app_assoc.
Qed.

Lemma save_dummies_loop version nbones rs :
  Z.of_nat nbones < 2 ^ 31 ->
  forallb (wf_record nbones) rs = true ->
  forall file,
    for_each (map (decoded_dummy version) rs)
      (fun dummy _ =>
         BoneData.save_data dummy true (bool_decide (version = 2))) tt file
    = Ret tt (file ++ concat (map (dummy_bytes version) (map scaled rs))).
Proof.
  intros Hnb. induction rs as [|r rs IH]; intros W file.
  - cbn. now rewrite app_nil_r.
  - cbn [forallb] in W. apply andb_true_iff in W as [Wr Wrs].
    apply wf_record_spec in Wr. destruct Wr.
    cbn [map for_each concat].
    erewrite bind_Ret; cycle 1.
    { apply save_data_dummy_bytes with (bs := r_name r); cbn; [lia|done]. }
    rewrite (IH Wrs). unfold dummy_bytes.
    cbn [decoded_dummy scaled BoneData.parent BoneData.position
         BoneData.rotation r_parent r_name r_position r_rotation].
    destruct (decide (version = 2)) as [E|E].
    + rewrite bool_decide_eq_true_2 by done. now rewrite <- !app_assoc.
    + rewrite bool_decide_eq_false_2 by done. now rewrite <- !app_assoc.
Qed.

Lemma save_format_code_token version bones dummies self file :
  wf_skeleton version bones dummies = true ->
  SkeletonData.format_code self = version ->
  SkeletonData._save_format_code self file
  = Ret tt (file ++ token_bytes version).
Proof.
  intros W E. apply wf_skeleton_spec in W.
  destruct W as [Hv _ _ _ _ _ _ He2 He3].
  unfold SkeletonData._save_format_code, write_fstr, token_bytes, encode, bind.
  rewrite E. destruct Hv as [-> | ->].
  - change (SkeletonData.ZMD000 ++ py_str_of_int 2) with SkeletonData.ZMD0002.
    now rewrite He2.
  - change (SkeletonData.ZMD000 ++ py_str_of_int 3) with SkeletonData.ZMD0003.
    now rewrite He3.
Qed.

(** Encoding the decoded skeleton writes the records with their
    positions divided by 100: nothing multiplies them back. *)
Lemma save_file_decoded_skeleton version bones dummies :
  wf_skeleton version bones dummies = true ->
  SkeletonData.save_file (decoded_skeleton version bones dummies) []
  = Ret tt (skeleton_bytes version (map scaled bones) (map scaled dummies)).
Proof.
  intros W. pose proof (wf_skeleton_spec _ _ _ W) as F.
  destruct F as [Hv Hbc Hdc Hbs Hds _ _ _ _].
  unfold SkeletonData.save_file, skeleton_bytes.
  rewrite (bind_Ret _ _ _ _ _
             (save_format_code_token version bones dummies
                (decoded_skeleton version bones dummies) [] W eq_refl)).
  erewrite bind_Ret; cycle 1.
  { unfold SkeletonData._save_bones, decoded_skeleton.
    cbn [SkeletonData.bones]. rewrite length_map.
    erewrite bind_Ret by (apply write_i32_bytes; lia).
    apply (save_bones_loop (length bones)); assumption. }
  unfold SkeletonData._save_dummies, decoded_skeleton.
  cbn [SkeletonData.dummies SkeletonData.format_code]. rewrite length_map.
  erewrite bind_Ret by (apply write_i32_bytes; lia).
  rewrite (save_dummies_loop version (length bones)) by assumption.
  rewrite !length_map. cbn [app]. now rewrite <- !app_assoc.
Qed.

(** The listing printed after a load or a save finds the parent of every
    bone and dummy of a well-formed file. *)
Lemma print_bone_list_ok self l s :
  Forall (fun bone =>
            0 <= BoneData.parent bone
              < Z.of_nat (length (SkeletonData.bones self))) l ->
  SkeletonData._print_bone_list self l s = Ret tt s.
Proof.
  unfold SkeletonData._print_bone_list.
  induction 1 as [|bone l Hb Hl IH]; [reflexivity|].
  cbn [for_each]. erewrite bind_Ret; [exact IH|].
  unfold py_index. rewrite decide_True by lia.
  destruct (lookup_lt_is_Some_2 (SkeletonData.bones self)
              (Z.to_nat (BoneData.parent bone))) as [x ->]; [lia|].
  reflexivity.
Qed.

Lemma print_data_decoded_skeleton version bones dummies s :
  wf_skeleton version bones dummies = true ->
  SkeletonData._print_data (decoded_skeleton version bones dummies) s
  = Ret tt s.
Proof.
  intros W. apply wf_skeleton_spec in W.
  destruct W as [_ _ _ Hbs Hds _ _ _ _].
  assert (Hpar : forall rs f,
            (forall r, BoneData.parent (f r) = r_parent r) ->
            forallb (wf_record (length bones)) rs = true ->
            Forall (fun bone =>
                      0 <= BoneData.parent bone
                        < Z.of_nat (length (map decoded_bone bones)))
              (map f rs)).
  { intros rs f Hf Hrs. rewrite length_map. apply Forall_map, Forall_forall.
    intros r Hr. rewrite Hf. rewrite forallb_forall in Hrs.
    apply Hrs, wf_record_spec in Hr. now destruct Hr. }
  unfold SkeletonData._print_data, decoded_skeleton.
  cbn [SkeletonData.bones SkeletonData.dummies].
  rewrite (bind_Ret _ _ _ tt s).
  - destruct (map (decoded_dummy version) dummies) eqn:E; [reflexivity|].
    rewrite <- E. apply print_bone_list_ok. now apply Hpar.
  - apply print_bone_list_ok. now apply Hpar.
Qed.

End SkeletonSave.

(** ** Skeletons: what the steps of a load keep *)

Section SkeletonSteps.
Context `{Runtime}.

Lemma load_format_code_inv self s sk r :
  SkeletonData._load_format_code self s = Ret sk r ->
  (SkeletonData.format_code sk = 2 \/ SkeletonData.format_code sk = 3) /\
  SkeletonData.bones sk = SkeletonData.bones self /\
  SkeletonData.dummies sk = SkeletonData.dummies self.
Proof.
  unfold SkeletonData._load_format_code. intros E. bind_inv E.
  repeat case_decide; try discriminate;
    apply ret_inv in E as [-> _]; cbn; auto.
Qed.

Lemma load_bone_at_inv i self s sk r :
  SkeletonData.load_bone_at i self s = Ret sk r ->
  SkeletonData.format_code sk = SkeletonData.format_code self /\
  SkeletonData.dummies sk = SkeletonData.dummies self.
Proof.
  unfold SkeletonData.load_bone_at. cbn [SkeletonData.bones SkeletonData.set_bones].
  destruct (_ !! i); [|discriminate].
  intros E. bind_inv E. apply ret_inv in E as [-> _]. now cbn.
Qed.

Lemma load_bones_inv self s sk r :
  SkeletonData._load_bones self s = Ret sk r ->
  SkeletonData.format_code sk = SkeletonData.format_code self /\
  SkeletonData.dummies sk = SkeletonData.dummies self.
Proof.
  unfold SkeletonData._load_bones. intros E. bind_inv E.
  refine (for_each_invariant
            (fun st =>
               SkeletonData.format_code st = SkeletonData.format_code self /\
               SkeletonData.dummies st = SkeletonData.dummies self)
            _ _ _ _ _ _ _ _ E); [|done].
  intros i st s1 st' s1' [Hf Hd] Ei.
  apply load_bone_at_inv in Ei as [-> ->]. done.
Qed.

(** With [format_v_2] set, [load_data] leaves the rotation alone. *)
Lemma load_data_v2_rotation self is_dummy s bone r :
  BoneData.load_data self is_dummy true s = Ret bone r ->
  BoneData.rotation bone = BoneData.rotation self.
Proof.
  unfold BoneData.load_data. intros E.
  bind_inv E. bind_inv E. bind_inv E. bind_inv E.
  apply ret_inv in E as [-> _]. cbn.
  assert (BoneData.rotation a = BoneData.rotation self) as Ha.
  { destruct is_dummy.
    - bind_inv E0. apply ret_inv in E0 as [-> _]. reflexivity.
    - apply ret_inv in E0 as [-> _]. reflexivity. }
  destruct is_dummy; cbn [negb] in E2.
  - apply ret_inv in E2 as [-> _]. cbn. exact Ha.
  - bind_inv E2. apply ret_inv in E2 as [-> _]. cbn. exact Ha.
Qed.

Lemma load_dummy_at_v2 i self s sk r :
  SkeletonData.format_code self = 2 ->
  Forall (fun d => BoneData.rotation d = Quaternion_identity)
    (SkeletonData.dummies self) ->
  SkeletonData.load_dummy_at i self s = Ret sk r ->
  SkeletonData.format_code sk = 2 /\
  Forall (fun d => BoneData.rotation d = Quaternion_identity)
    (SkeletonData.dummies sk).
Proof.
  intros Hf Hd. unfold SkeletonData.load_dummy_at.
  cbn [SkeletonData.dummies SkeletonData.set_dummies SkeletonData.format_code].
  assert (Hd' : Forall (fun d => BoneData.rotation d = Quaternion_identity)
                  (SkeletonData.dummies self ++ [BoneData.init])).
  { apply Forall_app. split; [done|]. now repeat constructor. }
  destruct (_ !! i) as [d|] eqn:Ei; [|discriminate].
  rewrite Hf, bool_decide_eq_true_2 by done.
  intros E. bind_inv E. apply ret_inv in E as [-> _]. cbn. split; [done|].
  apply Forall_insert; [done|].
  apply load_data_v2_rotation in E0. rewrite E0.
  eapply Forall_lookup_1 in Hd'; eauto.
Qed.

Lemma load_file_v2_dummies self s sk r :
  SkeletonData.dummies self = [] ->
  SkeletonData.load_file self s = Ret sk r ->
  SkeletonData.format_code sk = 2 ->
  Forall (fun d => BoneData.rotation d = Quaternion_identity)
    (SkeletonData.dummies sk).
Proof.
  intros Hd E. unfold SkeletonData.load_file in E.
  bind_inv E. bind_inv E.
  apply load_format_code_inv in E0 as (_ & _ & Hd1).
  apply load_bones_inv in E1 as (Hf2 & Hd2).
  unfold SkeletonData._load_dummies in E. bind_inv E.
  destruct a1 as [dummy_count|].
  - intros Hv.
    assert (SkeletonData.format_code sk = SkeletonData.format_code a0) as Hf.
    { refine (for_each_invariant
                (fun st =>
                   SkeletonData.format_code st = SkeletonData.format_code a0)
                _ _ _ _ _ _ _ _ E); [|done].
      intros i st s' st' s'' Hst Est.
      rewrite <- Hst. unfold SkeletonData.load_dummy_at in Est.
      cbn [SkeletonData.dummies SkeletonData.set_dummies] in Est.
      destruct (_ !! i); [|discriminate].
      bind_inv Est. apply ret_inv in Est as [-> _]. reflexivity. }
    refine (proj2 (for_each_invariant
                     (fun st =>
                        SkeletonData.format_code st = 2 /\
                        Forall (fun d =>
                                  BoneData.rotation d = Quaternion_identity)
                          (SkeletonData.dummies st))
                     _ _ _ _ _ _ _ _ E)).
    + intros i st s' st' s'' [Hst1 Hst2]. now apply load_dummy_at_v2.
    + split; [congruence|]. rewrite Hd2, Hd1, Hd. constructor.
  - apply ret_inv in E as [-> _]. intros _.
    rewrite Hd2, Hd1, Hd. constructor.
Qed.

(** After the bones, a file with fewer than four bytes left makes the
    read of the dummy count fail; the bare [except] swallows the failure
    whatever it is, and [_load_dummies] returns with the dummies it had. *)
Lemma load_dummies_short self s :
  (length s < 4)%nat -> SkeletonData._load_dummies self s = Ret self [].
Proof.
  intros Hs. unfold SkeletonData._load_dummies.
  rewrite (bind_Ret (try_except _ _) _ s None []); [reflexivity|].
  unfold try_except.
  now rewrite (bind_Raise _ _ _ _ _ (read_i32_short s Hs)).
Qed.

End SkeletonSteps.

(** ** Skeletons: the claims *)

Section SkeletonClaims.
Import Layout Examples.

(** C1 (as amended). For every well-formed skeleton file of version 2 or
    3, decoding succeeds and reads the file to its end, and encoding the
    decoded skeleton writes the same file except that every position
    component of every bone and dummy is the original divided by 100:
    [save_data] writes the stored position as it is, and nothing
    multiplies it back by 100. All other bytes are reproduced. *)
Theorem skeleton_decode_encode `{Runtime} version bones dummies :
  wf_skeleton version bones dummies = true ->
  exists sk,
    SkeletonData.load_data SkeletonData.init
      (skeleton_bytes version bones dummies) = Ret sk [] /\
    SkeletonData.save_data sk []
    = Ret tt (skeleton_bytes version (map scaled bones) (map scaled dummies)).
Proof.
  intros W. exists (decoded_skeleton version bones dummies). split.
  - unfold SkeletonData.load_data.
    rewrite (bind_Ret _ _ _ _ _ (load_file_skeleton_bytes _ _ _ W)).
    now rewrite (bind_Ret _ _ _ _ _ (print_data_decoded_skeleton _ _ _ [] W)).
  - unfold SkeletonData.save_data.
    rewrite (bind_Ret _ _ _ _ _ (save_file_decoded_skeleton _ _ _ W)).
    now apply print_data_decoded_skeleton.
Qed.

Lemma skeleton_decode_encode_witness :
  @wf_skeleton ascii_runtime 2 [root_record] [dummy_record] = true /\
  exists sk,
    @SkeletonData.load_data ascii_runtime SkeletonData.init
      (skeleton_bytes 2 [root_record] [dummy_record]) = Ret sk [] /\
    @SkeletonData.save_data ascii_runtime sk []
    = Ret tt (skeleton_bytes 2 (map (@scaled ascii_runtime) [root_record])
                (map (@scaled ascii_runtime) [dummy_record])).
Proof.
  split; [vm_compute; reflexivity|].
  apply (@skeleton_decode_encode ascii_runtime 2 [root_record] [dummy_record]).
  vm_compute; reflexivity.
Defined.

(** C1 (as stated) fails on the file of one bone placed 100 cm along x:
    the file is well-formed and decodes, but encoding the result gives
    other bytes, with 1.0 where the file had 100.0. *)
Lemma skeleton_roundtrip_counterexample :
  @wf_skeleton ascii_runtime 2 [root_record] [] = true /\
  exists sk out,
    @SkeletonData.load_data ascii_runtime SkeletonData.init zmd2_one_bone
    = Ret sk [] /\
    @SkeletonData.save_data ascii_runtime sk [] = Ret tt out /\
    out <> zmd2_one_bone /\
    take 4 (drop 20 zmd2_one_bone) = pack_f IEEE.f32_100 /\
    take 4 (drop 20 out) = pack_f f32_one /\
    IEEE.f32_mul f32_one IEEE.f32_100 = IEEE.f32_100.
Proof.
  split; [vm_compute; reflexivity|].
  eexists _, _. split; [vm_compute; reflexivity|].
  split; [vm_compute; reflexivity|].
  split; [vm_compute; discriminate|].
  repeat split; vm_compute; reflexivity.
Qed.

(** C2 (as amended). In a version-2 skeleton no rotation is read or
    written for any dummy: a dummy record has no rotation bytes, every
    decoded dummy has the identity rotation, and the encoder writes none.
    A bone record carries its rotation (16 bytes, read and written) in
    version 2 as in version 3, and a version-3 dummy carries one too. *)
Theorem skeleton_rotation_gating `{Runtime} version bones dummies :
  wf_skeleton version bones dummies = true ->
  let sk := decoded_skeleton version bones dummies in
  SkeletonData.load_file SkeletonData.init
    (skeleton_bytes version bones dummies) = Ret sk [] /\
  SkeletonData.save_file sk []
  = Ret tt (skeleton_bytes version (map scaled bones) (map scaled dummies)) /\
  map BoneData.rotation (SkeletonData.bones sk) = map r_rotation bones /\
  Forall (fun r => length (bone_bytes r) = (length (r_name r) + 33)%nat) bones /\
  (version = 2 ->
   Forall (fun d => BoneData.rotation d = Quaternion_identity)
     (SkeletonData.dummies sk) /\
   Forall (fun r => length (dummy_bytes version r)
                    = (length (r_name r) + 17)%nat) dummies) /\
  (version = 3 ->
   map BoneData.rotation (SkeletonData.dummies sk) = map r_rotation dummies /\
   Forall (fun r => length (dummy_bytes version r)
                    = (length (r_name r) + 33)%nat) dummies) /\
  (forall s sk' rest,
     SkeletonData.load_file SkeletonData.init s = Ret sk' rest ->
     SkeletonData.format_code sk' = 2 ->
     Forall (fun d => BoneData.rotation d = Quaternion_identity)
       (SkeletonData.dummies sk')).
Proof.
  intros W sk.
  assert (Hlen3 : forall v, length (vector3_bytes v) = 12%nat).
  { intros [[x y] z]. unfold vector3_bytes, pack_f.
    now rewrite !length_app, !length_le_bytes. }
  assert (Hlen4 : forall q, length (quaternion_bytes q) = 16%nat).
  { intros q. unfold quaternion_bytes, pack_f.
    now rewrite !length_app, !length_le_bytes. }
  split; [now apply load_file_skeleton_bytes|].
  split; [now apply save_file_decoded_skeleton|].
  split.
  { subst sk. cbn. rewrite map_map. reflexivity. }
  split.
  { apply Forall_forall. intros r _. unfold bone_bytes, i32_bytes.
    rewrite !length_app, Hlen3, Hlen4, length_le_bytes. cbn. lia. }
  split; [|split].
  - intros ->. split.
    + subst sk. cbn. apply Forall_map, Forall_forall. now intros r _.
    + apply Forall_forall. intros r _. unfold dummy_bytes, i32_bytes.
      rewrite decide_True by done.
      rewrite !length_app, Hlen3, length_le_bytes. cbn. lia.
  - intros ->. split.
    + subst sk. cbn. rewrite map_map. reflexivity.
    + apply Forall_forall. intros r _. unfold dummy_bytes, i32_bytes.
      rewrite decide_False by done.
      rewrite !length_app, Hlen3, Hlen4, length_le_bytes. cbn. lia.
  - intros s sk' rest. now apply load_file_v2_dummies.
Qed.

Lemma skeleton_rotation_gating_witness :
  @wf_skeleton ascii_runtime 2 [root_record] [dummy_record] = true /\
  map BoneData.rotation
    (SkeletonData.bones
       (@decoded_skeleton ascii_runtime 2 [root_record] [dummy_record]))
  = [mkQuaternion 0 f32_one 0 0] /\
  Forall (fun d => BoneData.rotation d = Quaternion_identity)
    (SkeletonData.dummies
       (@decoded_skeleton ascii_runtime 2 [root_record] [dummy_record])).
Proof.
  assert (W : @wf_skeleton ascii_runtime 2 [root_record] [dummy_record] = true)
    by (vm_compute; reflexivity).
  split; [exact W|].
  destruct (@skeleton_rotation_gating ascii_runtime 2
              [root_record] [dummy_record] W)
    as (_ & _ & Hb & _ & Hd & _).
  split; [exact Hb|]. now apply Hd.
Defined.

(** C2 (as stated) fails on the version-2 file of one bone: the decoder
    consumes the sixteen bytes after the bone's position as its rotation,
    which is not the identity, and the encoder writes them back. *)
Lemma skeleton_v2_bone_rotation_counterexample :
  exists sk out,
    @SkeletonData.load_data ascii_runtime SkeletonData.init zmd2_one_bone
    = Ret sk [] /\
    SkeletonData.format_code sk = 2 /\
    map BoneData.rotation (SkeletonData.bones sk)
    = [mkQuaternion 0 f32_one 0 0] /\
    mkQuaternion 0 f32_one 0 0 <> Quaternion_identity /\
    @SkeletonData.save_data ascii_runtime sk [] = Ret tt out /\
    take 16 (drop 32 out) = quaternion_bytes (mkQuaternion 0 f32_one 0 0) /\
    length out = 52%nat.
Proof.
  eexists _, _. split; [vm_compute; reflexivity|].
  split; [reflexivity|]. split; [reflexivity|].
  split; [discriminate|].
  split; [vm_compute; reflexivity|].
  split; vm_compute; reflexivity.
Qed.

(** C4 (as amended). After the last bone record, whenever fewer than four
    bytes remain (none at all, or 1 to 3) the read of the dummy count
    fails, the failure is swallowed, and the decode of the file succeeds
    with the dummy list left as it was: empty for a new skeleton. The
    load as a whole then succeeds unless the listing printed at its end
    meets a parent index outside the bone list. *)
Theorem skeleton_short_dummy_count `{Runtime} s sk1 s1 sk2 s2 :
  SkeletonData._load_format_code SkeletonData.init s = Ret sk1 s1 ->
  SkeletonData._load_bones sk1 s1 = Ret sk2 s2 ->
  (length s2 < 4)%nat ->
  SkeletonData.load_file SkeletonData.init s = Ret sk2 [] /\
  SkeletonData.dummies sk2 = [] /\
  (SkeletonData._print_data sk2 [] = Ret tt [] ->
   SkeletonData.load_data SkeletonData.init s = Ret sk2 []).
Proof.
  intros E1 E2 Hs.
  assert (Ef : SkeletonData.load_file SkeletonData.init s = Ret sk2 []).
  { unfold SkeletonData.load_file.
    rewrite (bind_Ret _ _ _ _ _ E1), (bind_Ret _ _ _ _ _ E2).
    now apply load_dummies_short. }
  split; [exact Ef|]. split.
  - apply load_format_code_inv in E1 as (_ & _ & Hd1).
    apply load_bones_inv in E2 as (_ & Hd2). now rewrite Hd2, Hd1.
  - intros Ep. unfold SkeletonData.load_data.
    now rewrite (bind_Ret _ _ _ _ _ Ef), (bind_Ret _ _ _ _ _ Ep).
Qed.

Lemma skeleton_short_dummy_count_witness :
  exists sk,
    @SkeletonData.load_file ascii_runtime SkeletonData.init
      zmd2_cut_in_dummy_count = Ret sk [] /\
    SkeletonData.dummies sk = [].
Proof.
  eexists.
  refine (let P := @skeleton_short_dummy_count ascii_runtime
                     zmd2_cut_in_dummy_count _ _ _ [x00] _ _ _ in
          conj (proj1 P) (proj1 (proj2 P))).
  - vm_compute. reflexivity.
  - vm_compute. reflexivity.
  - vm_compute. lia.
Defined.

(** C4 (as stated) fails on the file cut after the first byte of the
    dummy count: one byte remains after the bone, and the load succeeds
    with no dummy. *)
Lemma skeleton_partial_dummy_count_counterexample :
  exists sk rest,
    @SkeletonData._load_bones ascii_runtime
      (SkeletonData.set_format_code 2 SkeletonData.init)
      (drop 7 zmd2_cut_in_dummy_count) = Ret sk rest /\
    length rest = 1%nat /\
    @SkeletonData.load_data ascii_runtime SkeletonData.init
      zmd2_cut_in_dummy_count = Ret sk [] /\
    SkeletonData.dummies sk = [].
Proof.
  eexists _, _. split; [vm_compute; reflexivity|].
  split; [reflexivity|]. split; [vm_compute; reflexivity|]. reflexivity.
Qed.

End SkeletonClaims.

(** ** Animations *)

(** A property indexed by the number of iterations made. *)
Lemma for_each_counted {X St} (P : nat -> St -> Prop) (l : list X)
    (body : X -> St -> io St) :
  (forall k x st s st' s', P k st -> body x st s = Ret st' s' -> P (S k) st') ->
  forall k st s st' s',
    P k st -> for_each l body st s = Ret st' s' -> P (k + length l)%nat st'.
Proof.
  intros Hbody. induction l as [|x l IH]; intros k st s st' s' HP E.
  - apply ret_inv in E as [-> _]. cbn. now rewrite Nat.add_0_r.
  - cbn [for_each] in E. bind_inv E. cbn [length].
    replace (k + S (length l))%nat with (S k + length l)%nat by lia.
    eauto.
Qed.

(** An optional step [if cond: ...] keeps what its body keeps. *)
Lemma optional_step {St} (P : St -> Prop) (cond : bool) (m : io St) c s c' r :
  (forall s c' r, m s = Ret c' r -> P c') ->
  P c ->
  (if cond then m else ret c) s = Ret c' r -> P c'.
Proof.
  intros Hm Hc. destruct cond; [apply Hm|].
  intros E. apply ret_inv in E as [-> _]. exact Hc.
Qed.

(** Takes apart a hypothesis that a chain of reads ending in [ret]
    returned. *)
Ltac io_inv E :=
  repeat match type of E with
    | bind _ _ _ = Ret _ _ =>
        let a := fresh "a" in
        let s := fresh "s" in
        let E' := fresh "E" in
        apply bind_inv_Ret in E; destruct E as (a & s & E' & E); clear E'
    | ret _ _ = Ret _ _ =>
        apply ret_inv in E; destruct E as [? ?]; simplify_eq
    | match ?o with Some _ => _ | None => _ end _ = Ret _ _ => destruct o
    | raise _ _ = Ret _ _ => discriminate E
    end.

Section Animation.
Context `{Runtime}.

(** The steps that follow the position or rotation leave the type, the
    positions and the rotations of the channel as they are. *)
Lemma load_channel_frame_track c alpha s c' alpha' r :
  AnimationData.load_channel_frame c alpha s = Ret (c', alpha') r ->
  exists c1 s1,
    AnimationData.load_position_or_rotation c s = Ret c1 s1 /\
    same_track c1 c'.
Proof.
  unfold AnimationData.load_channel_frame. intros E.
  bind_inv E. rename a into c1. exists c1, s0. split; [exact E0|].
  clear E0.
  bind_inv E. rename a into c2.
  assert (H2 : same_track c1 c2).
  { revert E0. apply optional_step; [|done].
    intros ? ? ? E1. io_inv E1. done. }
  clear E0.
  bind_inv E. destruct a as [c3 alpha3].
  assert (H3 : same_track c1 c3).
  { clear E. destruct H2 as (? & ? & ?).
    destruct (ChannelData.alpha_enabled c2); io_inv E0;
      (split; [|split]); cbn; congruence. }
  clear E0 H2.
  repeat match type of E with
    | bind (if _ then _ else ret _) _ _ = Ret _ _ =>
        let a := fresh "c" in
        let s := fresh "s" in
        let E' := fresh "E" in
        apply bind_inv_Ret in E; destruct E as (a & s & E' & E);
        assert (same_track c1 a)
          by (revert E'; apply optional_step; [|assumption];
              let E1 := fresh "E" in
              intros ? ? ? E1; io_inv E1;
              match goal with
              | Hs : same_track _ _ |- _ => destruct Hs as (? & ? & ?)
              end; split; [|split]; cbn; congruence);
        clear E';
        match goal with
        | Hs : same_track c1 ?x, Hs' : same_track c1 a |- _ =>
            tryif constr_eq x a then fail else clear Hs
        end
    end.
  apply ret_inv in E as [E _]. inversion E; subst. clear E.
  assumption.
Qed.


Lemma load_channel_frame_rel c alpha s c' alpha' r :
  AnimationData.load_channel_frame c alpha s = Ret (c', alpha') r ->
  frame_rel c c'.
Proof.
  intros E. apply load_channel_frame_track in E as (c1 & s1 & E & Ht & Hp & Hr).
  unfold AnimationData.load_position_or_rotation in E.
  unfold frame_rel. destruct (ChannelData.positions_enabled c).
  - io_inv E. cbn in Ht, Hp, Hr. split; [exact Ht|]. intros _.
    rewrite Hp, Hr, length_app. cbn. split; [lia|done].
  - split; [|intros; discriminate].
    destruct (ChannelData.rotations_enabled c); io_inv E; exact Ht.
Qed.

Lemma load_frame_rel todo :
  forall done_ alpha s chs' alpha' r,
    for_each (seq (length done_) (length todo)) AnimationData.load_channel_at
      (done_ ++ todo, alpha) s = Ret (chs', alpha') r ->
    exists todo', chs' = done_ ++ todo' /\ Forall2 frame_rel todo todo'.
Proof.
  induction todo as [|c todo IH]; intros done_ alpha s chs' alpha' r E.
  - apply ret_inv in E as [E _]. inversion E; subst.
    exists []. split; [done|constructor].
  - cbn [length seq for_each] in E. bind_inv E.
    unfold AnimationData.load_channel_at in E0.
    rewrite list_lookup_middle in E0 by done.
    bind_inv E0. apply ret_inv in E0 as [-> ->].
    destruct a0 as [c1 alpha1]. cbn [fst snd] in E.
    apply load_channel_frame_rel in E1.
    rewrite (insert_app_r_alt done_ (c :: todo)) in E by lia.
    rewrite Nat.sub_diag in E. cbn [insert list_insert] in E.
    replace (done_ ++ c1 :: todo) with ((done_ ++ [c1]) ++ todo) in E
      by now rewrite <- app_assoc.
    replace (S (length done_)) with (length (done_ ++ [c1])) in E
      by (rewrite length_app; cbn; lia).
    apply IH in E as (todo' & -> & HF).
    exists (c1 :: todo'). split; [now rewrite <- app_assoc|].
    now constructor.
Qed.

Lemma frames_rel_step k c c1 c2 :
  frames_rel k c c1 -> frame_rel c1 c2 -> frames_rel (S k) c c2.
Proof.
  intros [Ht1 Hp1] [Ht2 Hp2]. split; [congruence|].
  intros Hen. destruct (Hp1 Hen) as [Hl1 Hr1].
  assert (ChannelData.positions_enabled c1 = true) as Hen1.
  { unfold ChannelData.positions_enabled, ChannelData.enabled in *.
    now rewrite Ht1. }
  destruct (Hp2 Hen1) as [Hl2 Hr2]. split; [lia|congruence].
Qed.

Lemma load_channel_data_rel self s anim r :
  AnimationData._load_channel_data self s = Ret anim r ->
  AnimationData.frame_count anim = AnimationData.frame_count self /\
  Forall2 (frames_rel (Z.to_nat (AnimationData.frame_count self)))
    (AnimationData.channels self) (AnimationData.channels anim).
Proof.
  unfold AnimationData._load_channel_data. intros E. bind_inv E.
  apply ret_inv in E as [-> _]. cbn. split; [done|].
  destruct a as [chs' alpha']. cbn.
  assert (Hbody : forall k (i : nat) st s st' s',
            Forall2 (frames_rel k) (AnimationData.channels self) (fst st) ->
            AnimationData.load_frame i st s = Ret st' s' ->
            Forall2 (frames_rel (S k)) (AnimationData.channels self) (fst st')).
  { intros k i [chs alpha] s1 [chs1 alpha1] s2 HF E1. cbn [fst] in *.
    unfold AnimationData.load_frame in E1. cbn [fst] in E1.
    apply (load_frame_rel chs []) in E1 as (todo' & -> & HF').
    cbn [app]. clear -HF HF'.
    revert todo' HF'. induction HF as [|c0 c1 l0 l1 Hc01 _ IH];
      intros todo' HF'; inversion HF'; subst; constructor.
    - eapply frames_rel_step; eauto.
    - now apply IH. }
  assert (Hinit : Forall2 (frames_rel 0) (AnimationData.channels self)
                    (fst (AnimationData.channels self, @None f32))).
  { cbn. clear. induction (AnimationData.channels self); constructor; [|done].
    split; [done|]. intros _. split; done. }
  pose proof (for_each_counted
                (fun k st =>
                   Forall2 (frames_rel k) (AnimationData.channels self)
                     (fst st))
                _ _ Hbody _ _ _ _ _ Hinit E0) as Hc.
  unfold range in Hc. rewrite length_seq in Hc. exact Hc.
Qed.

Lemma setup_channels_empty self s anim r :
  Forall (fun c => ChannelData.position c = [] /\ ChannelData.rotation c = [])
    (AnimationData.channels self) ->
  AnimationData._setup_channels self s = Ret anim r ->
  AnimationData.frame_count anim = AnimationData.frame_count self /\
  Forall (fun c => ChannelData.position c = [] /\ ChannelData.rotation c = [])
    (AnimationData.channels anim).
Proof.
  intros Hc. unfold AnimationData._setup_channels. intros E. bind_inv E.
  refine (for_each_invariant
            (fun st =>
               AnimationData.frame_count st = AnimationData.frame_count self /\
               Forall (fun c => ChannelData.position c = [] /\
                                ChannelData.rotation c = [])
                 (AnimationData.channels st))
            _ _ _ _ _ _ _ _ E); [|done].
  intros i st s1 st' s1' [Hf Hch] Ei. io_inv Ei. cbn. split; [done|].
  apply Forall_app. split; [done|]. now repeat constructor.
Qed.

End Animation.

(** C6. In an animation decoded with [frame_count] = 3, every channel
    whose track type has both the POSITION and the ROTATION bit holds 3
    positions and no rotation: the position branch runs in each frame and
    the rotation branch, its [elif], never does. *)
Theorem both_bits_position_only `{Runtime} s anim r :
  AnimationData.load_data AnimationData.init s = Ret anim r ->
  AnimationData.frame_count anim = 3 ->
  forall c,
    c ∈ AnimationData.channels anim ->
    ChannelData.positions_enabled c = true ->
    ChannelData.rotations_enabled c = true ->
    length (ChannelData.position c) = 3%nat /\ ChannelData.rotation c = [].
Proof.
  unfold AnimationData.load_data. intros E Hfc c Hc Hpos _.
  bind_inv E. bind_inv E.
  assert (Forall (fun c => ChannelData.position c = [] /\
                           ChannelData.rotation c = [])
            (AnimationData.channels a)) as Ha.
  { unfold AnimationData._load_settings in E0. io_inv E0. cbn. constructor. }
  destruct (setup_channels_empty _ _ _ _ Ha E1) as [Hf0 Hempty].
  apply load_channel_data_rel in E as [Hf1 HF].
  rewrite Hfc in Hf1. rewrite <- Hf1 in HF. change (Z.to_nat 3) with 3%nat in HF.
  apply list_elem_of_lookup in Hc as [i Hi].
  destruct (Forall2_lookup_r _ _ _ _ _ HF Hi) as (c0 & Hi0 & [Ht Hp]).
  eapply Forall_lookup_1 in Hempty as [Hp0 Hr0]; [|exact Hi0].
  assert (ChannelData.positions_enabled c0 = true) as Hen0.
  { unfold ChannelData.positions_enabled, ChannelData.enabled in *.
    now rewrite <- Ht. }
  destruct (Hp Hen0) as [Hl Hr]. rewrite Hp0 in Hl. rewrite Hr0 in Hr.
  split; [exact Hl|exact Hr].
Qed.

Lemma both_bits_position_only_witness :
  exists anim c,
    @AnimationData.load_data ascii_runtime AnimationData.init
      (Examples.zmo_one_channel 3 6
         [Examples.one; Examples.two; Examples.half;
          Examples.one; Examples.two; Examples.half;
          Examples.one; Examples.two; Examples.half]) = Ret anim [] /\
    AnimationData.channels anim = [c] /\
    length (ChannelData.position c) = 3%nat /\ ChannelData.rotation c = [].
Proof.
  eexists _, _.
  split; [vm_compute; reflexivity|]. split; [reflexivity|].
  eapply (@both_bits_position_only ascii_runtime
            (Examples.zmo_one_channel 3 6
               [Examples.one; Examples.two; Examples.half;
                Examples.one; Examples.two; Examples.half;
                Examples.one; Examples.two; Examples.half]) _ []).
  - vm_compute. reflexivity.
  - reflexivity.
  - constructor.
  - reflexivity.
  - reflexivity.
Defined.

(** C7 (the code departs from the claim). With the TEXTUREANIM bit, and
    likewise with the SCALE bit, the float is read but what is appended is
    the local variable [alpha]: the last alpha read, whichever channel or
    frame read it. On one frame of one channel of type ALPHA + TEXTUREANIM
    with the payload 0.5, 2.0 the texture-animation sequence receives 0.5,
    not the 2.0 read for it; the same for ALPHA + SCALE. Without any alpha
    read before, the load raises UnboundLocalError after reading the
    float. *)
Theorem texture_animation_appends_alpha :
  (exists anim,
     @AnimationData.load_data ascii_runtime AnimationData.init
       (Examples.zmo_one_channel 1 (TrackType.ALPHA + TrackType.TEXTUREANIM)
          [Examples.half; Examples.two]) = Ret anim [] /\
     map ChannelData.texture_animation (AnimationData.channels anim)
     = [[Examples.half]]) /\
  (exists anim,
     @AnimationData.load_data ascii_runtime AnimationData.init
       (Examples.zmo_one_channel 1 (TrackType.ALPHA + TrackType.SCALE)
          [Examples.half; Examples.two]) = Ret anim [] /\
     map ChannelData.scale (AnimationData.channels anim)
     = [[Examples.half]]) /\
  @AnimationData.load_data ascii_runtime AnimationData.init
    (Examples.zmo_one_channel 1 TrackType.TEXTUREANIM [Examples.two])
  = Raise UnboundLocalError [] /\
  @AnimationData.load_data ascii_runtime AnimationData.init
    (Examples.zmo_one_channel 1 TrackType.SCALE [Examples.two])
  = Raise UnboundLocalError [] /\
  Examples.half <> Examples.two.
Proof.
  split; [eexists; split; [vm_compute; reflexivity|reflexivity]|].
  split; [eexists; split; [vm_compute; reflexivity|reflexivity]|].
  split; [vm_compute; reflexivity|].
  split; [vm_compute; reflexivity|].
  discriminate.
Qed.

(** ** Readers that stop at the end of the file *)

Lemma strict_ret {A} (a : A) : strict (ret a).
Proof.
  intros s v r E. apply ret_inv in E as [-> ->]. exists [].
  split; [done|]. split; [done|]. intros k Hk. cbn in Hk. lia.
Qed.

Lemma strict_raise {A} (e : exn) : strict (@raise A e).
Proof. intros s v r E. discriminate. Qed.

Lemma strict_bind {A B} (m : io A) (k : A -> io B) :
  strict m -> (forall a, strict (k a)) -> strict (bind m k).
Proof.
  intros Hm Hk s v r E. bind_inv E.
  destruct (Hm _ _ _ E0) as (p1 & -> & Hst1 & Htr1).
  destruct (Hk _ _ _ _ E) as (p2 & -> & Hst2 & Htr2).
  exists (p1 ++ p2). split; [now rewrite app_assoc|]. split.
  - intros r'. rewrite <- app_assoc.
    now rewrite (bind_Ret _ _ _ _ _ (Hst1 _)).
  - intros n Hn. rewrite length_app in Hn.
    destruct (decide (n < length p1)%nat) as [Hlt|Hge].
    + rewrite take_app_le by lia.
      now rewrite (bind_Raise _ _ _ _ _ (Htr1 _ Hlt)).
    + rewrite take_app_ge by lia.
      rewrite (bind_Ret _ _ _ _ _ (Hst1 _)). apply Htr2. lia.
Qed.

Lemma strict_for_each {X St} (l : list X) (body : X -> St -> io St) :
  (forall x st, strict (body x st)) -> forall st, strict (for_each l body st).
Proof.
  intros Hbody. induction l as [|x l IH]; intros st; cbn [for_each].
  - apply strict_ret.
  - apply strict_bind; [apply Hbody|exact IH].
Qed.

Lemma strict_fixed_read {A} (n : nat) (conv : list byte -> A) (m : io A) :
  (forall s, (length s < n)%nat -> m s = Raise struct_error []) ->
  (forall s, (n <= length s)%nat -> m s = Ret (conv (take n s)) (drop n s)) ->
  strict m.
Proof.
  intros Hshort Hlong s v r E.
  destruct (decide (length s < n)%nat) as [Hlt|Hge].
  - rewrite Hshort in E by done. discriminate.
  - rewrite Hlong in E by lia. inversion E; subst.
    exists (take n s). split; [now rewrite take_drop|]. split.
    + intros r'. rewrite Hlong by (rewrite length_app, length_take; lia).
      rewrite take_app_le by (rewrite length_take; lia).
      rewrite drop_app_ge by (rewrite length_take; lia).
      rewrite take_take, length_take.
      replace (n `min` n)%nat with n by lia.
      replace (n - n `min` length s)%nat with 0%nat by lia.
      reflexivity.
    + intros k Hk. rewrite length_take in Hk. apply Hshort.
      rewrite length_take, length_take. lia.
Qed.

Lemma strict_read_i16 : strict read_i16.
Proof.
  apply (strict_fixed_read 2 (fun bs => to_signed 16 (le_unsigned bs)));
    [apply read_i16_short|apply read_i16_long].
Qed.

Lemma strict_read_i32 : strict read_i32.
Proof.
  apply (strict_fixed_read 4 (fun bs => to_signed 32 (le_unsigned bs)));
    [apply read_i32_short|apply read_i32_long].
Qed.

Lemma strict_read_f32 : strict read_f32.
Proof.
  apply (strict_fixed_read 4 le_unsigned);
    [apply read_f32_short|apply read_f32_long].
Qed.

Create HintDb strict.
#[export] Hint Resolve strict_ret strict_raise strict_read_i16 strict_read_i32
  strict_read_f32 : strict.

(** Proves [strict] for a computation made of binds, loops, conditionals
    and fixed-size reads. *)
Ltac strict_tac :=
  repeat first
    [ progress intros
    | solve [auto with strict]
    | apply strict_for_each
    | apply strict_bind
    | match goal with
      | |- strict (if ?c then _ else _) => destruct c
      | |- strict (match ?o with Some _ => _ | None => _ end) => destruct o
      | |- strict (let '(_, _) := ?p in _) => destruct p
      end ].

Lemma strict_read_vector3_f32 : strict read_vector3_f32.
Proof. unfold read_vector3_f32. strict_tac. Qed.

Lemma strict_read_vector2_f32 : strict read_vector2_f32.
Proof. unfold read_vector2_f32. strict_tac. Qed.

Lemma strict_read_vector4_f32 : strict read_vector4_f32.
Proof. unfold read_vector4_f32. strict_tac. Qed.

Lemma strict_read_vector4_i16 : strict read_vector4_i16.
Proof. unfold read_vector4_i16. strict_tac. Qed.

Lemma strict_read_vector3_i16 : strict read_vector3_i16.
Proof. unfold read_vector3_i16. strict_tac. Qed.

Lemma strict_read_color : strict read_color.
Proof. unfold read_color. strict_tac. Qed.

#[export] Hint Resolve strict_read_vector3_f32 strict_read_vector2_f32
  strict_read_vector4_f32 strict_read_vector4_i16 strict_read_vector3_i16
  strict_read_color : strict.

(** ** Meshes *)

Section Mesh.
Import MeshImportData.

Lemma strict_vertex_assign i upd self : strict (vertex_assign i upd self).
Proof. unfold vertex_assign. strict_tac. Qed.

Lemma strict_vertex_pass {X} n (rd : io X) upd self :
  strict rd -> strict (vertex_pass n rd upd self).
Proof.
  intros Hrd. unfold vertex_pass. apply strict_for_each. intros i st.
  apply strict_bind; [exact Hrd|]. intros x. apply strict_vertex_assign.
Qed.

Lemma strict_when cond pass_ self :
  strict (pass_ self) -> strict (when cond pass_ self).
Proof. unfold when. destruct cond; [done|]. intros _. apply strict_ret. Qed.

Lemma strict_load_header self : strict (load_header self).
Proof. unfold load_header. strict_tac. Qed.

Lemma strict_load_vertex_passes n self : strict (load_vertex_passes n self).
Proof.
  unfold load_vertex_passes, bone_pass.
  repeat first
    [ progress intros
    | solve [auto with strict]
    | apply strict_when
    | apply strict_vertex_pass
    | apply strict_for_each
    | apply strict_vertex_assign
    | apply strict_bind ].
Qed.

Lemma strict_load_topology self : strict (load_topology self).
Proof. unfold load_topology. strict_tac. Qed.

(** Every file that stops inside the sections of a mesh makes their
    decoding raise struct.error. *)
Lemma strict_load_sections self : strict (load_sections self).
Proof.
  unfold load_sections. apply strict_bind; [apply strict_load_header|].
  intros r. apply strict_bind; [apply strict_load_vertex_passes|].
  intros m. apply strict_load_topology.
Qed.

End Mesh.

Section MeshSteps.
Import MeshImportData.

Lemma pass_keeps_refl self : pass_keeps self self.
Proof. done. Qed.

Lemma pass_keeps_trans a b c :
  pass_keeps a b -> pass_keeps b c -> pass_keeps a c.
Proof. intros (? & ? & ?) (? & ? & ?). repeat split; congruence. Qed.

Lemma vertex_assign_keeps i upd self s m r :
  vertex_assign i upd self s = Ret m r -> pass_keeps self m.
Proof.
  unfold vertex_assign. destruct (vertices self !! i); [|discriminate].
  intros E. apply ret_inv in E as [-> _]. repeat split; cbn.
  now rewrite length_insert.
Qed.

Lemma vertex_pass_keeps {X} n (rd : io X) upd self s m r :
  vertex_pass n rd upd self s = Ret m r -> pass_keeps self m.
Proof.
  unfold vertex_pass. intros E.
  refine (for_each_invariant (pass_keeps self) _ _ _ _ _ _ _ _ E);
    [|apply pass_keeps_refl].
  intros i st s1 st' s1' Hst Ei. bind_inv Ei.
  apply vertex_assign_keeps in Ei. eapply pass_keeps_trans; eauto.
Qed.

Lemma bone_pass_keeps n self s m r :
  bone_pass n self s = Ret m r -> pass_keeps self m.
Proof.
  unfold bone_pass. intros E.
  refine (for_each_invariant (pass_keeps self) _ _ _ _ _ _ _ _ E);
    [|apply pass_keeps_refl].
  intros i st s1 st' s1' Hst Ei. bind_inv Ei. bind_inv Ei. bind_inv Ei.
  apply vertex_assign_keeps in Ei. apply vertex_assign_keeps in E1.
  eauto using pass_keeps_trans.
Qed.

Lemma when_keeps cond pass_ self s m r :
  (forall s m r, pass_ self s = Ret m r -> pass_keeps self m) ->
  when cond pass_ self s = Ret m r -> pass_keeps self m.
Proof.
  intros Hp. unfold when. destruct cond; [apply Hp|].
  intros E. apply ret_inv in E as [-> _]. apply pass_keeps_refl.
Qed.

Lemma load_vertex_passes_keeps n self s m r :
  load_vertex_passes n self s = Ret m r -> pass_keeps self m.
Proof.
  unfold load_vertex_passes. intros E.
  repeat (let a := fresh "a" in
          let s := fresh "s" in
          let E' := fresh "E" in
          apply bind_inv_Ret in E; destruct E as (a & s & E' & E);
          apply when_keeps in E';
          [|intros ? ? ?;
            first [apply vertex_pass_keeps|apply bone_pass_keeps]]).
  apply when_keeps in E; [|intros ? ? ?; apply vertex_pass_keeps].
  eauto 12 using pass_keeps_trans.
Qed.

Lemma load_topology_keeps self s m r :
  load_topology self s = Ret m r ->
  tail_keeps self m /\ pool m = pool self.
Proof.
  unfold load_topology. intros E.
  bind_inv E. bind_inv E. bind_inv E. bind_inv E. bind_inv E.
  assert (Hl : forall (l : list nat) body st s st' s',
            (forall x st s st' s',
               body x st s = Ret st' s' ->
               tail_keeps st st' /\ pool st' = pool st) ->
            for_each l body st s = Ret st' s' ->
            tail_keeps st st' /\ pool st' = pool st).
  { intros l body st s5 st' s' Hb El.
    refine (for_each_invariant
              (fun x => tail_keeps st x /\ pool x = pool st)
              _ _ _ _ _ _ _ _ El); [|done].
    intros x st1 s6 st1' s6' [[? ?] ?] Ex.
    apply Hb in Ex as [[? ?] ?]. repeat split; congruence. }
  apply Hl in E1, E3, E.
  - destruct E1 as [[? ?] ?], E3 as [[? ?] ?], E as [[? ?] ?].
    repeat split; congruence.
  - intros x st s5 st' s' Ex. io_inv Ex. done.
  - intros x st s5 st' s' Ex. io_inv Ex. done.
  - intros x st s5 st' s' Ex. io_inv Ex. done.
Qed.

Lemma load_pool_keeps version self s m r :
  load_pool version self s = Ret m r -> tail_keeps self m.
Proof.
  unfold load_pool, try_except. destruct (decide (8 <= version)).
  - destruct (bind read_i16 _ s) as [a s'|e s'|] eqn:E; [| |discriminate].
    + intros E'. inversion E'; subst. io_inv E. done.
    + intros E'. apply ret_inv in E' as [-> _]. done.
  - intros E. apply ret_inv in E as [-> _]. done.
Qed.

(** The header allocates [vert_count] new vertices and leaves the pool. *)
Lemma load_header_facts self s self1 vert_count s1 :
  load_header self s = Ret (self1, vert_count) s1 ->
  pool self1 = pool self /\
  vertices self1
  = vertices self ++ replicate (Z.to_nat vert_count) Vertex.init.
Proof.
  unfold load_header. intros E.
  bind_inv E. bind_inv E. bind_inv E. bind_inv E. bind_inv E. bind_inv E.
  bind_inv E. apply ret_inv in E as [E _]. inversion E; subst. clear E.
  set (self0 := set_bounding_box _ _) in E4.
  assert (pool a3 = pool self /\ vertices a3 = vertices self) as [Hp3 Hv3].
  { refine (for_each_invariant
              (fun st => pool st = pool self /\ vertices st = vertices self)
              _ _ _ _ _ _ _ _ E4); [|done].
    intros x st ? st' ? [? ?] Ex. io_inv Ex. done. }
  assert (Hb : forall k (x : nat) st s st' s',
            pool st = pool self /\
            vertices st = vertices self ++ replicate k Vertex.init ->
            ret (set_vertices (vertices st ++ [Vertex.init]) st) s
            = Ret st' s' ->
            pool st' = pool self /\
            vertices st' = vertices self ++ replicate (S k) Vertex.init).
  { intros k x st ? st' ? [Hp Hv] Ex. io_inv Ex. cbn. split; [done|].
    rewrite Hv, <- app_assoc. f_equal. now rewrite <- replicate_S_end. }
  pose proof (for_each_counted
                (fun k st =>
                   pool st = pool self /\
                   vertices st = vertices self ++ replicate k Vertex.init)
                _ _ Hb 0%nat _ _ _ _
                (conj Hp3 (eq_trans Hv3 (eq_sym (app_nil_r _)))) E6) as Hc.
  cbn beta in Hc. unfold range in Hc. now rewrite length_seq in Hc.
Qed.

End MeshSteps.

Section MeshPasses.
Import MeshImportData.

Lemma read_list_length {X} (rd : io X) n :
  forall s xs r, read_list n rd s = Ret xs r -> length xs = n.
Proof.
  induction n as [|n IH]; intros s xs r E; cbn [read_list] in E.
  - apply ret_inv in E as [-> _]. reflexivity.
  - bind_inv E. bind_inv E. apply ret_inv in E as [-> _].
    cbn. f_equal. eauto.
Qed.

(** A pass over the vertices reads one value per vertex, in order, and
    stores it in the vertex of the same rank, as read. *)
Lemma vertex_pass_loop {X} (rd : io X) (upd : X -> Vertex.t -> Vertex.t) todo :
  forall done_ self s,
    vertices self = done_ ++ todo ->
    for_each (seq (length done_) (length todo))
      (fun i self => x <- rd ;; vertex_assign i (upd x) self) self s
    = (xs <- read_list (length todo) rd ;;
       ret (set_vertices (done_ ++ zip_with upd xs todo) self)) s.
Proof.
  induction todo as [|v todo IH]; intros done_ self s Hv.
  - cbn. rewrite app_nil_r in *. rewrite <- Hv. now destruct self.
  - cbn [length seq for_each read_list]. unfold bind at 1 2 4 5.
    destruct (rd s) as [x s1| |]; try reflexivity.
    unfold vertex_assign. rewrite Hv, list_lookup_middle by done.
    unfold ret at 1.
    rewrite (insert_app_r_alt done_ (v :: todo)) by lia.
    rewrite Nat.sub_diag. cbn [insert list_insert].
    set (self1 := set_vertices _ self).
    assert (Hv1 : vertices self1 = (done_ ++ [upd x v]) ++ todo)
      by (subst self1; cbn; now rewrite <- app_assoc).
    specialize (IH (done_ ++ [upd x v]) self1 s1 Hv1).
    rewrite length_app in IH. cbn [length] in IH.
    rewrite Nat.add_1_r in IH. etrans; [exact IH|].
    unfold bind. destruct (read_list (length todo) rd s1); try reflexivity.
    unfold ret. subst self1. cbn. now rewrite <- app_assoc.
Qed.

Lemma vertex_pass_read_list {X} n (rd : io X) upd self s :
  length (vertices self) = Z.to_nat n ->
  vertex_pass n rd upd self s
  = (xs <- read_list (Z.to_nat n) rd ;;
     ret (set_vertices (zip_with upd xs (vertices self)) self)) s.
Proof.
  intros Hl. unfold vertex_pass, range. rewrite <- Hl.
  apply (vertex_pass_loop rd upd (vertices self) [] self s). reflexivity.
Qed.

Lemma flags_position_uv2 self :
  format self = VertexFormat.POSITION + VertexFormat.UV2 ->
  positions_enabled self = true /\ normals_enabled self = false /\
  colors_enabled self = false /\ bones_enabled self = false /\
  tangents_enabled self = false /\ uv1_enabled self = false /\
  uv2_enabled self = true /\ uv3_enabled self = false /\
  uv4_enabled self = false.
Proof.
  intros E.
  unfold positions_enabled, normals_enabled, colors_enabled, bones_enabled,
    tangents_enabled, uv1_enabled, uv2_enabled, uv3_enabled, uv4_enabled,
    enabled.
  rewrite E. vm_compute. repeat split.
Qed.

(** With the POSITION and UV2 bits alone, the passes are the position
    pass followed by the second-UV pass. *)
Lemma load_vertex_passes_position_uv2 n self s m r :
  format self = VertexFormat.POSITION + VertexFormat.UV2 ->
  length (vertices self) = Z.to_nat n ->
  load_vertex_passes n self s = Ret m r ->
  exists ps s' uvs,
    read_list (Z.to_nat n) read_vector3_f32 s = Ret ps s' /\
    read_list (Z.to_nat n) read_vector2_f32 s' = Ret uvs r /\
    vertices m
    = zip_with (Vertex.set_uv_layer 1) uvs
        (zip_with Vertex.set_position ps (vertices self)).
Proof.
  intros Hf Hl E. unfold load_vertex_passes in E.
  destruct (flags_position_uv2 self Hf) as (Fp & _).
  bind_inv E. rewrite Fp in E0. unfold when in E0.
  rewrite vertex_pass_read_list in E0 by done.
  bind_inv E0. rename a0 into ps. apply ret_inv in E0 as [-> ->].
  set (self1 := set_vertices _ self) in *.
  assert (Hf1 : format self1 = VertexFormat.POSITION + VertexFormat.UV2)
    by exact Hf.
  destruct (flags_position_uv2 self1 Hf1)
    as (_ & Fn & Fc & Fb & Ft & F1 & F2 & F3 & F4).
  bind_inv E. rewrite Fn in E0. apply ret_inv in E0 as [-> ->].
  bind_inv E. rewrite Fc in E0. apply ret_inv in E0 as [-> ->].
  bind_inv E. rewrite Fb in E0. apply ret_inv in E0 as [-> ->].
  bind_inv E. rewrite Ft in E0. apply ret_inv in E0 as [-> ->].
  bind_inv E. rewrite F1 in E0. apply ret_inv in E0 as [-> ->].
  bind_inv E. rewrite F2 in E0. unfold when in E0.
  assert (Hl1 : length (vertices self1) = Z.to_nat n).
  { subst self1. cbn. rewrite length_zip_with.
    apply read_list_length in E1. lia. }
  rewrite vertex_pass_read_list in E0 by done.
  bind_inv E0. rename a0 into uvs. apply ret_inv in E0 as [-> ->].
  set (self2 := set_vertices _ self1) in *.
  assert (Hf2 : format self2 = VertexFormat.POSITION + VertexFormat.UV2)
    by exact Hf.
  destruct (flags_position_uv2 self2 Hf2)
    as (_ & _ & _ & _ & _ & _ & _ & F3' & F4').
  bind_inv E. rewrite F3' in E0. apply ret_inv in E0 as [-> ->].
  rewrite F4' in E. apply ret_inv in E as [-> ->].
  eexists ps, _, uvs. split; [eassumption|]. split; [eassumption|].
  reflexivity.
Qed.

Lemma zip_position_uv2 n :
  forall ps uvs,
    length ps = n -> length uvs = n ->
    zip_with (Vertex.set_uv_layer 1) uvs
      (zip_with Vertex.set_position ps (replicate n Vertex.init))
    = zip_with position_uv2_vertex ps uvs.
Proof.
  induction n as [|n IH]; intros [|p ps] [|uv uvs] Hp Hu;
    try discriminate; [reflexivity|].
  cbn. f_equal. apply IH; cbn in *; lia.
Qed.

Lemma load_identifier_inv `{Runtime} self s self0 version s0 :
  load_identifier self s = Ret (self0, version) s0 ->
  vertices self0 = vertices self /\ pool self0 = pool self /\
  (version = 7 \/ version = 8).
Proof.
  unfold load_identifier. intros E. bind_inv E.
  repeat case_decide; try discriminate;
    apply ret_inv in E as [E _]; inversion E; subst; cbn; auto.
Qed.

End MeshPasses.

(** ** Meshes: the claims *)

Section MeshClaims.
Import MeshImportData.

Lemma load_sections_keeps self s m r :
  load_sections self s = Ret m r ->
  pool m = pool self /\
  exists self1 vert_count s1 m1 s2,
    load_header self s = Ret (self1, vert_count) s1 /\
    load_vertex_passes vert_count self1 s1 = Ret m1 s2 /\
    load_topology m1 s2 = Ret m r /\
    format m = format self1 /\ vertices m = vertices m1.
Proof.
  unfold load_sections. intros E. bind_inv E. bind_inv E.
  destruct a as [self1 vert_count]. cbn [fst snd] in *.
  pose proof (load_header_facts _ _ _ _ _ E0) as [Hp1 _].
  pose proof (load_vertex_passes_keeps _ _ _ _ _ E1) as (Hf2 & Hp2 & _).
  pose proof (load_topology_keeps _ _ _ _ E) as [[Hf3 Hv3] Hp3].
  split; [congruence|].
  exists self1, vert_count, s0, a0, s1. repeat split; try done. congruence.
Qed.

(** C9. In a mesh decoded with the POSITION and UV2 bits alone, the
    vertices are, in order, the vectors of the position pass paired with
    the vectors of the second-UV pass, both read from the file right after
    the vertex count, one per vertex: every vertex has that position, that
    pair in [uv_layers[1]], and every other attribute as [Vertex()] made
    it (zero normal, colour, weights, indices and tangent, [None] in the
    other three UV layers). *)
Theorem position_uv2_only `{Runtime} s m r :
  load init s = Ret m r ->
  format m = VertexFormat.POSITION + VertexFormat.UV2 ->
  exists self0 version s0 self1 vert_count s1 ps s2 uvs s3,
    load_identifier init s = Ret (self0, version) s0 /\
    load_header self0 s0 = Ret (self1, vert_count) s1 /\
    read_list (Z.to_nat vert_count) read_vector3_f32 s1 = Ret ps s2 /\
    read_list (Z.to_nat vert_count) read_vector2_f32 s2 = Ret uvs s3 /\
    length ps = Z.to_nat vert_count /\
    length uvs = Z.to_nat vert_count /\
    vertices m = zip_with position_uv2_vertex ps uvs.
Proof.
  unfold load. intros E Hf. bind_inv E. destruct a as [self0 version].
  bind_inv E.
  apply load_pool_keeps in E as [Hfm Hvm].
  apply load_sections_keeps in E1
    as (_ & self1 & vert_count & s2 & m1 & s3 & Eh & Ep & _ & Hf1 & Hv1).
  pose proof (load_identifier_inv _ _ _ _ _ E0) as (Hv0 & _ & _).
  pose proof (load_header_facts _ _ _ _ _ Eh) as [_ Hvh].
  rewrite Hv0 in Hvh. cbn [vertices init app] in Hvh.
  apply load_vertex_passes_position_uv2 in Ep
    as (ps & s' & uvs & Eps & Euvs & Hvs).
  - exists self0, version, s0, self1, vert_count, s2, ps, s', uvs, s3.
    pose proof (read_list_length _ _ _ _ _ Eps) as Hlp.
    pose proof (read_list_length _ _ _ _ _ Euvs) as Hlu.
    repeat split; try done.
    rewrite Hvm, Hv1, Hvs, Hvh. now apply zip_position_uv2.
  - congruence.
  - rewrite Hvh. apply length_replicate.
Qed.

Lemma position_uv2_only_witness :
  exists m,
    @load ascii_runtime init Examples.zms7_two_vertices = Ret m [] /\
    vertices m
    = [position_uv2_vertex (Examples.one, 0, 0) (Examples.half, Examples.half);
       position_uv2_vertex (0, Examples.two, 0) (Examples.one, 0)].
Proof.
  eexists. split; [vm_compute; reflexivity|].
  edestruct (@position_uv2_only ascii_runtime Examples.zms7_two_vertices)
    as (self0 & version & s0 & self1 & vert_count & s1 & ps & s2 & uvs & s3
        & E0 & E1 & E2 & E3 & _ & _ & Hv).
  - vm_compute. reflexivity.
  - reflexivity.
  - cbn [vertices] in Hv. vm_compute in E0. inversion E0; subst.
    vm_compute in E1. inversion E1; subst.
    vm_compute in E2. inversion E2; subst.
    vm_compute in E3. inversion E3; subst.
    exact Hv.
Defined.

Lemma load_identifier_token `{Runtime} ident token version self t :
  x00 ∉ ident ->
  euc_kr_decode ident = Some token ->
  (token = ZMS0007 /\ version = 7) \/ (token = ZMS0008 /\ version = 8) ->
  load_identifier self (ident ++ [x00] ++ t)
  = Ret (set_identifier token self, version) t.
Proof.
  intros Hn Hd Hv. unfold load_identifier.
  rewrite (bind_Ret _ _ _ token t).
  - destruct Hv as [[-> ->]|[-> ->]].
    + now rewrite decide_True by done.
    + rewrite decide_False by (vm_compute; discriminate).
      now rewrite decide_True by done.
  - rewrite read_str_name by done. unfold decode. now rewrite Hd.
Qed.

(** C5 (as amended). In a version-8 mesh, when fewer than two bytes remain
    where the pool would begin (none, or one of its two bytes), the failed
    read is swallowed and the decode succeeds with the pool left at 0; with
    two bytes or more there, the pool is read. A version-7 decode makes no
    read there at all. In either version a file that stops after the
    identifier and before that point makes the decode raise struct.error. *)
Theorem mesh_pool_leniency `{Runtime} ident token version s m r :
  x00 ∉ ident ->
  euc_kr_decode ident = Some token ->
  (token = ZMS0007 /\ version = 7) \/ (token = ZMS0008 /\ version = 8) ->
  load_sections (set_identifier token init) s = Ret m r ->
  pool m = 0 /\
  (version = 8 -> (length r < 2)%nat ->
   load init (ident ++ [x00] ++ s) = Ret m []) /\
  (version = 8 -> (2 <= length r)%nat ->
   load init (ident ++ [x00] ++ s)
   = Ret (set_pool (to_signed 16 (le_unsigned (take 2 r))) m) (drop 2 r)) /\
  (version = 7 -> load init (ident ++ [x00] ++ s) = Ret m r) /\
  (forall k, (k < length s - length r)%nat ->
             load init (ident ++ [x00] ++ take k s) = Raise struct_error []).
Proof.
  intros Hn Hd Hv E.
  assert (Hid : forall t,
            load_identifier init (ident ++ [x00] ++ t)
            = Ret (set_identifier token init, version) t)
    by (intros t; now apply load_identifier_token).
  split; [|split; [|split; [|split]]].
  - apply load_sections_keeps in E as [Hp _]. exact Hp.
  - intros -> Hr. unfold load.
    rewrite (bind_Ret _ _ _ _ _ (Hid s)), (bind_Ret _ _ _ _ _ E).
    unfold load_pool, try_except. rewrite decide_True by done.
    now rewrite (bind_Raise _ _ _ _ _ (read_i16_short r Hr)).
  - intros -> Hr. unfold load.
    rewrite (bind_Ret _ _ _ _ _ (Hid s)), (bind_Ret _ _ _ _ _ E).
    unfold load_pool, try_except. rewrite decide_True by done.
    now rewrite (bind_Ret _ _ _ _ _ (read_i16_long r Hr)).
  - intros ->. unfold load.
    rewrite (bind_Ret _ _ _ _ _ (Hid s)), (bind_Ret _ _ _ _ _ E).
    unfold load_pool. now rewrite decide_False by lia.
  - intros k Hk.
    destruct (strict_load_sections _ _ _ _ E) as (p & -> & _ & Htr).
    rewrite length_app in Hk.
    rewrite take_app_le by lia. unfold load.
    rewrite (bind_Ret _ _ _ _ _ (Hid (take k p))).
    assert (Hkp : (k < length p)%nat) by lia.
    rewrite (bind_Raise _ _ _ _ _ (Htr k Hkp)). reflexivity.
Qed.

Lemma mesh_pool_leniency_witness :
  exists m,
    @load ascii_runtime init
      (b "ZMS0008" ++ [x00] ++ Examples.zms8_sections) = Ret m [] /\
    pool m = 0 /\
    @load ascii_runtime init
      (b "ZMS0008" ++ [x00] ++ take 37 Examples.zms8_sections)
    = Raise struct_error [].
Proof.
  set (m := mk ZMS0008 0
              (mkBoundingBox (0, 0, 0)
                 (Examples.one, Examples.one, Examples.one))
              [] [] [] [] [] 0).
  exists m.
  assert (Hn : x00 ∉ b "ZMS0008").
  { cbn. intros Hin.
    repeat (apply elem_of_cons in Hin as [Hin|Hin]; [discriminate|]).
    now apply elem_of_nil in Hin. }
  assert (Hs : load_sections (set_identifier ZMS0008 init)
                 Examples.zms8_sections = Ret m [])
    by (vm_compute; reflexivity).
  destruct (@mesh_pool_leniency ascii_runtime (b "ZMS0008") ZMS0008 8
              Examples.zms8_sections m [] Hn eq_refl
              (or_intror (conj eq_refl eq_refl)) Hs)
    as (Hp & H8 & _ & _ & Htr).
  split; [apply H8; [reflexivity|cbn; lia]|].
  split; [exact Hp|].
  apply Htr. vm_compute. lia.
Defined.

(** C5 (as stated) fails on the version-8 mesh that stops after the first
    of the two bytes of the pool: the sections decode and leave one byte,
    and the load succeeds with pool 0. *)
Lemma mesh_half_pool_counterexample :
  exists m r,
    load_sections (set_identifier ZMS0008 init)
      (drop 8 Examples.zms8_half_pool) = Ret m r /\
    length r = 1%nat /\
    @load ascii_runtime init Examples.zms8_half_pool = Ret m [] /\
    pool m = 0.
Proof.
  eexists _, _. split; [vm_compute; reflexivity|].
  split; [reflexivity|]. split; [vm_compute; reflexivity|]. reflexivity.
Qed.

End MeshClaims.

(** ** Meshes: the positions of the vertices *)

Section MeshPositions.
Import MeshImportData.








End MeshPositions.

(** ** Scaling of positions *)

Section Scaling.
Import Layout.




End Scaling.

(** ** The values appended for the texture animation and the scale *)

Section AlphaReuse.
Context `{Runtime}.

Lemma enabled_same_type bit c c' :
  ChannelData.type c' = ChannelData.type c ->
  ChannelData.enabled bit c' = ChannelData.enabled bit c.
Proof. unfold ChannelData.enabled. now intros ->. Qed.

End AlphaReuse.

(** On the values the examples divide, the product by the
    single-precision reciprocal of 100 is the quotient by 100. *)
Lemma reciprocal_product_agrees :
  IEEE.f32_mul IEEE.f32_100 (IEEE.f32_div f32_one IEEE.f32_100)
  = IEEE.f32_div IEEE.f32_100 IEEE.f32_100 /\
  IEEE.f32_mul 0 (IEEE.f32_div f32_one IEEE.f32_100)
  = IEEE.f32_div 0 IEEE.f32_100.
Proof. split; vm_compute; reflexivity. Qed.

(** ** Termination

    [read_str] apart, every reader comes to an end on every file: the
    animation decoder always returns or raises, and so does the mesh
    decoder once its identifier is read. *)

Lemma terminates_ret {A} (a : A) : terminates (ret a).
Proof. intros s. discriminate. Qed.

Lemma terminates_raise {A} (e : exn) : terminates (@raise A e).
Proof. intros s. discriminate. Qed.

Lemma terminates_bind {A B} (m : io A) (k : A -> io B) :
  terminates m -> (forall a, terminates (k a)) -> terminates (bind m k).
Proof.
  intros Hm Hk s. unfold bind. destruct (m s) as [a s'|e s'|] eqn:E.
  - apply Hk.
  - discriminate.
  - now apply Hm in E.
Qed.

Lemma terminates_for_each {X St} (l : list X) (body : X -> St -> io St) :
  (forall x st, terminates (body x st)) ->
  forall st, terminates (for_each l body st).
Proof.
  intros Hbody. induction l as [|x l IH]; intros st; cbn [for_each].
  - apply terminates_ret.
  - apply terminates_bind; [apply Hbody|exact IH].
Qed.

Lemma terminates_try_except {A} (m handler : io A) :
  terminates m -> terminates handler -> terminates (try_except m handler).
Proof.
  intros Hm Hh s. unfold try_except. destruct (m s) as [a s'|e s'|] eqn:E.
  - discriminate.
  - apply Hh.
  - now apply Hm in E.
Qed.

Lemma terminates_f_read n : terminates (f_read n).
Proof. intros s. discriminate. Qed.

Lemma terminates_read_i16 : terminates read_i16.
Proof.
  apply terminates_bind; [apply terminates_f_read|].
  intros data. unfold unpack_h. case_decide;
    [apply terminates_ret|apply terminates_raise].
Qed.

Lemma terminates_read_i32 : terminates read_i32.
Proof.
  apply terminates_bind; [apply terminates_f_read|].
  intros data. unfold unpack_i. case_decide;
    [apply terminates_ret|apply terminates_raise].
Qed.

Lemma terminates_read_f32 : terminates read_f32.
Proof.
  apply terminates_bind; [apply terminates_f_read|].
  intros data. unfold unpack_f. case_decide;
    [apply terminates_ret|apply terminates_raise].
Qed.

Lemma terminates_read_fstr `{Runtime} n : terminates (read_fstr n).
Proof.
  apply terminates_bind; [apply terminates_f_read|].
  intros data. unfold decode. destruct (euc_kr_decode data);
    [apply terminates_ret|apply terminates_raise].
Qed.

Create HintDb terminates.
#[export] Hint Resolve terminates_ret terminates_raise terminates_read_i16
  terminates_read_i32 terminates_read_f32 terminates_read_fstr : terminates.

(** Proves [terminates] for a computation made of binds, loops,
    conditionals and fixed-size reads. *)
Ltac terminates_tac :=
  repeat first
    [ progress intros
    | solve [auto with terminates]
    | apply terminates_for_each
    | apply terminates_try_except
    | apply terminates_bind
    | match goal with
      | |- terminates (if ?c then _ else _) => destruct c
      | |- terminates (match ?o with Some _ => _ | None => _ end) =>
          destruct o
      | |- terminates (let '(_, _) := ?p in _) => destruct p
      end ].

Lemma terminates_load_channel_frame `{Runtime} c alpha :
  terminates (AnimationData.load_channel_frame c alpha).
Proof.
  unfold AnimationData.load_channel_frame,
    AnimationData.load_position_or_rotation.
  terminates_tac.
Qed.

(** The animation decoder returns or raises on every file. *)
Lemma terminates_animation_load_data `{Runtime} self :
  terminates (AnimationData.load_data self).
Proof.
  unfold AnimationData.load_data, AnimationData._load_settings,
    AnimationData._setup_channels, AnimationData._load_channel_data,
    AnimationData.load_frame, AnimationData.load_channel_at.
  repeat first
    [ progress intros
    | solve [auto with terminates]
    | apply terminates_load_channel_frame
    | apply terminates_for_each
    | apply terminates_bind
    | match goal with
      | |- terminates (match ?o with Some _ => _ | None => _ end) =>
          destruct o
      | |- terminates (let '(_, _) := ?p in _) => destruct p
      end ].
Qed.

(** After the identifier, the mesh decoder returns or raises on every
    file. *)
Lemma terminates_mesh_sections self version :
  terminates (self <- MeshImportData.load_sections self ;;
              MeshImportData.load_pool version self).
Proof.
  unfold MeshImportData.load_sections, MeshImportData.load_header,
    MeshImportData.load_vertex_passes, MeshImportData.load_topology,
    MeshImportData.load_pool, MeshImportData.when,
    MeshImportData.vertex_pass, MeshImportData.bone_pass,
    MeshImportData.vertex_assign, read_vector3_f32, read_vector2_f32,
    read_vector4_f32, read_vector4_i16, read_vector3_i16, read_color.
  terminates_tac.
Qed.

(** ** Meshes: decoding a well-formed file *)

Section MeshForward.
Import Layout MeshLayout MeshImportData.

(** A loop that reads one entry per turn and appends it to a table. *)
Lemma table_loop {X} (rd : io X) (enc : X -> list byte) (ok : X -> bool)
    (get : t -> list X) (set : list X -> t -> t) :
  (forall x r, ok x = true -> rd (enc x ++ r) = Ret x r) ->
  (forall v self, get (set v self) = v) ->
  (forall v w self, set v (set w self) = set v self) ->
  (forall self, set (get self) self = self) ->
  forall xs (l : list nat) self rest,
    length l = length xs ->
    forallb ok xs = true ->
    for_each l (fun _ self => x <- rd ;; ret (set (get self ++ [x]) self))
      self (concat (map enc xs) ++ rest)
    = Ret (set (get self ++ xs) self) rest.
Proof.
  intros Hrd Hgs Hss Hsg. induction xs as [|x xs IH];
    intros [|i l] self rest Hl Hok; try discriminate.
  - cbn. now rewrite app_nil_r, Hsg.
  - cbn [forallb] in Hok. apply andb_true_iff in Hok as [Hx Hxs].
    cbn [for_each map concat]. rewrite <- app_assoc.
    rewrite (bind_Ret _ _ _ (set (get self ++ [x]) self) (concat (map enc xs) ++ rest)).
    + rewrite IH by (cbn in Hl; auto with lia).
      now rewrite Hgs, Hss, <- app_assoc.
    + now rewrite (bind_Ret _ _ _ _ _ (Hrd x _ Hx)).
Qed.

Lemma read_list_bytes {X} (rd : io X) (enc : X -> list byte) (ok : X -> bool) :
  (forall x r, ok x = true -> rd (enc x ++ r) = Ret x r) ->
  forall xs rest,
    forallb ok xs = true ->
    read_list (length xs) rd (concat (map enc xs) ++ rest) = Ret xs rest.
Proof.
  intros Hrd. induction xs as [|x xs IH]; intros rest Hok; [reflexivity|].
  cbn [forallb] in Hok. apply andb_true_iff in Hok as [Hx Hxs].
  cbn [length read_list map concat]. rewrite <- app_assoc.
  rewrite (bind_Ret _ _ _ _ _ (Hrd x _ Hx)).
  now rewrite (bind_Ret _ _ _ _ _ (IH rest Hxs)).
Qed.

Lemma allocate_vertices (l : list nat) :
  forall self s,
    for_each l
      (fun _ self => ret (set_vertices (vertices self ++ [Vertex.init]) self))
      self s
    = Ret (set_vertices (vertices self ++ replicate (length l) Vertex.init)
             self) s.
Proof.
  induction l as [|i l IH]; intros self s.
  - cbn. rewrite app_nil_r. now destruct self.
  - cbn [for_each length]. rewrite (bind_Ret _ _ _ _ _ eq_refl).
    rewrite IH. cbn. now rewrite <- app_assoc.
Qed.

Lemma is_i16_spec z : is_i16 z = true -> - 2 ^ 15 <= z < 2 ^ 15.
Proof. unfold is_i16. rewrite andb_true_iff. lia. Qed.

Lemma read_i16_entry z r :
  is_i16 z = true -> read_i16 (i16_bytes z ++ r) = Ret z r.
Proof. intros Hz. apply read_i16_bytes. now apply is_i16_spec. Qed.

Lemma read_vector3_entry v r :
  is_vector3 v = true -> read_vector3_f32 (vector3_bytes v ++ r) = Ret v r.
Proof.
  unfold is_vector3. rewrite !andb_true_iff. intros [[Hx Hy] Hz].
  apply read_vector3_f32_bytes; now apply is_f32_spec.
Qed.

Lemma read_vector2_entry v r :
  is_vector2 v = true -> read_vector2_f32 (vector2_bytes v ++ r) = Ret v r.
Proof.
  unfold is_vector2. rewrite andb_true_iff. intros [Hx Hy].
  apply is_f32_spec in Hx, Hy. destruct v as [x y]. cbn [fst snd] in *.
  unfold read_vector2_f32, vector2_bytes. cbn [fst snd].
  rewrite <- app_assoc.
  rewrite (bind_Ret _ _ _ _ _ (read_f32_pack x _ Hx)).
  now rewrite (bind_Ret _ _ _ _ _ (read_f32_pack y _ Hy)).
Qed.

Lemma read_triangle_entry t r :
  is_triangle t = true ->
  read_vector3_i16 (triangle_bytes t ++ r) = Ret t r.
Proof.
  unfold is_triangle. rewrite !andb_true_iff. intros [[Hx Hy] Hz].
  destruct t as [[x y] z]. cbn [fst snd] in *.
  unfold read_vector3_i16, triangle_bytes. cbn [fst snd].
  rewrite <- !app_assoc.
  rewrite (bind_Ret _ _ _ _ _ (read_i16_entry x _ Hx)).
  rewrite (bind_Ret _ _ _ _ _ (read_i16_entry y _ Hy)).
  now rewrite (bind_Ret _ _ _ _ _ (read_i16_entry z _ Hz)).
Qed.

End MeshForward.

Section MeshDecodes.
Import Layout MeshLayout MeshImportData.

Lemma mesh_ident_no_nul (l : list byte) :
  forallb (fun x => negb (bool_decide (x = x00))) l = true -> x00 ∉ l.
Proof.
  rewrite forallb_forall. intros Hn Hin.
  apply list_elem_of_In in Hin. specialize (Hn _ Hin).
  now rewrite bool_decide_eq_true_2 in Hn.
Qed.

(** The side conditions of [table_loop]. *)
Ltac table_side :=
  try done; try (now intros []);
  try (unfold range; now rewrite length_seq, Nat2Z.id).

(** Makes the step [m] at the head of the goal, its outcome given by
    [tac]. *)
Ltac step m tac := erewrite (bind_Ret m) by tac; cbv beta iota.

(** A well-formed file with the POSITION and UV2 bits decodes, to its last
    byte, into the mesh whose vertices pair its positions with its second
    UV pairs. *)
Lemma load_position_uv2_bytes `{Runtime} c :
  wf_content c = true ->
  load init (position_uv2_bytes c) = Ret (decoded_mesh c) [].
Proof.
  unfold wf_content. rewrite !andb_true_iff, !bool_decide_eq_true.
  intros (((((((((((((((Hn & Hd) & Hmin) & Hmax) & Hcb) & Hb) & Hcp) & Hp)
                   & Hlu) & Hu) & Hct) & Ht) & Hcm) & Hm) & Hcs) & Hs).
  apply mesh_ident_no_nul in Hn.
  unfold is_count in *.
  apply Z.ltb_lt in Hcb, Hcp, Hct, Hcm, Hcs.
  unfold load, position_uv2_bytes.
  step (load_identifier init)
    ltac:(apply (load_identifier_token (m_ident c) ZMS0007 7); auto).
  erewrite (bind_Ret (load_sections _)); cycle 1.
  { unfold load_sections.
    erewrite (bind_Ret (load_header _)); cycle 1.
    { unfold load_header, table_bytes. rewrite <- !app_assoc.
      erewrite (bind_Ret read_i32)
        by (apply read_i32_bytes;
            change (VertexFormat.POSITION + VertexFormat.UV2) with 258; lia).
      step read_vector3_f32 ltac:(apply read_vector3_entry; exact Hmin).
      step read_vector3_f32 ltac:(apply read_vector3_entry; exact Hmax).
      erewrite (bind_Ret read_i16) by (apply read_i16_bytes; lia).
      erewrite (bind_Ret (for_each _ _ _)); cycle 1.
      { apply (table_loop read_i16 i16_bytes is_i16 bones set_bones
                 read_i16_entry); table_side. }
      erewrite (bind_Ret read_i16) by (apply read_i16_bytes; lia).
      rewrite (bind_Ret _ _ _ _ _ (allocate_vertices _ _ _)).
      reflexivity. }
    cbn [fst snd].
    erewrite (bind_Ret (load_vertex_passes _ _)); cycle 1.
    { unfold load_vertex_passes, when.
      unfold range. rewrite length_seq, Nat2Z.id.
      set (self0 := set_vertices _ _).
      assert (Hf0 : format self0
                    = VertexFormat.POSITION + VertexFormat.UV2) by reflexivity.
      destruct (flags_position_uv2 self0 Hf0)
        as (Fp & Fn & Fc & Fb & Ft & F1 & F2 & F3 & F4).
      rewrite Fp.
      erewrite (bind_Ret (vertex_pass _ _ _ _)); cycle 1.
      { rewrite vertex_pass_read_list
          by (subst self0; cbn; now rewrite length_replicate, Nat2Z.id).
        rewrite Nat2Z.id.
        rewrite (bind_Ret _ _ _ _ _
                   (read_list_bytes read_vector3_f32 vector3_bytes is_vector3
                      read_vector3_entry _ _ Hp)).
        reflexivity. }
      set (self1 := set_vertices _ self0).
      assert (Hf1 : format self1
                    = VertexFormat.POSITION + VertexFormat.UV2) by reflexivity.
      destruct (flags_position_uv2 self1 Hf1)
        as (_ & Fn1 & Fc1 & Fb1 & Ft1 & F11 & F21 & _ & _).
      rewrite Fn1. cbv iota. step (ret self1) ltac:(reflexivity).
      rewrite Fc1. cbv iota. step (ret self1) ltac:(reflexivity).
      rewrite Fb1. cbv iota. step (ret self1) ltac:(reflexivity).
      rewrite Ft1. cbv iota. step (ret self1) ltac:(reflexivity).
      rewrite F11. cbv iota. step (ret self1) ltac:(reflexivity).
      rewrite F21.
      erewrite (bind_Ret (vertex_pass _ _ _ _)); cycle 1.
      { rewrite vertex_pass_read_list; cycle 1.
        { subst self1 self0. cbn.
          rewrite length_zip_with, length_replicate, Nat2Z.id. lia. }
        rewrite Nat2Z.id, <- Hlu.
        rewrite (bind_Ret _ _ _ _ _
                   (read_list_bytes read_vector2_f32 vector2_bytes is_vector2
                      read_vector2_entry _ _ Hu)).
        reflexivity. }
      set (self2 := set_vertices _ self1).
      assert (Hf2 : format self2
                    = VertexFormat.POSITION + VertexFormat.UV2) by reflexivity.
      destruct (flags_position_uv2 self2 Hf2)
        as (_ & _ & _ & _ & _ & _ & _ & F32 & F42).
      rewrite F32. cbv iota. step (ret self2) ltac:(reflexivity).
      rewrite F42. reflexivity. }
    unfold load_topology, table_bytes. rewrite <- ?app_assoc.
    erewrite (bind_Ret read_i16) by (apply read_i16_bytes; lia).
    erewrite (bind_Ret (for_each _ _ _)); cycle 1.
    { apply (table_loop read_vector3_i16 triangle_bytes is_triangle
               indices set_indices read_triangle_entry); table_side. }
    erewrite (bind_Ret read_i16) by (apply read_i16_bytes; lia).
    erewrite (bind_Ret (for_each _ _ _)); cycle 1.
    { apply (table_loop read_i16 i16_bytes is_i16 materials set_materials
               read_i16_entry); table_side. }
    erewrite (bind_Ret read_i16) by (apply read_i16_bytes; lia).
    rewrite <- (app_nil_r (concat (map i16_bytes (m_strips c)))).
    apply (table_loop read_i16 i16_bytes is_i16 strips set_strips
             read_i16_entry); table_side. }
  unfold load_pool. rewrite decide_False by lia.
  unfold ret. f_equal.
  cbn [identifier format bounding_box bones vertices indices materials
       strips pool set_identifier set_format set_bounding_box set_bones
       set_vertices set_indices set_materials set_strips bb_min bb_max
       init app].
  rewrite ?Nat2Z.id.
  rewrite (zip_position_uv2 (length (m_positions c)) (m_positions c)
             (m_uv2 c) eq_refl Hlu).
  reflexivity.
Qed.

End MeshDecodes.

(** The two-vertex example is such a file. *)
Lemma two_vertices_decode :
  @MeshLayout.wf_content ascii_runtime Examples.two_vertices = true /\
  @MeshImportData.load ascii_runtime MeshImportData.init
    Examples.zms7_two_vertices
  = Ret (MeshLayout.decoded_mesh Examples.two_vertices) [].
Proof.
  assert (W : @MeshLayout.wf_content ascii_runtime Examples.two_vertices
              = true) by (vm_compute; reflexivity).
  split; [exact W|]. now apply load_position_uv2_bytes.
Qed.

(** * Further properties of the code *)

(** ** Primitive reads and writes *)

Lemma le_unsigned_bound bs :
  0 <= le_unsigned bs < 256 ^ Z.of_nat (length bs).
Proof.
  induction bs as [|x bs IH].
  - cbn. lia.
  - cbn [le_unsigned length]. rewrite Nat2Z.inj_succ, Z.pow_succ_r by lia.
    assert (0 <= Z_of_byte x < 256).
    { unfold Z_of_byte. pose proof (Byte.to_N_bounded x). lia. }
    lia.
Qed.

Lemma to_signed_bound w u :
  0 < w -> 0 <= u < 2 ^ w -> - 2 ^ (w - 1) <= to_signed w u < 2 ^ (w - 1).
Proof.
  intros Hw Hu. unfold to_signed.
  replace (2 ^ w) with (2 * 2 ^ (w - 1)) in *
    by (rewrite <- Z.pow_succ_r by lia; f_equal; lia).
  destruct (Z.ltb_spec u (2 ^ (w - 1))); lia.
Qed.

(** X1. Whatever the bytes, a 16-bit read returns a value of the signed
    16-bit range and a 32-bit read one of the signed 32-bit range, a float
    read returns a 32-bit pattern, and each takes exactly the bytes of its
    width off the file. *)
Theorem reads_stay_in_range s z r :
  (read_i16 s = Ret z r ->
   - 2 ^ 15 <= z < 2 ^ 15 /\ length s = (2 + length r)%nat /\ r = drop 2 s) /\
  (read_i32 s = Ret z r ->
   - 2 ^ 31 <= z < 2 ^ 31 /\ length s = (4 + length r)%nat /\ r = drop 4 s) /\
  (read_f32 s = Ret z r ->
   0 <= z < 2 ^ 32 /\ length s = (4 + length r)%nat /\ r = drop 4 s).
Proof.
  split; [|split]; intros E.
  - destruct (decide (length s < 2)%nat) as [Hs|Hs].
    { rewrite read_i16_short in E by done. discriminate. }
    rewrite read_i16_long in E by lia. injection E as <- <-.
    pose proof (le_unsigned_bound (take 2 s)) as Hb.
    rewrite length_take, Nat.min_l in Hb by lia.
    split; [apply (to_signed_bound 16); [lia|exact Hb]|].
    rewrite length_drop. split; [lia|done].
  - destruct (decide (length s < 4)%nat) as [Hs|Hs].
    { rewrite read_i32_short in E by done. discriminate. }
    rewrite read_i32_long in E by lia. injection E as <- <-.
    pose proof (le_unsigned_bound (take 4 s)) as Hb.
    rewrite length_take, Nat.min_l in Hb by lia.
    split; [apply (to_signed_bound 32); [lia|exact Hb]|].
    rewrite length_drop. split; [lia|done].
  - destruct (decide (length s < 4)%nat) as [Hs|Hs].
    { rewrite read_f32_short in E by done. discriminate. }
    rewrite read_f32_long in E by lia. injection E as <- <-.
    pose proof (le_unsigned_bound (take 4 s)) as Hb.
    rewrite length_take, Nat.min_l in Hb by lia.
    split; [exact Hb|]. rewrite length_drop. split; [lia|done].
Qed.

Section PrimitiveRoundTrips.
Context `{Runtime}.
Import Layout.

(** X2. An int of the signed 32-bit range written by [write_i32] is four
    bytes that [read_i32] reads back as the same int; outside that range
    [write_i32] raises struct.error and writes nothing. *)
Theorem write_i32_read_i32 z file r :
  (- 2 ^ 31 <= z < 2 ^ 31 ->
   exists bs,
     write_i32 z file = Ret tt (file ++ bs) /\ length bs = 4%nat /\
     read_i32 (bs ++ r) = Ret z r) /\
  (~ - 2 ^ 31 <= z < 2 ^ 31 -> write_i32 z file = Raise struct_error file).
Proof.
  split.
  - intros Hz. exists (i32_bytes z). split; [now apply write_i32_bytes|].
    split; [apply length_le_bytes|now apply read_i32_bytes].
  - intros Hz. unfold write_i32, pack_i, bind.
    now rewrite decide_False by done.
Qed.

(** X3. A name whose EUC-KR bytes hold no zero byte and decode back to it
    is written by [write_str] as those bytes and one zero byte, and
    [read_str] reads the name back from them and stops right behind the
    zero byte. *)
Theorem write_str_read_str data bs file r :
  euc_kr_encode data = Some bs ->
  x00 ∉ bs ->
  euc_kr_decode bs = Some data ->
  exists out,
    write_str data file = Ret tt (file ++ out) /\
    length out = S (length bs) /\
    read_str (out ++ r) = Ret data r.
Proof.
  intros He Hn Hd. exists (bs ++ [x00]). split; [now apply write_str_bytes|].
  split; [rewrite length_app; cbn; lia|].
  rewrite <- app_assoc. rewrite read_str_name by done.
  unfold decode. now rewrite Hd.
Qed.

(** X4. [write_fstr] never checks the length of the string: it writes
    exactly [size] bytes, the first [size] bytes of the encoded string
    when that is too long, and the encoded string followed by zero bytes
    when it is too short. *)
Theorem write_fstr_pads_or_cuts data bs size file :
  euc_kr_encode data = Some bs ->
  exists out,
    write_fstr data size file = Ret tt (file ++ out) /\
    length out = size /\
    out = take size bs ++ replicate (size - length bs) x00.
Proof.
  intros He. exists (pack_s size bs). split; [|split].
  - unfold write_fstr, encode, bind. now rewrite He.
  - apply length_resize.
  - apply resize_spec.
Qed.

End PrimitiveRoundTrips.

Lemma reads_stay_in_range_witness :
  read_i16 [xff; xff; x01] = Ret (-1) [x01] /\
  - 2 ^ 15 <= -1 < 2 ^ 15 /\ length [xff; xff; x01] = (2 + length [x01])%nat.
Proof.
  split; [reflexivity|].
  destruct (reads_stay_in_range [xff; xff; x01] (-1) [x01]) as [Hh _].
  destruct (Hh eq_refl) as (Hz & Hl & _). split; [exact Hz|exact Hl].
Defined.

Lemma write_i32_read_i32_witness :
  exists bs,
    write_i32 (-2) [] = Ret tt bs /\ read_i32 (bs ++ [x07]) = Ret (-2) [x07].
Proof.
  destruct (@write_i32_read_i32 (-2) [] [x07]) as [Hin _].
  destruct Hin as (bs & Hw & _ & Hr); [lia|].
  exists bs. split; [exact Hw|exact Hr].
Defined.

Lemma write_str_read_str_witness :
  exists out,
    @write_str ascii_runtime (pystr_of_string "root") [] = Ret tt out /\
    length out = 5%nat /\
    @read_str ascii_runtime (out ++ [x07]) = Ret (pystr_of_string "root") [x07].
Proof.
  apply (@write_str_read_str ascii_runtime (pystr_of_string "root") (b "root")
           [] [x07]).
  - reflexivity.
  - apply mesh_ident_no_nul. reflexivity.
  - reflexivity.
Defined.

Lemma write_fstr_pads_or_cuts_witness :
  exists out,
    @write_fstr ascii_runtime (pystr_of_string "ZMD00010") 7 [] = Ret tt out /\
    length out = 7%nat /\
    out = take 7 (b "ZMD00010") ++ replicate (7 - 8) x00.
Proof.
  apply (@write_fstr_pads_or_cuts ascii_runtime (pystr_of_string "ZMD00010")
           (b "ZMD00010") 7 []).
  reflexivity.
Defined.

(** ** Skeletons: unknown tokens, parent indices, saving and loading *)

Lemma py_index_Some {A} (l : list A) i :
  - Z.of_nat (length l) <= i < Z.of_nat (length l) -> is_Some (py_index l i).
Proof.
  intros Hi. unfold py_index.
  destruct (decide (0 <= i)).
  - apply lookup_lt_is_Some. lia.
  - rewrite decide_True by lia. apply lookup_lt_is_Some. lia.
Qed.

Lemma py_index_None {A} (l : list A) i :
  ~ - Z.of_nat (length l) <= i < Z.of_nat (length l) -> py_index l i = None.
Proof.
  intros Hi. unfold py_index.
  destruct (decide (0 <= i)).
  - apply lookup_ge_None. lia.
  - now rewrite decide_False by lia.
Qed.

(** The listing of a bone list comes to its end when every parent is a
    Python index of the bone list, and raises IndexError otherwise. *)
Lemma print_bone_list_all self l s :
  Forall (fun bone =>
            - Z.of_nat (length (SkeletonData.bones self))
              <= BoneData.parent bone
              < Z.of_nat (length (SkeletonData.bones self))) l ->
  SkeletonData._print_bone_list self l s = Ret tt s.
Proof.
  unfold SkeletonData._print_bone_list.
  induction 1 as [|bone l Hb _ IH]; [done|].
  cbn [for_each]. unfold bind at 1.
  destruct (py_index_Some (SkeletonData.bones self) _ Hb) as [p ->].
  exact IH.
Qed.

Lemma print_bone_list_some self l s :
  Exists (fun bone =>
            ~ - Z.of_nat (length (SkeletonData.bones self))
                <= BoneData.parent bone
                < Z.of_nat (length (SkeletonData.bones self))) l ->
  SkeletonData._print_bone_list self l s = Raise IndexError s.
Proof.
  unfold SkeletonData._print_bone_list.
  induction l as [|bone l IH]; intros Hex; [inversion Hex|].
  cbn [for_each]. unfold bind at 1.
  destruct (decide (- Z.of_nat (length (SkeletonData.bones self))
                    <= BoneData.parent bone
                    < Z.of_nat (length (SkeletonData.bones self))))
    as [Hb|Hb].
  - destruct (py_index_Some (SkeletonData.bones self) _ Hb) as [p ->].
    apply IH. inversion Hex; subst; [contradiction|assumption].
  - now rewrite py_index_None.
Qed.

Section SkeletonErrors.
Context `{Runtime}.

(** X5. A skeleton file whose first seven bytes decode to anything but
    the two tokens, and a mesh file whose identifier does, make the load
    raise RoseParseError with that text: nothing is read behind the
    token. A skeleton file shorter than seven bytes is such a file. *)
Theorem unknown_token_is_fatal :
  (forall self s token,
     euc_kr_decode (take 7 s) = Some token ->
     token <> SkeletonData.ZMD0003 -> token <> SkeletonData.ZMD0002 ->
     SkeletonData.load_data self s = Raise (RoseParseError token) (drop 7 s)) /\
  (forall self ident token r,
     x00 ∉ ident ->
     euc_kr_decode ident = Some token ->
     token <> MeshImportData.ZMS0007 -> token <> MeshImportData.ZMS0008 ->
     MeshImportData.load self (ident ++ [x00] ++ r)
     = Raise (RoseParseError token) r).
Proof.
  split.
  - intros self s token Hd H3 H2.
    unfold SkeletonData.load_data, SkeletonData.load_file.
    apply bind_Raise. apply bind_Raise.
    unfold SkeletonData._load_format_code, read_fstr, decode, bind, f_read.
    rewrite Hd. unfold ret.
    now rewrite decide_False, decide_False by done.
  - intros self ident token r Hn Hd H7 H8.
    unfold MeshImportData.load. apply bind_Raise.
    unfold MeshImportData.load_identifier.
    erewrite bind_Ret
      by (rewrite read_str_name by done; unfold decode; now rewrite Hd).
    now rewrite decide_False, decide_False by done.
Qed.

(** X6. [load_data] lists the bones and dummies after it has read the
    file, and the listing looks every parent up in the bone list. So a
    file that decodes is loaded only if every parent index, of a bone or
    of a dummy, is a Python index of the bone list (from minus the number
    of bones up to it, excluded); with any other parent index [load_data]
    raises IndexError. *)
Theorem load_data_checks_parents s sk r :
  SkeletonData.load_file SkeletonData.init s = Ret sk r ->
  let n := Z.of_nat (length (SkeletonData.bones sk)) in
  let ok := fun bone => - n <= BoneData.parent bone < n in
  (Forall ok (SkeletonData.bones sk ++ SkeletonData.dummies sk) /\
   SkeletonData.load_data SkeletonData.init s = Ret sk r) \/
  (Exists (fun bone => ~ ok bone)
     (SkeletonData.bones sk ++ SkeletonData.dummies sk) /\
   SkeletonData.load_data SkeletonData.init s = Raise IndexError r).
Proof.
  intros E n ok.
  unfold SkeletonData.load_data. rewrite (bind_Ret _ _ _ _ _ E).
  destruct (decide (Forall ok (SkeletonData.bones sk ++ SkeletonData.dummies sk)))
    as [Hall|Hsome].
  - left. split; [exact Hall|].
    apply Forall_app in Hall as [Hb Hd].
    unfold SkeletonData._print_data, bind.
    rewrite print_bone_list_all by exact Hb.
    destruct (SkeletonData.dummies sk) as [|d ds] eqn:Ed; [done|].
    now rewrite print_bone_list_all by exact Hd.
  - right. apply not_Forall_Exists in Hsome; [|intros x; apply _].
    split; [exact Hsome|].
    apply Exists_app in Hsome.
    unfold SkeletonData._print_data, bind.
    destruct (decide (Forall ok (SkeletonData.bones sk))) as [Hb|Hb].
    + rewrite print_bone_list_all by exact Hb.
      destruct Hsome as [Hsome|Hsome].
      { exfalso. apply Exists_exists in Hsome as (x & Hx & Hnx).
        rewrite Forall_forall in Hb. apply Hnx, Hb, Hx. }
      destruct (SkeletonData.dummies sk) as [|d ds] eqn:Ed;
        [inversion Hsome|].
      now rewrite print_bone_list_some by exact Hsome.
    + apply not_Forall_Exists in Hb; [|intros x; apply _].
      now rewrite print_bone_list_some by exact Hb.
Qed.

End SkeletonErrors.

Lemma unknown_token_is_fatal_witness :
  @SkeletonData.load_data ascii_runtime SkeletonData.init (b "ZMD")
  = Raise (RoseParseError (pystr_of_string "ZMD")) [] /\
  @MeshImportData.load ascii_runtime MeshImportData.init
    (b "ZMS0006" ++ [x00] ++ Layout.i32_bytes 2)
  = Raise (RoseParseError (pystr_of_string "ZMS0006")) (Layout.i32_bytes 2).
Proof.
  destruct (@unknown_token_is_fatal ascii_runtime) as [Hzmd Hzms]. split.
  - apply (Hzmd SkeletonData.init (b "ZMD") (pystr_of_string "ZMD"));
      [reflexivity|discriminate|discriminate].
  - apply (Hzms MeshImportData.init (b "ZMS0006") (pystr_of_string "ZMS0006"));
      [apply mesh_ident_no_nul; reflexivity|reflexivity|discriminate
      |discriminate].
Defined.

Lemma load_data_checks_parents_witness :
  @SkeletonData.load_data ascii_runtime SkeletonData.init
    (Layout.skeleton_bytes 2
       [Layout.mk_record 5 (b "root") (0, 0, 0) Quaternion_identity] [])
  = Raise IndexError [].
Proof.
  assert (E : @SkeletonData.load_file ascii_runtime SkeletonData.init
                (Layout.skeleton_bytes 2
                   [Layout.mk_record 5 (b "root") (0, 0, 0)
                      Quaternion_identity] [])
              = Ret (SkeletonData.mk 2
                       [BoneData.mk 5 (pystr_of_string "root") (0, 0, 0)
                          Quaternion_identity] []) [])
    by (vm_compute; reflexivity).
  destruct (@load_data_checks_parents ascii_runtime _ _ _ E)
    as [[Hall _]|[_ Hr]].
  - exfalso. apply Forall_inv in Hall. cbn in Hall. lia.
  - exact Hr.
Defined.

Section SkeletonSaveLoad.
Context `{Runtime}.
Import Layout Saved.

Lemma wf_name_spec bone :
  wf_name bone = true ->
  euc_kr_encode (BoneData.name bone) = Some (r_name (record_of bone)) /\
  decoded_name (record_of bone) = BoneData.name bone.
Proof.
  unfold wf_name, decoded_name, record_of. cbn [r_name].
  destruct (euc_kr_encode (BoneData.name bone)) as [bs|]; [|discriminate].
  intros Hd. apply bool_decide_eq_true in Hd. simpl.
  now rewrite Hd.
Qed.

Lemma save_bones_any nbones bones :
  Z.of_nat nbones < 2 ^ 31 ->
  forallb (wf_record nbones) (map record_of bones) = true ->
  forallb wf_name bones = true ->
  forall file,
    for_each bones (fun bone _ => BoneData.save_data bone false false) tt file
    = Ret tt (file ++ concat (map bone_bytes (map record_of bones))).
Proof.
  intros Hnb. induction bones as [|bone bones IH]; intros W Wn file.
  - cbn. now rewrite app_nil_r.
  - cbn [map forallb] in W, Wn.
    apply andb_true_iff in W as [Wr Wrs].
    apply andb_true_iff in Wn as [Wb Wbs].
    apply wf_record_spec in Wr. destruct Wr.
    apply wf_name_spec in Wb as [He _].
    cbn [map for_each concat].
    erewrite bind_Ret; cycle 1.
    { apply save_data_bone_bytes with (bs := r_name (record_of bone));
        [cbn in *; lia|exact He]. }
    rewrite (IH Wrs Wbs). unfold bone_bytes at 2.
    cbn [record_of r_parent r_position r_rotation].
    now rewrite <- !app_assoc.
Qed.

Lemma save_dummies_any version nbones dummies :
  Z.of_nat nbones < 2 ^ 31 ->
  forallb (wf_record nbones) (map record_of dummies) = true ->
  forallb wf_name dummies = true ->
  forall file,
    for_each dummies
      (fun dummy _ =>
         BoneData.save_data dummy true (bool_decide (version = 2))) tt file
    = Ret tt (file ++ concat (map (dummy_bytes version) (map record_of dummies))).
Proof.
  intros Hnb. induction dummies as [|dummy dummies IH]; intros W Wn file.
  - cbn. now rewrite app_nil_r.
  - cbn [map forallb] in W, Wn.
    apply andb_true_iff in W as [Wr Wrs].
    apply andb_true_iff in Wn as [Wb Wbs].
    apply wf_record_spec in Wr. destruct Wr.
    apply wf_name_spec in Wb as [He _].
    cbn [map for_each concat].
    erewrite bind_Ret; cycle 1.
    { apply save_data_dummy_bytes with (bs := r_name (record_of dummy));
        [cbn in *; lia|exact He]. }
    rewrite (IH Wrs Wbs). unfold dummy_bytes at 2.
    cbn [record_of r_parent r_position r_rotation].
    destruct (decide (version = 2)) as [E|E].
    + rewrite bool_decide_eq_true_2 by done. now rewrite <- !app_assoc.
    + rewrite bool_decide_eq_false_2 by done. now rewrite <- !app_assoc.
Qed.

Lemma decoded_records version l :
  forallb wf_name l = true ->
  map decoded_bone (map record_of l) = map reloaded_bone l /\
  map (decoded_dummy version) (map record_of l)
  = map (reloaded_dummy version) l.
Proof.
  induction l as [|bone l IH]; intros W; [done|].
  cbn [forallb] in W. apply andb_true_iff in W as [Wb Wl].
  destruct (IH Wl) as [IHb IHd]. apply wf_name_spec in Wb as [_ Hn].
  cbn [map]. rewrite IHb, IHd.
  unfold decoded_bone, decoded_dummy. rewrite Hn. now destruct bone.
Qed.

Lemma wf_saved_spec sk :
  wf_saved sk = true ->
  wf_skeleton (SkeletonData.format_code sk)
    (map record_of (SkeletonData.bones sk))
    (map record_of (SkeletonData.dummies sk)) = true /\
  forallb wf_name (SkeletonData.bones sk) = true /\
  forallb wf_name (SkeletonData.dummies sk) = true.
Proof.
  unfold wf_saved. intros W.
  do 4 (apply andb_true_iff in W as [W ?]). done.
Qed.

(** X7. Export then import. A skeleton of version 2 or 3 whose names
    survive the codec, whose parents are indices of its bones and whose
    floats are numbers is saved without error, and the file loads as the
    same bones and dummies in the same order, except that every position
    comes back divided by 100 (the save does not multiply it) and that
    in version 2 every dummy comes back with the identity rotation. *)
Theorem skeleton_save_load sk :
  wf_saved sk = true ->
  exists file,
    SkeletonData.save_data sk [] = Ret tt file /\
    SkeletonData.load_data SkeletonData.init file = Ret (reloaded sk) [].
Proof.
  intros W. apply wf_saved_spec in W as (W & Wb & Wd).
  pose proof (wf_skeleton_spec _ _ _ W) as F.
  destruct F as [Hv Hbc Hdc Hbs Hds _ _ _ _].
  rewrite length_map in Hbc, Hbs, Hds. rewrite length_map in Hdc.
  exists (skeleton_bytes (SkeletonData.format_code sk)
            (map record_of (SkeletonData.bones sk))
            (map record_of (SkeletonData.dummies sk))).
  assert (Hparents : forall l,
            forallb (wf_record (length (SkeletonData.bones sk)))
              (map record_of l) = true ->
            Forall (fun bone =>
                      0 <= BoneData.parent bone
                        < Z.of_nat (length (SkeletonData.bones sk))) l).
  { induction l as [|bone l IH]; intros Wl; [constructor|].
    cbn [map forallb] in Wl. apply andb_true_iff in Wl as [Wr Wl].
    constructor; [|now apply IH].
    apply wf_record_spec in Wr. now destruct Wr. }
  split.
  - assert (Hsave : SkeletonData.save_file sk []
                    = Ret tt (skeleton_bytes (SkeletonData.format_code sk)
                                (map record_of (SkeletonData.bones sk))
                                (map record_of (SkeletonData.dummies sk)))).
    { unfold SkeletonData.save_file, skeleton_bytes.
      rewrite (bind_Ret _ _ _ _ _
                 (save_format_code_token _ _ _ sk [] W eq_refl)).
      erewrite bind_Ret; cycle 1.
      { unfold SkeletonData._save_bones.
        erewrite bind_Ret by (apply write_i32_bytes; lia).
        apply (save_bones_any (length (SkeletonData.bones sk)));
          assumption. }
      unfold SkeletonData._save_dummies.
      erewrite bind_Ret by (apply write_i32_bytes; lia).
      rewrite (save_dummies_any _ (length (SkeletonData.bones sk)))
        by assumption.
      rewrite !length_map. cbn [app]. now rewrite <- !app_assoc. }
    unfold SkeletonData.save_data. rewrite (bind_Ret _ _ _ _ _ Hsave).
    unfold SkeletonData._print_data.
    erewrite bind_Ret by (apply print_bone_list_ok, Hparents, Hbs).
    destruct (SkeletonData.dummies sk) as [|d ds] eqn:Ed; [done|].
    apply print_bone_list_ok, Hparents, Hds.
  - unfold SkeletonData.load_data.
    rewrite (bind_Ret _ _ _ _ _ (load_file_skeleton_bytes _ _ _ W)).
    rewrite (bind_Ret _ _ _ _ _ (print_data_decoded_skeleton _ _ _ _ W)).
    unfold decoded_skeleton, reloaded.
    destruct (decoded_records (SkeletonData.format_code sk) _ Wb) as [-> _].
    destruct (decoded_records (SkeletonData.format_code sk) _ Wd) as [_ ->].
    reflexivity.
Qed.

End SkeletonSaveLoad.

Lemma skeleton_save_load_witness :
  exists file,
    @SkeletonData.save_data ascii_runtime
      (SkeletonData.mk 2 [Examples.root_bone]
         [BoneData.mk 0 (pystr_of_string "p_01") (0, Examples.one, 0)
            (mkQuaternion 0 0 Examples.one 0)]) [] = Ret tt file /\
    @SkeletonData.load_data ascii_runtime SkeletonData.init file
    = Ret (@Saved.reloaded ascii_runtime
             (SkeletonData.mk 2 [Examples.root_bone]
                [BoneData.mk 0 (pystr_of_string "p_01") (0, Examples.one, 0)
                   (mkQuaternion 0 0 Examples.one 0)])) [].
Proof.
  apply (@skeleton_save_load ascii_runtime). vm_compute. reflexivity.
Defined.

(** ** Animations: descriptors and sequence lengths *)

Section AnimationLengths.
Context `{Runtime}.

(** One run of the body of [_load_channel_data]: what it appends, and
    what becomes of the local variable [alpha]. *)
Lemma load_channel_frame_facts c alpha s c' alpha' r :
  AnimationData.load_channel_frame c alpha s = Ret (c', alpha') r ->
  grown 1 c c' /\
  (ChannelData.alpha_enabled c = false -> alpha' = alpha) /\
  (alpha' = None ->
   ChannelData.textureanim_enabled c = false /\
   ChannelData.scale_enabled c = false).
Proof.
  unfold AnimationData.load_channel_frame,
    AnimationData.load_position_or_rotation, grown, per_frame,
    ChannelData.positions_enabled, ChannelData.rotations_enabled,
    ChannelData.normals_enabled, ChannelData.alpha_enabled,
    ChannelData.uv1_enabled, ChannelData.uv2_enabled,
    ChannelData.uv3_enabled, ChannelData.uv4_enabled,
    ChannelData.textureanim_enabled, ChannelData.scale_enabled,
    ChannelData.enabled.
  intros E.
  repeat match type of E with
    | bind (if ?f then _ else _) _ _ = Ret _ _ =>
        let a := fresh "c" in
        let s := fresh "s" in
        let E' := fresh "E" in
        apply bind_inv_Ret in E; destruct E as (a & s & E' & E);
        destruct f eqn:?;
        try match type of E' with
          | (if ?g then _ else _) _ = Ret _ _ => destruct g eqn:?
          end;
        io_inv E';
        cbn [ChannelData.type ChannelData.position_append
             ChannelData.rotation_append ChannelData.normal_append
             ChannelData.alpha_append ChannelData.uv_1_append
             ChannelData.uv_2_append ChannelData.uv_3_append
             ChannelData.uv_4_append ChannelData.texture_animation_append
             ChannelData.scale_append] in E
    end.
  all: apply ret_inv in E as [E _]; injection E as ? ?; subst c' alpha'.
  all: split; [|split; intros; try done].
  all: split; [reflexivity|split; [reflexivity|]].
  all: unfold sequence_lengths, one_if; cbn; rewrite ?length_app; cbn;
    repeat (f_equal; try lia).
Qed.

Lemma load_channel_frame_grown c alpha s c' alpha' r :
  AnimationData.load_channel_frame c alpha s = Ret (c', alpha') r ->
  grown 1 c c'.
Proof. intros E. now apply load_channel_frame_facts in E. Qed.

(** What the body appends for the texture animation and for the scale, in
    every channel and every frame: the value of the local variable
    [alpha] when the body ends, not the float read for them. That value
    is the alpha read for this channel in this frame when the channel has
    the ALPHA bit, and otherwise the one the body was entered with: the
    last alpha an earlier channel or frame read. *)
Lemma load_channel_frame_alpha_reuse c alpha s c' alpha' r :
  AnimationData.load_channel_frame c alpha s = Ret (c', alpha') r ->
  (ChannelData.textureanim_enabled c = true ->
   exists a,
     alpha' = Some a /\
     ChannelData.texture_animation c'
     = ChannelData.texture_animation c ++ [a]) /\
  (ChannelData.scale_enabled c = true ->
   exists a,
     alpha' = Some a /\ ChannelData.scale c' = ChannelData.scale c ++ [a]) /\
  (ChannelData.alpha_enabled c = true ->
   exists a,
     alpha' = Some a /\ ChannelData.alpha c' = ChannelData.alpha c ++ [a]) /\
  (ChannelData.alpha_enabled c = false -> alpha' = alpha).
Proof.
  unfold AnimationData.load_channel_frame,
    AnimationData.load_position_or_rotation,
    ChannelData.positions_enabled, ChannelData.rotations_enabled,
    ChannelData.normals_enabled, ChannelData.alpha_enabled,
    ChannelData.uv1_enabled, ChannelData.uv2_enabled,
    ChannelData.uv3_enabled, ChannelData.uv4_enabled,
    ChannelData.textureanim_enabled, ChannelData.scale_enabled,
    ChannelData.enabled.
  intros E.
  repeat match type of E with
    | bind (if ?f then _ else _) _ _ = Ret _ _ =>
        let a := fresh "c" in
        let s := fresh "s" in
        let E' := fresh "E" in
        apply bind_inv_Ret in E; destruct E as (a & s & E' & E);
        destruct f eqn:?;
        try match type of E' with
          | (if ?g then _ else _) _ = Ret _ _ => destruct g eqn:?
          end;
        io_inv E';
        cbn [ChannelData.type ChannelData.position_append
             ChannelData.rotation_append ChannelData.normal_append
             ChannelData.alpha_append ChannelData.uv_1_append
             ChannelData.uv_2_append ChannelData.uv_3_append
             ChannelData.uv_4_append ChannelData.texture_animation_append
             ChannelData.scale_append] in E
    end.
  all: apply ret_inv in E as [E _]; injection E as ? ?; subst c' alpha'.
  all: repeat split; intros; try discriminate; try reflexivity.
  all: eexists; split; reflexivity.
Qed.

Lemma per_frame_same_type c c' :
  ChannelData.type c' = ChannelData.type c -> per_frame c' = per_frame c.
Proof.
  intros E.
  unfold per_frame, ChannelData.positions_enabled,
    ChannelData.rotations_enabled, ChannelData.normals_enabled,
    ChannelData.alpha_enabled, ChannelData.uv1_enabled,
    ChannelData.uv2_enabled, ChannelData.uv3_enabled,
    ChannelData.uv4_enabled, ChannelData.textureanim_enabled,
    ChannelData.scale_enabled, ChannelData.enabled.
  now rewrite E.
Qed.

Lemma grown_0 c : grown 0 c c.
Proof.
  split; [done|split; [done|]].
  unfold sequence_lengths, per_frame. cbn [map zip_with].
  repeat (f_equal; try lia).
Qed.

Lemma grown_step k c c1 c2 :
  grown k c c1 -> grown 1 c1 c2 -> grown (S k) c c2.
Proof.
  intros (Ht1 & Hi1 & Hl1) (Ht2 & Hi2 & Hl2).
  split; [congruence|split; [congruence|]].
  rewrite Hl2, Hl1, (per_frame_same_type c c1 Ht1).
  unfold sequence_lengths, per_frame. cbn [map zip_with].
  repeat (f_equal; try lia).
Qed.

(** One frame relates every channel to what it was as one run of the
    body does. *)
Lemma load_frame_related (R : ChannelData.t -> ChannelData.t -> Prop) :
  (forall c alpha s c' alpha' r,
     AnimationData.load_channel_frame c alpha s = Ret (c', alpha') r ->
     R c c') ->
  forall todo done_ alpha s chs' alpha' r,
    for_each (seq (length done_) (length todo)) AnimationData.load_channel_at
      (done_ ++ todo, alpha) s = Ret (chs', alpha') r ->
    exists todo', chs' = done_ ++ todo' /\ Forall2 R todo todo'.
Proof.
  intros HR.
  induction todo as [|c todo IH]; intros done_ alpha s chs' alpha' r E.
  - apply ret_inv in E as [E _]. inversion E; subst.
    exists []. split; [done|constructor].
  - cbn [length seq for_each] in E. bind_inv E.
    unfold AnimationData.load_channel_at in E0.
    rewrite list_lookup_middle in E0 by done.
    bind_inv E0. apply ret_inv in E0 as [-> ->].
    destruct a0 as [c1 alpha1]. cbn [fst snd] in E.
    apply HR in E1.
    rewrite (insert_app_r_alt done_ (c :: todo)) in E by lia.
    rewrite Nat.sub_diag in E. cbn [insert list_insert] in E.
    replace (done_ ++ c1 :: todo) with ((done_ ++ [c1]) ++ todo) in E
      by now rewrite <- app_assoc.
    replace (S (length done_)) with (length (done_ ++ [c1])) in E
      by (rewrite length_app; cbn; lia).
    apply IH in E as (todo' & -> & HF).
    exists (c1 :: todo'). split; [now rewrite <- app_assoc|].
    now constructor.
Qed.

(** All the frames: the settings stay, and every channel is to what it
    was as [frame_count] runs of the body make it. *)
Lemma load_channel_data_related
    (R : ChannelData.t -> ChannelData.t -> Prop)
    (Rk : nat -> ChannelData.t -> ChannelData.t -> Prop) self s anim r :
  (forall c alpha s c' alpha' r,
     AnimationData.load_channel_frame c alpha s = Ret (c', alpha') r ->
     R c c') ->
  (forall c, Rk 0%nat c c) ->
  (forall k c c1 c2, Rk k c c1 -> R c1 c2 -> Rk (S k) c c2) ->
  AnimationData._load_channel_data self s = Ret anim r ->
  AnimationData.format_code anim = AnimationData.format_code self /\
  AnimationData.fps anim = AnimationData.fps self /\
  AnimationData.frame_count anim = AnimationData.frame_count self /\
  AnimationData.channel_count anim = AnimationData.channel_count self /\
  Forall2 (Rk (Z.to_nat (AnimationData.frame_count self)))
    (AnimationData.channels self) (AnimationData.channels anim).
Proof.
  intros HR H0 HS.
  unfold AnimationData._load_channel_data. intros E. bind_inv E.
  apply ret_inv in E as [-> _]. cbn. do 4 (split; [done|]).
  destruct a as [chs' alpha']. cbn.
  assert (Hbody : forall k (i : nat) st s st' s',
            Forall2 (Rk k) (AnimationData.channels self) (fst st) ->
            AnimationData.load_frame i st s = Ret st' s' ->
            Forall2 (Rk (S k)) (AnimationData.channels self) (fst st')).
  { intros k i [chs alpha] s1 [chs1 alpha1] s2 HF E1. cbn [fst] in *.
    unfold AnimationData.load_frame in E1. cbn [fst] in E1.
    apply (load_frame_related R HR chs []) in E1 as (todo' & -> & HF').
    cbn [app]. clear -HF HF' HS.
    revert todo' HF'. induction HF as [|c0 c1 l0 l1 Hc01 _ IH];
      intros todo' HF'; inversion HF'; subst; constructor.
    - eapply HS; eauto.
    - now apply IH. }
  assert (Hinit : Forall2 (Rk 0%nat) (AnimationData.channels self)
                    (fst (AnimationData.channels self, @None f32))).
  { cbn. clear -H0. induction (AnimationData.channels self); constructor;
      [apply H0|done]. }
  pose proof (for_each_counted
                (fun k st =>
                   Forall2 (Rk k) (AnimationData.channels self) (fst st))
                _ _ Hbody _ _ _ _ _ Hinit E0) as Hc.
  unfold range in Hc. rewrite length_seq in Hc. exact Hc.
Qed.

(** The loop of [_setup_channels] reads one descriptor per iteration and
    appends a channel without values for it. *)
Lemma setup_channels_loop (l : list nat) :
  forall self s anim r,
    for_each l
      (fun i self =>
         tracktype <- read_i32 ;;
         track_id <- read_i32 ;;
         ret (AnimationData.set_channels
                (AnimationData.channels self ++
                 [ChannelData.init tracktype track_id]) self))
      self s = Ret anim r ->
    exists ds,
      read_list (length l) read_descriptor s = Ret ds r /\
      anim = AnimationData.set_channels
               (AnimationData.channels self ++
                map (fun d => ChannelData.init d.1 d.2) ds) self.
Proof.
  induction l as [|i l IH]; intros self s anim r E.
  - apply ret_inv in E as [-> ->]. exists []. split; [done|].
    cbn. rewrite app_nil_r. now destruct self.
  - cbn [for_each] in E. bind_inv E. bind_inv E0. bind_inv E0.
    apply ret_inv in E0 as [-> ->].
    apply IH in E as (ds & Hds & ->).
    exists ((a0, a1) :: ds). split.
    + cbn [length read_list]. unfold read_descriptor at 1.
      unfold bind at 1 2. rewrite E1. unfold bind at 1. rewrite E2.
      cbn [ret]. unfold bind at 1. unfold ret at 1. cbv beta iota.
      unfold bind. now rewrite Hds.
    + cbn. now rewrite <- app_assoc.
Qed.

Lemma setup_channels_descriptors self s anim r :
  AnimationData._setup_channels self s = Ret anim r ->
  exists cc s1 ds,
    read_i32 s = Ret cc s1 /\
    read_list (Z.to_nat cc) read_descriptor s1 = Ret ds r /\
    anim = AnimationData.mk (AnimationData.format_code self)
             (AnimationData.fps self) (AnimationData.frame_count self) cc
             (AnimationData.channels self ++
              map (fun d => ChannelData.init d.1 d.2) ds).
Proof.
  unfold AnimationData._setup_channels. intros E. bind_inv E.
  apply setup_channels_loop in E as (ds & Hds & ->).
  unfold range in Hds. rewrite length_seq in Hds.
  exists a, s0, ds. done.
Qed.

(** X8. The header of an animation is read without any check: the first
    eight bytes, whatever they decode to, become the format code, and the
    three ints that follow become the frame rate, the frame count and the
    channel count. The decoded animation has one channel per descriptor
    read, in the order of the file, each with the track type and the
    identifier of its descriptor; a channel count that is not positive
    gives no channel. *)
Theorem animation_header_and_descriptors s anim r :
  AnimationData.load_data AnimationData.init s = Ret anim r ->
  exists s0 s1 s2 s3 ds s4,
    read_fstr 8 s = Ret (AnimationData.format_code anim) s0 /\
    read_i32 s0 = Ret (AnimationData.fps anim) s1 /\
    read_i32 s1 = Ret (AnimationData.frame_count anim) s2 /\
    read_i32 s2 = Ret (AnimationData.channel_count anim) s3 /\
    read_list (Z.to_nat (AnimationData.channel_count anim)) read_descriptor s3
    = Ret ds s4 /\
    map (fun c => (ChannelData.type c, ChannelData.identifier c))
      (AnimationData.channels anim) = ds /\
    length (AnimationData.channels anim)
    = Z.to_nat (AnimationData.channel_count anim).
Proof.
  unfold AnimationData.load_data. intros E. bind_inv E. bind_inv E.
  unfold AnimationData._load_settings in E0.
  bind_inv E0. bind_inv E0. bind_inv E0. apply ret_inv in E0 as [-> ->].
  apply setup_channels_descriptors in E1 as (cc & s5 & ds & Hcc & Hds & ->).
  apply (load_channel_data_related (grown 1) grown) in E
    as (Hf & Hfps & Hfc & Hcc' & HF);
    [|exact load_channel_frame_grown|exact grown_0|exact grown_step].
  cbn in Hf, Hfps, Hfc, Hcc', HF.
  rewrite Hf, Hfps, Hfc, Hcc'.
  exists s2, s3, s4, s5, ds, s1. do 5 (split; [assumption|]).
  assert (Hmap : map (fun c => (ChannelData.type c, ChannelData.identifier c))
                   (AnimationData.channels anim) = ds).
  { clear -HF. revert HF. generalize (AnimationData.channels anim).
    induction ds as [|[t i] ds IH]; intros l HF; inversion HF; subst;
      [done|].
    cbn [map]. f_equal; [|now apply IH].
    match goal with Hg : grown _ _ _ |- _ => destruct Hg as (-> & -> & _) end.
    reflexivity. }
  split; [exact Hmap|].
  rewrite <- (length_map (fun c => (ChannelData.type c, ChannelData.identifier c))),
    Hmap.
  now apply read_list_length in Hds.
Qed.

(** X9. After a load, each of the ten sequences of each channel holds
    [frame_count] values when the bit of the sequence is set in the track
    type of the channel and none when it is not; the rotation sequence is
    the exception, which holds [frame_count] values when the ROTATION bit
    is set and the POSITION bit is not, and none otherwise. A frame count
    that is not positive counts as zero. *)
Theorem animation_sequence_lengths s anim r :
  AnimationData.load_data AnimationData.init s = Ret anim r ->
  forall c,
    c ∈ AnimationData.channels anim ->
    sequence_lengths c
    = map (Nat.mul (Z.to_nat (AnimationData.frame_count anim))) (per_frame c).
Proof.
  unfold AnimationData.load_data. intros E. bind_inv E. bind_inv E.
  unfold AnimationData._load_settings in E0.
  bind_inv E0. bind_inv E0. bind_inv E0. apply ret_inv in E0 as [-> ->].
  apply setup_channels_descriptors in E1 as (cc & s5 & ds & Hcc & Hds & ->).
  apply (load_channel_data_related (grown 1) grown) in E
    as (_ & _ & Hfc & _ & HF);
    [|exact load_channel_frame_grown|exact grown_0|exact grown_step].
  cbn in Hfc, HF. rewrite Hfc. clear -HF.
  intros c Hc. apply list_elem_of_lookup in Hc as [i Hi].
  destruct (Forall2_lookup_r _ _ _ _ _ HF Hi) as (c0 & Hc0 & Ht & _ & Hl).
  apply list_lookup_fmap_Some in Hc0 as (d & -> & Hd).
  rewrite Hl, (per_frame_same_type _ _ Ht).
  unfold sequence_lengths, per_frame. cbn [map zip_with ChannelData.init
    ChannelData.position ChannelData.rotation ChannelData.normal
    ChannelData.alpha ChannelData.uv_1 ChannelData.uv_2 ChannelData.uv_3
    ChannelData.uv_4 ChannelData.texture_animation ChannelData.scale length].
  reflexivity.
Qed.

End AnimationLengths.

Lemma animation_header_and_descriptors_witness :
  exists anim,
    @AnimationData.load_data ascii_runtime AnimationData.init
      (Examples.zmo_one_channel 1 (TrackType.ALPHA + TrackType.SCALE)
         [Examples.half; Examples.two]) = Ret anim [] /\
    length (AnimationData.channels anim)
    = Z.to_nat (AnimationData.channel_count anim).
Proof.
  assert (E : exists anim,
            @AnimationData.load_data ascii_runtime AnimationData.init
              (Examples.zmo_one_channel 1 (TrackType.ALPHA + TrackType.SCALE)
                 [Examples.half; Examples.two]) = Ret anim [])
    by (eexists; vm_compute; reflexivity).
  destruct E as [anim E]. exists anim. split; [exact E|].
  destruct (@animation_header_and_descriptors ascii_runtime _ _ _ E)
    as (? & ? & ? & ? & ? & ? & _ & _ & _ & _ & _ & _ & Hlen).
  exact Hlen.
Defined.

Lemma animation_sequence_lengths_witness :
  exists anim c,
    @AnimationData.load_data ascii_runtime AnimationData.init
      (Examples.zmo_one_channel 3 6
         [Examples.one; Examples.two; Examples.half;
          Examples.one; Examples.two; Examples.half;
          Examples.one; Examples.two; Examples.half]) = Ret anim [] /\
    AnimationData.channels anim = [c] /\
    sequence_lengths c = [3; 0; 0; 0; 0; 0; 0; 0; 0; 0]%nat.
Proof.
  eexists _, _.
  split; [vm_compute; reflexivity|]. split; [reflexivity|].
  etrans.
  - eapply (@animation_sequence_lengths ascii_runtime
              (Examples.zmo_one_channel 3 6
                 [Examples.one; Examples.two; Examples.half;
                  Examples.one; Examples.two; Examples.half;
                  Examples.one; Examples.two; Examples.half]) _ []).
    + vm_compute. reflexivity.
    + constructor.
  - reflexivity.
Defined.

(** ** Animations: truncated files *)

Section AnimationStrict.
Context `{Runtime}.

Lemma strict_load_channel_frame c alpha :
  strict (AnimationData.load_channel_frame c alpha).
Proof.
  unfold AnimationData.load_channel_frame,
    AnimationData.load_position_or_rotation.
  strict_tac.
Qed.

Lemma strict_setup_channels self : strict (AnimationData._setup_channels self).
Proof. unfold AnimationData._setup_channels. strict_tac. Qed.

Lemma strict_load_channel_data self :
  strict (AnimationData._load_channel_data self).
Proof.
  unfold AnimationData._load_channel_data. apply strict_bind; [|strict_tac].
  apply strict_for_each. intros i st. unfold AnimationData.load_frame.
  apply strict_for_each. intros j [chs alpha].
  unfold AnimationData.load_channel_at.
  destruct (chs !! j); [|apply strict_raise].
  apply strict_bind; [apply strict_load_channel_frame|strict_tac].
Qed.

(** X10. An animation file is read front to back without any leniency:
    when the load returns, it has consumed a prefix of the file; the
    bytes behind that prefix are not looked at; and on every file that
    stops inside the prefix, behind the eight bytes of the format code,
    the load raises struct.error. *)
Theorem animation_truncation_is_fatal s anim r :
  AnimationData.load_data AnimationData.init s = Ret anim r ->
  (8 + length r <= length s)%nat /\
  (forall r',
     AnimationData.load_data AnimationData.init
       (take (length s - length r) s ++ r') = Ret anim r') /\
  (forall k,
     (8 <= k)%nat -> (k < length s - length r)%nat ->
     AnimationData.load_data AnimationData.init (take k s)
     = Raise struct_error []).
Proof.
  set (K := fun format_code : pystr =>
              fps <- read_i32 ;;
              frame_count <- read_i32 ;;
              self <- AnimationData._setup_channels
                        (AnimationData.mk format_code fps frame_count 0 []) ;;
              AnimationData._load_channel_data self).
  assert (HK : forall format_code, strict (K format_code)).
  { intros format_code. unfold K.
    apply strict_bind; [apply strict_read_i32|intros fps].
    apply strict_bind; [apply strict_read_i32|intros frame_count].
    apply strict_bind;
      [apply strict_setup_channels|intros; apply strict_load_channel_data]. }
  assert (Hsplit : forall s,
            AnimationData.load_data AnimationData.init s
            = bind (read_fstr 8) K s).
  { intros s'. unfold AnimationData.load_data, AnimationData._load_settings, K.
    unfold bind.
    destruct (read_fstr 8 s') as [tok s0| |]; [|done|done].
    destruct (read_i32 s0) as [fps s1| |]; [|done|done].
    destruct (read_i32 s1) as [fc s2| |]; reflexivity. }
  intros E. rewrite Hsplit in E. bind_inv E. rename a into tok.
  unfold read_fstr, f_read, bind in E0.
  unfold decode in E0.
  destruct (euc_kr_decode (take 8 s)) as [tok'|] eqn:Hd; [|discriminate].
  apply ret_inv in E0 as [-> ->].
  destruct (HK tok' _ _ _ E) as (p & Hp & Hsame & Hcut).
  assert (Hlen : (8 <= length s)%nat).
  { destruct (decide (8 <= length s)%nat) as [|Hs]; [done|exfalso].
    rewrite drop_ge in Hp by lia.
    symmetry in Hp. apply app_eq_nil in Hp as [-> ->].
    rewrite drop_ge in E by lia.
    unfold K in E. bind_inv E. discriminate. }
  assert (Hs : s = take 8 s ++ p ++ r).
  { rewrite <- Hp. now rewrite take_drop. }
  assert (Hl : length s = (8 + length p + length r)%nat).
  { rewrite Hs at 1. rewrite !length_app, length_take. lia. }
  assert (Htok : forall t,
            read_fstr 8 ((take 8 s ++ t)) = Ret tok' t).
  { intros t. unfold read_fstr, f_read, bind.
    rewrite take_app_length', drop_app_length' by (rewrite length_take; lia).
    unfold decode. now rewrite Hd. }
  split; [lia|]. split.
  - intros r'. rewrite Hsplit.
    replace (take (length s - length r) s) with (take 8 s ++ p).
    + rewrite <- app_assoc. rewrite (bind_Ret _ _ _ _ _ (Htok _)).
      apply Hsame.
    + symmetry. etrans; [apply (f_equal (take _) Hs)|].
      rewrite app_assoc. rewrite take_app_length'; [done|].
      rewrite length_app, length_take. lia.
  - intros k Hk8 Hk. rewrite Hsplit.
    replace (take k s) with (take 8 s ++ take (k - 8) p).
    + rewrite (bind_Ret _ _ _ _ _ (Htok _)). apply Hcut. lia.
    + symmetry. etrans; [apply (f_equal (take _) Hs)|].
      rewrite take_app_ge by (rewrite length_take; lia).
      rewrite length_take, Nat.min_l by lia.
      rewrite take_app_le by lia. done.
Qed.

End AnimationStrict.

Lemma animation_truncation_is_fatal_witness :
  @AnimationData.load_data ascii_runtime AnimationData.init
    (take 35
       (Examples.zmo_one_channel 1 (TrackType.ALPHA + TrackType.SCALE)
          [Examples.half; Examples.two]))
  = Raise struct_error [].
Proof.
  assert (E : exists anim,
            @AnimationData.load_data ascii_runtime AnimationData.init
              (Examples.zmo_one_channel 1 (TrackType.ALPHA + TrackType.SCALE)
                 [Examples.half; Examples.two]) = Ret anim [])
    by (eexists; vm_compute; reflexivity).
  destruct E as [anim E].
  destruct (@animation_truncation_is_fatal ascii_runtime _ _ _ E)
    as (_ & _ & Hcut).
  apply Hcut; [lia|vm_compute; lia].
Defined.

(** ** Animations: the local variable [alpha] *)

Section AnimationAlpha.
Context `{Runtime}.

(** A frame entered with [alpha] unbound, over channels without the ALPHA
    bit, leaves it unbound and comes to its end only if no channel has the
    TEXTUREANIM or the SCALE bit. *)
Lemma frame_without_alpha todo :
  forall done_ s chs' alpha' r,
    Forall (fun c => ChannelData.alpha_enabled c = false) todo ->
    for_each (seq (length done_) (length todo)) AnimationData.load_channel_at
      (done_ ++ todo, None) s = Ret (chs', alpha') r ->
    Forall (fun c => ChannelData.textureanim_enabled c = false /\
                     ChannelData.scale_enabled c = false) todo.
Proof.
  induction todo as [|c todo IH]; intros done_ s chs' alpha' r Ha E;
    [constructor|].
  pose proof (Forall_inv Ha) as Hc. apply Forall_inv_tail in Ha.
  cbn [length seq for_each] in E. bind_inv E.
  unfold AnimationData.load_channel_at in E0.
  rewrite list_lookup_middle in E0 by done.
  bind_inv E0. apply ret_inv in E0 as [-> ->].
  destruct a0 as [c1 alpha1]. cbn [fst snd] in E.
  apply load_channel_frame_facts in E1 as (_ & Hkeep & Hnone).
  specialize (Hkeep Hc). subst alpha1.
  constructor; [now apply Hnone|].
  rewrite (insert_app_r_alt done_ (c :: todo)) in E by lia.
  rewrite Nat.sub_diag in E. cbn [insert list_insert] in E.
  replace (done_ ++ c1 :: todo) with ((done_ ++ [c1]) ++ todo) in E
    by now rewrite <- app_assoc.
  replace (S (length done_)) with (length (done_ ++ [c1])) in E
    by (rewrite length_app; cbn; lia).
  now apply IH in E.
Qed.

(** X11. The values appended to the texture-animation and scale
    sequences come from the local variable [alpha], which only a channel
    with the ALPHA bit assigns. So no animation with at least one frame is
    ever loaded with a channel that has the TEXTUREANIM or the SCALE bit
    unless some channel has the ALPHA bit: without one the load raises
    (UnboundLocalError, or struct.error if the file stops earlier). *)
Theorem texture_animation_needs_alpha s anim r :
  AnimationData.load_data AnimationData.init s = Ret anim r ->
  0 < AnimationData.frame_count anim ->
  Forall (fun c => ChannelData.alpha_enabled c = false)
    (AnimationData.channels anim) ->
  Forall (fun c => ChannelData.textureanim_enabled c = false /\
                   ChannelData.scale_enabled c = false)
    (AnimationData.channels anim).
Proof.
  unfold AnimationData.load_data. intros E Hfc Ha. bind_inv E. bind_inv E.
  unfold AnimationData._load_settings in E0.
  bind_inv E0. bind_inv E0. bind_inv E0. apply ret_inv in E0 as [-> ->].
  apply setup_channels_descriptors in E1 as (cc & s5 & ds & Hcc & Hds & ->).
  pose proof E as E'.
  apply (load_channel_data_related (grown 1) grown) in E'
    as (_ & _ & Hfc' & _ & HF);
    [|exact load_channel_frame_grown|exact grown_0|exact grown_step].
  cbn in Hfc', HF. rewrite Hfc' in Hfc.
  set (chs0 := map (fun d : Z * Z => ChannelData.init d.1 d.2) ds) in *.
  assert (Ha0 : Forall (fun c => ChannelData.alpha_enabled c = false) chs0).
  { eapply Forall2_Forall_l; [exact HF|].
    eapply Forall_impl; [|exact Ha].
    intros c' Hc' c (Ht & _). unfold ChannelData.alpha_enabled in *.
    now rewrite <- (enabled_same_type _ _ _ Ht). }
  assert (H0 : Forall (fun c => ChannelData.textureanim_enabled c = false /\
                                ChannelData.scale_enabled c = false) chs0).
  { unfold AnimationData._load_channel_data in E. bind_inv E.
    cbn [AnimationData.frame_count AnimationData.channels app] in E0.
    unfold range in E0.
    destruct (Z.to_nat a3) as [|n] eqn:En; [lia|].
    cbn [seq for_each] in E0. bind_inv E0.
    match goal with
    | Ef : AnimationData.load_frame _ _ _ = Ret ?st _ |- _ =>
        unfold AnimationData.load_frame in Ef; cbn [fst] in Ef;
        destruct st as [chs1 alpha1];
        now apply (frame_without_alpha chs0 []) in Ef
    end. }
  eapply Forall2_Forall_r; [exact HF|].
  eapply Forall_impl; [|exact H0].
  intros c [Hc1 Hc2] c' (Ht & _).
  unfold ChannelData.textureanim_enabled, ChannelData.scale_enabled in *.
  now rewrite !(enabled_same_type _ _ _ Ht).
Qed.

End AnimationAlpha.

Lemma texture_animation_needs_alpha_witness :
  exists anim,
    @AnimationData.load_data ascii_runtime AnimationData.init
      (Examples.zmo_one_channel 3 6
         [Examples.one; Examples.two; Examples.half;
          Examples.one; Examples.two; Examples.half;
          Examples.one; Examples.two; Examples.half]) = Ret anim [] /\
    Forall (fun c => ChannelData.textureanim_enabled c = false /\
                     ChannelData.scale_enabled c = false)
      (AnimationData.channels anim).
Proof.
  eexists. split; [vm_compute; reflexivity|].
  eapply (@texture_animation_needs_alpha ascii_runtime
            (Examples.zmo_one_channel 3 6
               [Examples.one; Examples.two; Examples.half;
                Examples.one; Examples.two; Examples.half;
                Examples.one; Examples.two; Examples.half]) _ []).
  - vm_compute. reflexivity.
  - reflexivity.
  - constructor; [reflexivity|constructor].
Defined.

(** ** Meshes: the attributes of the vertices follow the format word *)

Section MeshFormat.
Import MeshImportData.

Lemma enabled_same_format bit (a b : t) :
  format a = format b -> enabled bit a = enabled bit b.
Proof. unfold enabled. now intros ->. Qed.

Lemma after_passes_format k (a b : t) v :
  format a = format b -> after_passes k a v -> after_passes k b v.
Proof.
  intros E. unfold after_passes, positions_enabled, normals_enabled,
    colors_enabled, bones_enabled, tangents_enabled, uv1_enabled, uv2_enabled,
    uv3_enabled, uv4_enabled, enabled.
  now rewrite E.
Qed.

Lemma after_passes_init m : after_passes 0 m Vertex.init.
Proof. unfold after_passes. cbn. repeat split; done. Qed.

Lemma zip_with_Forall {X} (P Q : Vertex.t -> Prop)
    (upd : X -> Vertex.t -> Vertex.t) :
  (forall x v, P v -> Q (upd x v)) ->
  forall xs vs,
    length xs = length vs -> Forall P vs -> Forall Q (zip_with upd xs vs).
Proof.
  intros Hupd. induction xs as [|x xs IH]; intros [|v vs] Hl HP;
    try discriminate; [constructor|].
  cbn [zip_with]. constructor.
  - apply Hupd. now apply Forall_inv in HP.
  - apply IH; [cbn in Hl; lia|now apply Forall_inv_tail in HP].
Qed.

Lemma when_vertex_pass_stage {X} (P Q : Vertex.t -> Prop) flag n (rd : io X)
    upd self s m r :
  length (vertices self) = Z.to_nat n ->
  (flag = false -> forall v, P v -> Q v) ->
  (flag = true -> forall x v, P v -> Q (upd x v)) ->
  Forall P (vertices self) ->
  when flag (vertex_pass n rd upd) self s = Ret m r ->
  Forall Q (vertices m).
Proof.
  intros Hl Hf Ht HP. unfold when. destruct flag.
  - rewrite vertex_pass_read_list by done. intros E. bind_inv E.
    apply ret_inv in E as [-> _]. cbn [vertices set_vertices].
    apply read_list_length in E0.
    apply (zip_with_Forall P Q); [now apply Ht|lia|done].
  - intros E. apply ret_inv in E as [-> _].
    eapply Forall_impl; [|exact HP]. now apply Hf.
Qed.

Lemma vertex_assign_Forall (Q : Vertex.t -> Prop) i upd self s m r :
  (forall v, Q v -> Q (upd v)) ->
  Forall Q (vertices self) ->
  vertex_assign i upd self s = Ret m r ->
  Forall Q (vertices m).
Proof.
  intros Hupd HQ. unfold vertex_assign.
  destruct (vertices self !! i) as [v|] eqn:Ev; [|discriminate].
  intros E. apply ret_inv in E as [-> _]. cbn [vertices set_vertices].
  apply Forall_insert; [done|]. apply Hupd.
  rewrite Forall_lookup in HQ. eapply HQ, Ev.
Qed.

Lemma when_bone_pass_stage (P Q : Vertex.t -> Prop) flag n self s m r :
  (forall v, P v -> Q v) ->
  (flag = true -> forall w v, Q v -> Q (Vertex.set_bone_weights w v)) ->
  (flag = true -> forall ix v, Q v -> Q (Vertex.set_bone_indices ix v)) ->
  Forall P (vertices self) ->
  when flag (bone_pass n) self s = Ret m r ->
  Forall Q (vertices m).
Proof.
  intros HPQ Hw Hi HP. assert (HQ : Forall Q (vertices self))
    by (eapply Forall_impl; [|exact HP]; exact HPQ).
  unfold when. destruct flag.
  - unfold bone_pass. intros E.
    refine (for_each_invariant (fun st => Forall Q (vertices st))
              _ _ _ _ _ _ _ _ E); [|exact HQ].
    intros i st s1 st' s1' Hst Ei. bind_inv Ei. bind_inv Ei. bind_inv Ei.
    eapply vertex_assign_Forall in E1; [|now apply Hw|exact Hst].
    eapply vertex_assign_Forall in Ei; [exact Ei|now apply Hi|exact E1].
  - intros E. now apply ret_inv in E as [-> _].
Qed.

(** The side conditions of a pass: what a vertex is after the
    assignment, or without it. *)
Ltac after_passes_side Hflag :=
  unfold after_passes;
  cbn [Nat.ltb Nat.leb andb Vertex.position Vertex.normal Vertex.color
       Vertex.bone_weights Vertex.bone_indices Vertex.tangent
       Vertex.uv_layers Vertex.set_position Vertex.set_normal
       Vertex.set_color Vertex.set_bone_weights Vertex.set_bone_indices
       Vertex.set_tangent Vertex.set_uv_layer];
  let Hl := fresh "Hl" in
  intros (? & ? & ? & ? & ? & Hl & ? & ? & ? & ?);
  rewrite ?Hflag, ?length_insert, ?list_lookup_insert;
  repeat case_decide; try (exfalso; lia);
  intuition (try discriminate; eauto).

Lemma stage_vertex_pass {X} k (flagf : t -> bool) n (rd : io X) upd
    self0 self s m r :
  (forall a b, format a = format b -> flagf a = flagf b) ->
  pass_keeps self0 self ->
  length (vertices self0) = Z.to_nat n ->
  Forall (after_passes k self0) (vertices self) ->
  (flagf self0 = false ->
   forall v, after_passes k self0 v -> after_passes (S k) self0 v) ->
  (flagf self0 = true ->
   forall x v, after_passes k self0 v -> after_passes (S k) self0 (upd x v)) ->
  when (flagf self) (vertex_pass n rd upd) self s = Ret m r ->
  pass_keeps self0 m /\ Forall (after_passes (S k) self0) (vertices m).
Proof.
  intros Hflag Hk Hl HF Hf Ht E. split.
  - eapply pass_keeps_trans; [exact Hk|].
    eapply when_keeps; [|exact E]. intros ? ? ?. apply vertex_pass_keeps.
  - destruct Hk as (Hfmt & _ & Hlen).
    rewrite (Hflag self self0 Hfmt) in E.
    eapply when_vertex_pass_stage; [| | |exact HF|exact E]; [lia|done|done].
Qed.

Lemma stage_bone_pass n self0 self s m r :
  pass_keeps self0 self ->
  Forall (after_passes 3 self0) (vertices self) ->
  when (bones_enabled self) (bone_pass n) self s = Ret m r ->
  pass_keeps self0 m /\ Forall (after_passes 4 self0) (vertices m).
Proof.
  intros Hk HF E. split.
  - eapply pass_keeps_trans; [exact Hk|].
    eapply when_keeps; [|exact E]. intros ? ? ?. apply bone_pass_keeps.
  - destruct Hk as (Hfmt & _ & Hlen).
    assert (Hb : bones_enabled self = bones_enabled self0).
    { unfold bones_enabled. now rewrite !(enabled_same_format _ _ _ Hfmt). }
    rewrite Hb in E.
    eapply when_bone_pass_stage; [| | |exact HF|exact E].
    + intros v. destruct (bones_enabled self0) eqn:Hflag;
        after_passes_side Hflag.
    + intros Hflag w v. after_passes_side Hflag.
    + intros Hflag ix v. after_passes_side Hflag.
Qed.

Lemma load_vertex_passes_stages n self s m r :
  length (vertices self) = Z.to_nat n ->
  Forall (after_passes 0 self) (vertices self) ->
  load_vertex_passes n self s = Ret m r ->
  Forall (after_passes 9 self) (vertices m).
Proof.
  intros Hl H0. unfold load_vertex_passes. intros E.
  pose proof (pass_keeps_refl self) as Hk.
  assert (Hsame : forall bit (a b : t),
            format a = format b -> enabled bit a = enabled bit b)
    by (intros; now apply enabled_same_format).
  bind_inv E.
  eapply (stage_vertex_pass 0 positions_enabled) in E0 as [Hk1 H1];
    [|apply Hsame|exact Hk|exact Hl|exact H0
     |intros Hflag v; after_passes_side Hflag
     |intros Hflag x v; after_passes_side Hflag].
  bind_inv E.
  eapply (stage_vertex_pass 1 normals_enabled) in E0 as [Hk2 H2];
    [|apply Hsame|exact Hk1|exact Hl|exact H1
     |intros Hflag v; after_passes_side Hflag
     |intros Hflag x v; after_passes_side Hflag].
  bind_inv E.
  eapply (stage_vertex_pass 2 colors_enabled) in E0 as [Hk3 H3];
    [|apply Hsame|exact Hk2|exact Hl|exact H2
     |intros Hflag v; after_passes_side Hflag
     |intros Hflag x v; after_passes_side Hflag].
  bind_inv E.
  eapply stage_bone_pass in E0 as [Hk4 H4]; [|exact Hk3|exact H3].
  bind_inv E.
  eapply (stage_vertex_pass 4 tangents_enabled) in E0 as [Hk5 H5];
    [|apply Hsame|exact Hk4|exact Hl|exact H4
     |intros Hflag v; after_passes_side Hflag
     |intros Hflag x v; after_passes_side Hflag].
  bind_inv E.
  eapply (stage_vertex_pass 5 uv1_enabled) in E0 as [Hk6 H6];
    [|apply Hsame|exact Hk5|exact Hl|exact H5
     |intros Hflag v; after_passes_side Hflag
     |intros Hflag x v; after_passes_side Hflag].
  bind_inv E.
  eapply (stage_vertex_pass 6 uv2_enabled) in E0 as [Hk7 H7];
    [|apply Hsame|exact Hk6|exact Hl|exact H6
     |intros Hflag v; after_passes_side Hflag
     |intros Hflag x v; after_passes_side Hflag].
  bind_inv E.
  eapply (stage_vertex_pass 7 uv3_enabled) in E0 as [Hk8 H8];
    [|apply Hsame|exact Hk7|exact Hl|exact H7
     |intros Hflag v; after_passes_side Hflag
     |intros Hflag x v; after_passes_side Hflag].
  eapply (stage_vertex_pass 8 uv4_enabled) in E as [Hk9 H9];
    [|apply Hsame|exact Hk8|exact Hl|exact H8
     |intros Hflag v; after_passes_side Hflag
     |intros Hflag x v; after_passes_side Hflag].
  exact H9.
Qed.

(** X12. In every mesh that [load] returns, each vertex follows the
    format word. An attribute whose bit is unset is as [Vertex()] made it:
    zero position, normal and tangent, the plain default colour, no UV
    pair in its slot. The bone weights and bone indices are zero unless
    both the BONEWEIGHT and the BONEINDEX bits are set. With the COLOR bit
    every vertex carries a colour with its alpha, and with a UV bit every
    vertex has a pair in that slot. Every vertex has exactly four UV
    slots. *)
Theorem mesh_vertices_follow_format `{Runtime} s m r :
  load init s = Ret m r -> Forall (follows_format m) (vertices m).
Proof.
  unfold load. intros E. bind_inv E. destruct a as [self0 version].
  apply load_identifier_inv in E0 as (Hv0 & _ & _).
  bind_inv E. apply load_pool_keeps in E as [Hfmt Hvs].
  apply load_sections_keeps in E0
    as (_ & self1 & vert_count & t1 & m1 & t2 & Eh & Ep & _ & Hf1 & Hv1).
  apply load_header_facts in Eh as [_ Hh].
  rewrite Hv0 in Hh. cbn [vertices init app] in Hh.
  apply load_vertex_passes_stages in Ep.
  - rewrite Hvs, Hv1. unfold follows_format.
    eapply Forall_impl; [|exact Ep].
    intros v. apply after_passes_format. congruence.
  - rewrite Hh. apply length_replicate.
  - rewrite Hh. apply Forall_replicate, after_passes_init.
Qed.

End MeshFormat.

Lemma mesh_vertices_follow_format_witness :
  exists m,
    @MeshImportData.load ascii_runtime MeshImportData.init
      Examples.zms7_two_vertices = Ret m [] /\
    Forall (follows_format m) (MeshImportData.vertices m).
Proof.
  eexists. split; [vm_compute; reflexivity|].
  eapply (@mesh_vertices_follow_format ascii_runtime
            Examples.zms7_two_vertices _ []).
  vm_compute. reflexivity.
Defined.

(** ** Meshes: the lists handed to Blender *)

Lemma fold_left_append {A B} (f : A -> list B) (l : list A) :
  forall acc, fold_left (fun acc x => acc ++ f x) l acc = acc ++ flat_map f l.
Proof.
  induction l as [|x l IH]; intros acc; cbn [fold_left flat_map].
  - now rewrite app_nil_r.
  - rewrite IH. now rewrite <- app_assoc.
Qed.

Lemma fold_left_ext {A B} (f g : B -> A -> B) (l : list A) :
  (forall acc x, f acc x = g acc x) ->
  forall acc, fold_left f l acc = fold_left g l acc.
Proof.
  intros Hfg. induction l as [|x l IH]; intros acc; [done|].
  cbn [fold_left]. now rewrite Hfg, IH.
Qed.

Lemma edges_flat_map self :
  MeshImportData.edges self
  = flat_map (fun face : Z * Z * Z =>
                [(face.1.1, face.1.2); (face.1.2, face.2); (face.2, face.1.2)])
      (MeshImportData.indices self).
Proof.
  unfold MeshImportData.edges.
  rewrite <- (app_nil_l (flat_map _ _)), <- fold_left_append.
  apply fold_left_ext. intros acc [[x y] z]. cbn. now rewrite <- !app_assoc.
Qed.

(** X13. The lists built for [from_pydata]. The positions are those of
    the vertices, in order, and the faces are the triangles as read. The
    edge list has three entries for each triangle (x, y, z): x to y, y to
    z, and z back to y. So an edge is listed if and only if it is one of
    these three for some triangle: the edge between the third and the
    first corner is not among the edges of its own triangle. *)
Theorem mesh_geometry_lists self :
  MeshImportData.vertex_positions self
  = map Vertex.position (MeshImportData.vertices self) /\
  MeshImportData.faces self = MeshImportData.indices self /\
  length (MeshImportData.edges self)
  = (3 * length (MeshImportData.indices self))%nat /\
  (forall a c,
     (a, c) ∈ MeshImportData.edges self <->
     exists x y z,
       (x, y, z) ∈ MeshImportData.indices self /\
       ((a, c) = (x, y) \/ (a, c) = (y, z) \/ (a, c) = (z, y))).
Proof.
  split; [|split; [|split]].
  - unfold MeshImportData.vertex_positions.
    rewrite (fold_left_ext _ (fun acc v => acc ++ [Vertex.position v]))
      by (intros acc v; now destruct (Vertex.position v) as [[? ?] ?]).
    rewrite (fold_left_append (fun v => [Vertex.position v])). cbn [app].
    induction (MeshImportData.vertices self) as [|v l IH]; [done|].
    cbn. now rewrite IH.
  - unfold MeshImportData.faces.
    rewrite (fold_left_ext _ (fun acc face => acc ++ [face]))
      by (now intros acc [[? ?] ?]).
    rewrite (fold_left_append (fun face => [face])). cbn [app].
    induction (MeshImportData.indices self) as [|v l IH]; [done|].
    cbn. now rewrite IH.
  - rewrite edges_flat_map.
    induction (MeshImportData.indices self) as [|v l IH]; [done|].
    cbn [flat_map length app]. rewrite IH. lia.
  - intros a c. rewrite edges_flat_map, list_elem_of_In, in_flat_map.
    split.
    + intros ([[x y] z] & Hin & Hac). exists x, y, z.
      split; [now apply list_elem_of_In|].
      cbn in Hac. destruct Hac as [ <- | [ <- | [ <- | [] ] ] ]; auto.
    + intros (x & y & z & Hin & Hac). exists (x, y, z).
      split; [now apply list_elem_of_In|].
      cbn. destruct Hac as [ -> | [ -> | -> ] ]; auto.
Qed.

(** ** The exporter: sorting the dummies *)

Lemma py_startswith_spec sub :
  forall s, py_startswith s sub = true <-> exists post, s = sub ++ post.
Proof.
  induction sub as [|x sub IH]; intros s.
  - destruct s; cbn; split; eauto.
  - destruct s as [|y s]; cbn [py_startswith].
    + split; [discriminate|]. intros (post & Hs). discriminate.
    + rewrite andb_true_iff, bool_decide_eq_true, IH. split.
      * intros (-> & post & ->). now exists post.
      * intros (post & Hs). injection Hs as -> ->. eauto.
Qed.

(** [py_in] is Python's [in] on strings: an occurrence as a run of
    consecutive characters. *)
Lemma py_in_spec sub s :
  py_in sub s = true <-> exists pre post, s = pre ++ sub ++ post.
Proof.
  induction s as [|y s IH]; cbn [py_in]; rewrite orb_true_iff.
  - rewrite py_startswith_spec. split.
    + intros [(post & Hs)|Hf]; [|discriminate]. now exists [], post.
    + intros (pre & post & Hs). left.
      destruct pre; [now exists post|discriminate].
  - rewrite py_startswith_spec, IH. split.
    + intros [(post & Hs)|(pre & post & ->)].
      * now exists [], post.
      * now exists (y :: pre), post.
    + intros (pre & post & Hs). destruct pre as [|z pre].
      * left. now exists post.
      * right. injection Hs as -> ->. now exists pre, post.
Qed.

Lemma fold_left_filter {A} (p : A -> bool) (l : list A) :
  forall acc,
    fold_left (fun acc x => if p x then acc ++ [x] else acc) l acc
    = acc ++ List.filter p l.
Proof.
  induction l as [|x l IH]; intros acc; cbn [fold_left List.filter].
  - now rewrite app_nil_r.
  - rewrite IH. destruct (p x); [now rewrite <- app_assoc|done].
Qed.

Section SortDummies.
Import zmd_export.

Lemma sort_dummies_flat_map self :
  Skeleton.dummies (Skeleton._sort_dummies self)
  = flat_map
      (fun i =>
         List.filter
           (fun dummy => py_in (Skeleton.mark i) (BoneData.name dummy))
           (Skeleton.dummies self))
      (seq 0 (length (Skeleton.dummies self))).
Proof.
  unfold Skeleton._sort_dummies. cbn [Skeleton.dummies].
  unfold range. rewrite Nat2Z.id.
  rewrite (fold_left_ext _
             (fun acc i =>
                acc ++ List.filter
                         (fun dummy =>
                            py_in (Skeleton.mark i) (BoneData.name dummy))
                         (Skeleton.dummies self)))
    by (intros acc i; apply fold_left_filter).
  now rewrite fold_left_append.
Qed.

(** X14. [_sort_dummies] keeps a dummy once for every number [i] below
    the number of dummies whose mark, the character 0 followed by the
    decimal digits of [i], occurs in its name: the dummies with the mark
    of 0 first, then those with the mark of 1, and so on, each group in
    the order the dummies had. A dummy whose name holds none of these
    marks is dropped; in particular one whose name has no character 0.
    The bones are left as they are. *)
Theorem sort_dummies_keeps_marked self :
  Skeleton.bones (Skeleton._sort_dummies self) = Skeleton.bones self /\
  Skeleton.dummies (Skeleton._sort_dummies self)
  = flat_map
      (fun i =>
         List.filter
           (fun dummy => py_in (Skeleton.mark i) (BoneData.name dummy))
           (Skeleton.dummies self))
      (seq 0 (length (Skeleton.dummies self))) /\
  (forall dummy,
     dummy ∈ Skeleton.dummies (Skeleton._sort_dummies self) <->
     dummy ∈ Skeleton.dummies self /\
     exists i pre post,
       (i < length (Skeleton.dummies self))%nat /\
       BoneData.name dummy = pre ++ Skeleton.mark i ++ post) /\
  (forall dummy,
     48%N ∉ BoneData.name dummy ->
     dummy ∉ Skeleton.dummies (Skeleton._sort_dummies self)).
Proof.
  assert (Hiff : forall dummy,
            dummy ∈ Skeleton.dummies (Skeleton._sort_dummies self) <->
            dummy ∈ Skeleton.dummies self /\
            exists i pre post,
              (i < length (Skeleton.dummies self))%nat /\
              BoneData.name dummy = pre ++ Skeleton.mark i ++ post).
  { intros dummy. rewrite sort_dummies_flat_map, list_elem_of_In, in_flat_map.
    split.
    - intros (i & Hi & Hd). apply in_seq in Hi.
      apply filter_In in Hd as [Hd Hm]. apply py_in_spec in Hm as (pre & post & Hn).
      split; [now apply list_elem_of_In|]. exists i, pre, post. split; [lia|done].
    - intros (Hd & i & pre & post & Hi & Hn). exists i.
      split; [apply in_seq; lia|]. apply filter_In.
      split; [now apply list_elem_of_In|]. apply py_in_spec. eauto. }
  split; [done|]. split; [apply sort_dummies_flat_map|]. split; [exact Hiff|].
  intros dummy H0 Hin. apply Hiff in Hin as (_ & i & pre & post & _ & Hn).
  apply H0. rewrite Hn. unfold Skeleton.mark.
  change (pystr_of_string "0") with [48%N].
  apply elem_of_app. right. cbn [app]. apply elem_of_cons. now left.
Qed.

End SortDummies.

(** ** The importer: the rotation inherited from the parents *)

Lemma py_index_elem_of {A} (l : list A) i x : py_index l i = Some x -> x ∈ l.
Proof.
  unfold py_index. repeat case_decide; try discriminate;
    apply list_elem_of_lookup_2.
Qed.

Lemma py_index_nat {A} (l : list A) i :
  0 <= i -> py_index l i = l !! Z.to_nat i.
Proof. intros Hi. unfold py_index. now rewrite decide_True by done. Qed.

Lemma print_data_parents sk s s' :
  SkeletonData._print_data sk s = Ret tt s' ->
  Forall (fun bone =>
            - Z.of_nat (length (SkeletonData.bones sk))
              <= BoneData.parent bone
              < Z.of_nat (length (SkeletonData.bones sk)))
    (SkeletonData.bones sk ++ SkeletonData.dummies sk).
Proof.
  intros E.
  set (ok := fun bone =>
               - Z.of_nat (length (SkeletonData.bones sk))
                 <= BoneData.parent bone
                 < Z.of_nat (length (SkeletonData.bones sk))).
  destruct (decide (Forall ok (SkeletonData.bones sk ++ SkeletonData.dummies sk)))
    as [Hall|Hsome]; [exact Hall|exfalso].
  apply not_Forall_Exists in Hsome; [|intros x; apply _].
  apply Exists_app in Hsome.
  unfold SkeletonData._print_data, bind in E.
  destruct (decide (Forall ok (SkeletonData.bones sk))) as [Hb|Hb].
  - rewrite print_bone_list_all in E by exact Hb.
    destruct Hsome as [Hsome|Hsome].
    { apply Exists_exists in Hsome as (x & Hx & Hnx).
      rewrite Forall_forall in Hb. apply Hnx, Hb, Hx. }
    destruct (SkeletonData.dummies sk) as [|d ds] eqn:Ed; [inversion Hsome|].
    rewrite print_bone_list_some in E by exact Hsome. discriminate.
  - apply not_Forall_Exists in Hb; [|intros x; apply _].
    rewrite print_bone_list_some in E by exact Hb. discriminate.
Qed.

Section ParentWalk.
Import zmd_import.
Variable quat_mul : Quaternion -> Quaternion -> Quaternion.

Lemma parent_rotation_loop_ordered bones :
  (forall i bone,
     (0 < i)%nat -> bones !! i = Some bone ->
     0 <= BoneData.parent bone < Z.of_nat i) ->
  forall fuel current rotation,
    0 <= current < Z.of_nat (length bones) ->
    (Z.to_nat current < fuel)%nat ->
    exists q,
      Skeleton.parent_rotation_loop quat_mul fuel bones current rotation
      = Returns q.
Proof.
  intros Hord. induction fuel as [|fuel IH]; intros current rotation Hc Hf;
    [lia|].
  cbn [Skeleton.parent_rotation_loop]. rewrite py_index_nat by lia.
  destruct (lookup_lt_is_Some_2 bones (Z.to_nat current)) as [bone Hb]; [lia|].
  rewrite Hb. destruct (decide (current = 0)) as [->|Hne]; [eauto|].
  pose proof (Hord (Z.to_nat current) bone ltac:(lia) Hb) as Hp.
  apply IH; lia.
Qed.

Lemma parent_rotation_loop_stable bones :
  forall fuel current rotation q,
    Skeleton.parent_rotation_loop quat_mul fuel bones current rotation
    = Returns q ->
    forall fuel',
      (fuel <= fuel')%nat ->
      Skeleton.parent_rotation_loop quat_mul fuel' bones current rotation
      = Returns q.
Proof.
  induction fuel as [|fuel IH]; intros current rotation q E fuel' Hf;
    [discriminate|].
  destruct fuel' as [|fuel']; [lia|].
  cbn [Skeleton.parent_rotation_loop] in *.
  destruct (py_index bones current) as [bone|]; [|discriminate].
  destruct (decide (current = 0)); [done|].
  eapply IH; [exact E|lia].
Qed.

(** X15. The walk up the parents that [_get_parent_rotation] makes
    comes to its end whenever every bone but the first has an earlier
    bone as its parent and every dummy has a bone as its parent: within
    as many iterations as there are bones it reaches bone 0 and returns.
    For the index 0, of a bone or of a dummy, no iteration is made at all
    and the result is the identity, whatever the parent is. *)
Theorem parent_walk_ends data index (is_dummy : bool) :
  (forall i bone,
     (0 < i)%nat -> SkeletonData.bones data !! i = Some bone ->
     0 <= BoneData.parent bone < Z.of_nat i) ->
  (forall dummy,
     dummy ∈ SkeletonData.dummies data ->
     0 <= BoneData.parent dummy
       < Z.of_nat (length (SkeletonData.bones data))) ->
  0 <= index
    < Z.of_nat (length (if is_dummy then SkeletonData.dummies data
                        else SkeletonData.bones data)) ->
  exists q,
    (forall fuel,
       (length (SkeletonData.bones data) <= fuel)%nat ->
       Skeleton._get_parent_rotation quat_mul fuel data index is_dummy
       = Returns q) /\
    (index = 0 -> q = Quaternion_identity).
Proof.
  intros Hord Hdum Hi. unfold Skeleton._get_parent_rotation.
  rewrite py_index_nat by lia.
  destruct (lookup_lt_is_Some_2
              (if is_dummy then SkeletonData.dummies data
               else SkeletonData.bones data) (Z.to_nat index))
    as [bone Hb]; [lia|].
  rewrite Hb. destruct (decide (index <> 0)) as [Hne|He].
  - assert (Hp : 0 <= BoneData.parent bone
                 < Z.of_nat (length (SkeletonData.bones data)) /\
                 (Z.to_nat (BoneData.parent bone)
                  < length (SkeletonData.bones data))%nat).
    { destruct is_dummy.
      - apply list_elem_of_lookup_2 in Hb. apply Hdum in Hb. lia.
      - pose proof (Hord (Z.to_nat index) bone ltac:(lia) Hb). lia. }
    destruct (parent_rotation_loop_ordered _ Hord
                (length (SkeletonData.bones data)) (BoneData.parent bone)
                Quaternion_identity) as [q Hq]; [lia|lia|].
    exists q. split; [|lia].
    intros fuel Hf. eapply parent_rotation_loop_stable; eauto.
  - exists Quaternion_identity. split; done.
Qed.

Lemma parent_rotation_loop_cycle bones (P : Z -> Prop) :
  (forall c, P c ->
     c <> 0 /\
     exists bone, py_index bones c = Some bone /\ P (BoneData.parent bone)) ->
  forall fuel current rotation,
    P current ->
    Skeleton.parent_rotation_loop quat_mul fuel bones current rotation
    = Running.
Proof.
  intros HP. induction fuel as [|fuel IH]; intros current rotation Hc; [done|].
  cbn [Skeleton.parent_rotation_loop].
  destruct (HP current Hc) as (Hne & bone & -> & Hp).
  rewrite decide_False by done. now apply IH.
Qed.

(** X16. Nothing in the walk of [_get_parent_rotation] looks for a
    cycle. When the parent of the bone or dummy asked for lies in a set
    of indices of bones that does not contain 0 and that holds the parent
    of each of its members, the loop is still running after any number of
    iterations: it never returns and never raises. A bone other than bone
    0 that is its own parent is such a set. *)
Theorem parent_walk_never_ends data index (is_dummy : bool) bone
    (P : Z -> Prop) :
  (forall c, P c ->
     c <> 0 /\
     exists b,
       py_index (SkeletonData.bones data) c = Some b /\
       P (BoneData.parent b)) ->
  py_index (if is_dummy then SkeletonData.dummies data
            else SkeletonData.bones data) index = Some bone ->
  index <> 0 ->
  P (BoneData.parent bone) ->
  forall fuel,
    Skeleton._get_parent_rotation quat_mul fuel data index is_dummy = Running.
Proof.
  intros HP Hb Hne Hp fuel. unfold Skeleton._get_parent_rotation.
  rewrite Hb, decide_True by done.
  now apply parent_rotation_loop_cycle with (P := P).
Qed.

Lemma parent_rotation_loop_no_raise bones :
  Forall (fun bone =>
            - Z.of_nat (length bones) <= BoneData.parent bone
              < Z.of_nat (length bones)) bones ->
  forall fuel current rotation e,
    - Z.of_nat (length bones) <= current < Z.of_nat (length bones) ->
    Skeleton.parent_rotation_loop quat_mul fuel bones current rotation
    <> Raises e.
Proof.
  intros Hok. induction fuel as [|fuel IH]; intros current rotation e Hc;
    [done|].
  cbn [Skeleton.parent_rotation_loop].
  destruct (py_index_Some bones current Hc) as [bone Hb]. rewrite Hb.
  destruct (decide (current = 0)); [done|].
  apply IH. apply py_index_elem_of in Hb.
  rewrite Forall_forall in Hok. apply Hok. now apply list_elem_of_In.
Qed.

(** X17. [load_data] and the importer fit together on the parent
    indices: because the listing that ends [load_data] has looked every
    parent up, the walk of [_get_parent_rotation] over a skeleton that
    [load_data] returned never raises IndexError (nor anything else) for
    an index of the bone or dummy list. It returns or runs on. *)
Theorem parent_walk_after_load `{Runtime} s sk r fuel index
    (is_dummy : bool) e :
  SkeletonData.load_data SkeletonData.init s = Ret sk r ->
  - Z.of_nat (length (if is_dummy then SkeletonData.dummies sk
                      else SkeletonData.bones sk))
    <= index
    < Z.of_nat (length (if is_dummy then SkeletonData.dummies sk
                        else SkeletonData.bones sk)) ->
  Skeleton._get_parent_rotation quat_mul fuel sk index is_dummy <> Raises e.
Proof.
  intros E Hi. unfold SkeletonData.load_data in E. bind_inv E. bind_inv E.
  apply ret_inv in E as [-> ->]. destruct a0.
  apply print_data_parents in E1. apply Forall_app in E1 as [Hb Hd].
  unfold Skeleton._get_parent_rotation.
  destruct (py_index_Some _ index Hi) as [bone Hbone]. rewrite Hbone.
  destruct (decide (index <> 0)); [|done].
  apply parent_rotation_loop_no_raise; [exact Hb|].
  apply py_index_elem_of in Hbone.
  destruct is_dummy.
  - rewrite Forall_forall in Hd. apply Hd. now apply list_elem_of_In.
  - rewrite Forall_forall in Hb. apply Hb. now apply list_elem_of_In.
Qed.

End ParentWalk.

Lemma parent_walk_ends_witness :
  exists q,
    forall fuel,
      (2 <= fuel)%nat ->
      zmd_import.Skeleton._get_parent_rotation (fun a _ => a) fuel
        (SkeletonData.mk 3
           [Examples.root_bone;
            BoneData.mk 0 (pystr_of_string "b1") (0, 0, 0)
              (mkQuaternion 0 0 Examples.one 0)]
           [BoneData.mk 1 (pystr_of_string "p_01") (0, 0, 0)
              Quaternion_identity])
        1 false
      = zmd_import.Returns q.
Proof.
  destruct (parent_walk_ends (fun a _ => a)
              (SkeletonData.mk 3
                 [Examples.root_bone;
                  BoneData.mk 0 (pystr_of_string "b1") (0, 0, 0)
                    (mkQuaternion 0 0 Examples.one 0)]
                 [BoneData.mk 1 (pystr_of_string "p_01") (0, 0, 0)
                    Quaternion_identity])
              1 false) as (q & Hq & _).
  - intros [|[|[|i]]] bone Hi Hb; [lia| | |]; cbn in Hb; simplify_eq; cbn; lia.
  - intros dummy Hd. apply elem_of_cons in Hd as [->|Hd]; [cbn; lia|].
    now apply elem_of_nil in Hd.
  - cbn. lia.
  - exists q. exact Hq.
Defined.

Lemma parent_walk_never_ends_witness :
  zmd_import.Skeleton._get_parent_rotation (fun a _ => a) 1000
    (SkeletonData.mk 3
       [Examples.root_bone;
        BoneData.mk 1 (pystr_of_string "b1") (0, 0, 0)
          (mkQuaternion 0 0 Examples.one 0)] [])
    1 false
  = zmd_import.Running.
Proof.
  refine (parent_walk_never_ends (fun a _ => a)
           (SkeletonData.mk 3
              [Examples.root_bone;
               BoneData.mk 1 (pystr_of_string "b1") (0, 0, 0)
                 (mkQuaternion 0 0 Examples.one 0)] [])
           1 false
           (BoneData.mk 1 (pystr_of_string "b1") (0, 0, 0)
              (mkQuaternion 0 0 Examples.one 0))
           (fun c => c = 1) _ _ _ _ 1000%nat).
  - intros c ->. split; [lia|]. eexists. split; reflexivity.
  - reflexivity.
  - lia.
  - reflexivity.
Defined.

Lemma parent_walk_after_load_witness :
  zmd_import.Skeleton._get_parent_rotation (fun a _ => a) 1000
    (@Layout.decoded_skeleton ascii_runtime 3
       [Examples.root_record; Examples.child_record]
       [Examples.dummy_record; Examples.hand_record])
    1 false
  <> zmd_import.Raises IndexError /\
  zmd_import.Skeleton._get_parent_rotation (fun a _ => a) 1000
    (@Layout.decoded_skeleton ascii_runtime 3
       [Examples.root_record; Examples.child_record]
       [Examples.dummy_record; Examples.hand_record])
    (-1) true
  <> zmd_import.Raises IndexError /\
  zmd_import.Skeleton._get_parent_rotation (fun a _ => a) 1000
    (@Layout.decoded_skeleton ascii_runtime 3
       [Examples.root_record; Examples.child_record]
       [Examples.dummy_record; Examples.hand_record])
    (-1) true
  = zmd_import.Returns (mkQuaternion 0 Examples.one 0 0).
Proof.
  assert (E : @SkeletonData.load_data ascii_runtime SkeletonData.init
                Examples.zmd3_two_bones
              = Ret (@Layout.decoded_skeleton ascii_runtime 3
                       [Examples.root_record; Examples.child_record]
                       [Examples.dummy_record; Examples.hand_record]) [])
    by (vm_compute; reflexivity).
  split; [|split].
  - apply (@parent_walk_after_load (fun a _ => a) ascii_runtime _ _ _
             1000%nat 1 false IndexError E).
    cbn. lia.
  - apply (@parent_walk_after_load (fun a _ => a) ascii_runtime _ _ _
             1000%nat (-1) true IndexError E).
    cbn. lia.
  - vm_compute. reflexivity.
Defined.

(** ** Files that stop inside a name *)

Section TruncatedNames.
Context `{Runtime}.

Lemma bind_Hang {A B} (m : io A) (k : A -> io B) s :
  m s = Hang -> bind m k s = Hang.
Proof. intros E. unfold bind. now rewrite E. Qed.

(** X18. A file that stops inside a zero-terminated name is never
    reported as such: the load does not return and does not raise. This is
    so for a mesh file without a zero byte, for a dummy record whose name
    is not terminated, for a bone record that has its four bytes of parent
    index and no zero byte behind them, and so for a skeleton file whose
    first bone record is cut in this way. *)
Theorem truncated_name_never_returns :
  (forall self s, x00 ∉ s -> MeshImportData.load self s = Hang) /\
  (forall self format_v_2 s,
     x00 ∉ s -> BoneData.load_data self true format_v_2 s = Hang) /\
  (forall self format_v_2 s,
     (4 <= length s)%nat -> x00 ∉ drop 4 s ->
     BoneData.load_data self false format_v_2 s = Hang) /\
  (forall s sk1 s1 bone_count s2,
     SkeletonData._load_format_code SkeletonData.init s = Ret sk1 s1 ->
     read_i32 s1 = Ret bone_count s2 ->
     0 < bone_count ->
     (4 <= length s2)%nat -> x00 ∉ drop 4 s2 ->
     SkeletonData.load_data SkeletonData.init s = Hang).
Proof.
  assert (Hbone : forall self format_v_2 s,
            (4 <= length s)%nat -> x00 ∉ drop 4 s ->
            BoneData.load_data self false format_v_2 s = Hang).
  { intros self format_v_2 s Hl Hn. unfold BoneData.load_data.
    cbn [negb]. unfold bind at 1. unfold ret at 1.
    erewrite bind_Ret by (now apply read_i32_long).
    apply bind_Hang, bind_Hang. now apply read_str_unterminated. }
  split; [|split; [|split]].
  - intros self s Hn. unfold MeshImportData.load.
    apply bind_Hang. unfold MeshImportData.load_identifier.
    apply bind_Hang. now apply read_str_unterminated.
  - intros self format_v_2 s Hn. unfold BoneData.load_data.
    apply bind_Hang, bind_Hang. now apply read_str_unterminated.
  - exact Hbone.
  - intros s sk1 s1 bone_count s2 Ef Ec Hc Hl Hn.
    pose proof (load_format_code_inv _ _ _ _ Ef) as (_ & Hb & _).
    unfold SkeletonData.load_data. apply bind_Hang.
    unfold SkeletonData.load_file.
    rewrite (bind_Ret _ _ _ _ _ Ef). apply bind_Hang.
    unfold SkeletonData._load_bones. rewrite (bind_Ret _ _ _ _ _ Ec).
    unfold range. destruct (Z.to_nat bone_count) as [|n] eqn:En; [lia|].
    cbn [seq for_each]. apply bind_Hang.
    unfold SkeletonData.load_bone_at. cbn [SkeletonData.bones
      SkeletonData.set_bones]. rewrite Hb. cbn [SkeletonData.bones
      SkeletonData.init app lookup list_lookup].
    apply bind_Hang. now apply Hbone.
Qed.

End TruncatedNames.

Lemma truncated_name_never_returns_witness :
  @MeshImportData.load ascii_runtime MeshImportData.init (b "ZMS0007") = Hang /\
  @SkeletonData.load_data ascii_runtime SkeletonData.init
    (b "ZMD0002" ++ Layout.i32_bytes 1 ++ Layout.i32_bytes 0 ++ b "roo")
  = Hang.
Proof.
  destruct (@truncated_name_never_returns ascii_runtime)
    as (Hmesh & _ & _ & Hskel).
  split.
  - apply Hmesh. apply mesh_ident_no_nul. reflexivity.
  - apply (Hskel _ (SkeletonData.set_format_code 2 SkeletonData.init)
             (Layout.i32_bytes 1 ++ Layout.i32_bytes 0 ++ b "roo") 1
             (Layout.i32_bytes 0 ++ b "roo")).
    + reflexivity.
    + reflexivity.
    + lia.
    + cbn. lia.
    + apply mesh_ident_no_nul. reflexivity.
Defined.

(** ** Animations: the frames of a file of positions and rotations *)

Section AnimationFrames.
Context `{Runtime}.
Import Layout AnimationLayout.

Lemma flags_of_sample x c :
  ChannelData.type c = tracktype x ->
  ChannelData.positions_enabled c
  = match x with Position _ => true | Rotation _ => false end /\
  ChannelData.rotations_enabled c
  = match x with Position _ => false | Rotation _ => true end /\
  ChannelData.normals_enabled c = false /\
  ChannelData.alpha_enabled c = false /\
  ChannelData.uv1_enabled c = false /\ ChannelData.uv2_enabled c = false /\
  ChannelData.uv3_enabled c = false /\ ChannelData.uv4_enabled c = false /\
  ChannelData.textureanim_enabled c = false /\
  ChannelData.scale_enabled c = false.
Proof.
  intros E.
  unfold ChannelData.positions_enabled, ChannelData.rotations_enabled,
    ChannelData.normals_enabled, ChannelData.alpha_enabled,
    ChannelData.uv1_enabled, ChannelData.uv2_enabled,
    ChannelData.uv3_enabled, ChannelData.uv4_enabled,
    ChannelData.textureanim_enabled, ChannelData.scale_enabled,
    ChannelData.enabled.
  rewrite E. destruct x; vm_compute; repeat split.
Qed.

Lemma append_sample_type x c :
  ChannelData.type (append_sample x c) = ChannelData.type c.
Proof. now destruct x. Qed.

(** The body of the loop on a channel that has the POSITION bit alone or
    the ROTATION bit alone: one value is read and appended. *)
Lemma load_channel_frame_sample x c alpha rest :
  ChannelData.type c = tracktype x ->
  is_sample x = true ->
  AnimationData.load_channel_frame c alpha (sample_bytes x ++ rest)
  = Ret (append_sample x c, alpha) rest.
Proof.
  intros Ht Hx.
  assert (Ht1 : ChannelData.type (append_sample x c) = tracktype x)
    by now rewrite append_sample_type.
  destruct (flags_of_sample x c Ht) as (Hp & Hr & _).
  destruct (flags_of_sample x _ Ht1)
    as (_ & _ & Hn & Ha & H1 & H2 & H3 & H4 & Hta & Hs).
  assert (E : AnimationData.load_position_or_rotation c
                (sample_bytes x ++ rest) = Ret (append_sample x c) rest).
  { unfold AnimationData.load_position_or_rotation. rewrite Hp, Hr.
    destruct x as [[[x y] z]|q]; cbn [sample_bytes append_sample].
    - cbn [is_sample fst snd] in Hx.
      apply andb_true_iff in Hx as [Hx Hz].
      apply andb_true_iff in Hx as [Hx Hy].
      apply is_f32_spec in Hx, Hy, Hz.
      unfold vector3_bytes. rewrite <- !app_assoc.
      rewrite (bind_Ret _ _ _ _ _ (read_f32_pack x _ Hx)).
      rewrite (bind_Ret _ _ _ _ _ (read_f32_pack y _ Hy)).
      rewrite (bind_Ret _ _ _ _ _ (read_f32_pack z _ Hz)).
      reflexivity.
    - cbn [is_sample] in Hx.
      apply andb_true_iff in Hx as [Hx Hz].
      apply andb_true_iff in Hx as [Hx Hy].
      apply andb_true_iff in Hx as [Hw Hx].
      apply is_f32_spec in Hw, Hx, Hy, Hz.
      unfold quaternion_bytes. rewrite <- !app_assoc.
      rewrite (bind_Ret _ _ _ _ _ (read_f32_pack _ _ Hw)).
      rewrite (bind_Ret _ _ _ _ _ (read_f32_pack _ _ Hx)).
      rewrite (bind_Ret _ _ _ _ _ (read_f32_pack _ _ Hy)).
      rewrite (bind_Ret _ _ _ _ _ (read_f32_pack _ _ Hz)).
      now destruct q. }
  unfold AnimationData.load_channel_frame.
  rewrite (bind_Ret _ _ _ _ _ E).
  rewrite Hn. cbv beta iota delta [bind ret].
  rewrite Ha. cbv beta iota delta [bind ret].
  rewrite H1. cbv beta iota delta [bind ret].
  rewrite H2. cbv beta iota delta [bind ret].
  rewrite H3. cbv beta iota delta [bind ret].
  rewrite H4. cbv beta iota delta [bind ret].
  rewrite Hta. cbv beta iota delta [bind ret].
  rewrite Hs. reflexivity.
Qed.

(** One frame: every channel receives the value the frame holds for it. *)
Lemma load_frame_samples frame :
  forall todo done_ alpha rest,
    map ChannelData.type todo = map tracktype frame ->
    forallb is_sample frame = true ->
    for_each (seq (length done_) (length todo)) AnimationData.load_channel_at
      (done_ ++ todo, alpha) (frame_bytes frame ++ rest)
    = Ret (done_ ++ zip_with append_sample frame todo, alpha) rest.
Proof.
  induction frame as [|x frame IH]; intros [|c todo] done_ alpha rest Ht Hx;
    try discriminate Ht.
  - reflexivity.
  - cbn [map] in Ht. injection Ht as Hc Ht.
    cbn [forallb] in Hx. apply andb_true_iff in Hx as [Hx Hxs].
    cbn [length seq for_each zip_with].
    erewrite bind_Ret; cycle 1.
    { unfold AnimationData.load_channel_at.
      rewrite list_lookup_middle by done.
      unfold frame_bytes. cbn [map concat]. rewrite <- app_assoc.
      erewrite bind_Ret by (now apply load_channel_frame_sample).
      cbn [fst snd]. reflexivity. }
    rewrite (insert_app_r_alt done_ (c :: todo)) by lia.
    rewrite Nat.sub_diag. cbn [insert list_insert].
    replace (done_ ++ append_sample x c :: todo)
      with ((done_ ++ [append_sample x c]) ++ todo)
      by now rewrite <- app_assoc.
    replace (S (length done_)) with (length (done_ ++ [append_sample x c]))
      by (rewrite length_app; cbn; lia).
    fold (frame_bytes frame). rewrite (IH todo _ alpha rest Ht Hxs).
    now rewrite <- app_assoc.
Qed.

Lemma zip_with_append_sample_type frame :
  forall chs,
    length frame = length chs ->
    map ChannelData.type (zip_with append_sample frame chs)
    = map ChannelData.type chs.
Proof.
  induction frame as [|x frame IH]; intros [|c chs] Hl; try discriminate Hl;
    [done|].
  cbn [zip_with map]. rewrite append_sample_type, IH; [done|].
  cbn in Hl. lia.
Qed.

(** All the frames, one after the other. *)
Lemma load_frames_samples kinds frames :
  forall (l : list nat) chs alpha rest,
    length l = length frames ->
    map ChannelData.type chs = kinds ->
    forallb
      (fun frame =>
         bool_decide (map tracktype frame = kinds) && forallb is_sample frame)
      frames = true ->
    for_each l AnimationData.load_frame (chs, alpha)
      (concat (map frame_bytes frames) ++ rest)
    = Ret (fold_left (fun chs frame => zip_with append_sample frame chs)
             frames chs, alpha) rest.
Proof.
  induction frames as [|frame frames IH]; intros [|i l] chs alpha rest Hl Hk W;
    try discriminate Hl.
  - reflexivity.
  - cbn [forallb] in W. apply andb_true_iff in W as [Wf W].
    apply andb_true_iff in Wf as [Wk Wx]. apply bool_decide_eq_true in Wk.
    cbn [for_each map concat fold_left]. rewrite <- app_assoc.
    erewrite bind_Ret; cycle 1.
    { unfold AnimationData.load_frame. cbn [fst].
      apply (load_frame_samples frame chs []); [congruence|done]. }
    cbn [app]. apply IH; [cbn in Hl; lia| |done].
    rewrite zip_with_append_sample_type; [done|].
    rewrite <- (length_map tracktype frame), Wk, <- Hk.
    now rewrite length_map.
Qed.

(** The frames as columns: the channel of index [j] holds what the
    frames hold at the index [j]. *)
Lemma append_frame_columns tracks done_ frame :
  length frame = length tracks ->
  zip_with append_sample frame (imap (decoded_channel done_) tracks)
  = imap (decoded_channel (done_ ++ [frame])) tracks.
Proof.
  intros Hl. apply list_eq. intros j.
  rewrite lookup_zip_with, !list_lookup_imap.
  destruct (tracks !! j) as [d|] eqn:Ed.
  - destruct (lookup_lt_is_Some_2 frame j) as [x Ex].
    { rewrite Hl. now apply lookup_lt_Some in Ed. }
    rewrite Ex. cbn. f_equal.
    unfold decoded_channel, positions_of, rotations_of.
    rewrite !flat_map_app. cbn [flat_map]. rewrite Ex.
    destruct x; cbn; now rewrite !app_nil_r.
  - cbn. destruct (frame !! j) as [x|] eqn:Ex; [|done].
    apply lookup_lt_Some in Ex. apply lookup_ge_None in Ed. lia.
Qed.

Lemma frames_columns tracks frames :
  forall done_,
    Forall (fun frame => length frame = length tracks) frames ->
    fold_left (fun chs frame => zip_with append_sample frame chs) frames
      (imap (decoded_channel done_) tracks)
    = imap (decoded_channel (done_ ++ frames)) tracks.
Proof.
  induction frames as [|frame frames IH]; intros done_ Hl.
  - cbn. now rewrite app_nil_r.
  - cbn [fold_left]. rewrite append_frame_columns by now apply Forall_inv in Hl.
    rewrite IH by now apply Forall_inv_tail in Hl.
    now rewrite <- app_assoc.
Qed.

Lemma setup_channels_tracks tracks :
  forall (l : list nat) self rest,
    length l = length tracks ->
    forallb (fun d : Z * Z => is_i32 d.1 && is_i32 d.2) tracks = true ->
    for_each l
      (fun i self =>
         tracktype <- read_i32 ;;
         track_id <- read_i32 ;;
         ret (AnimationData.set_channels
                (AnimationData.channels self ++
                 [ChannelData.init tracktype track_id]) self))
      self (concat (map descriptor_bytes tracks) ++ rest)
    = Ret (AnimationData.set_channels
             (AnimationData.channels self ++
              map (fun d => ChannelData.init d.1 d.2) tracks) self) rest.
Proof.
  induction tracks as [|[t i] tracks IH]; intros [|k l] self rest Hl W;
    try discriminate Hl.
  - cbn. rewrite app_nil_r. now destruct self.
  - cbn [forallb fst snd] in W. apply andb_true_iff in W as [Wd W].
    apply andb_true_iff in Wd as [Wt Wi].
    unfold is_i32 in Wt, Wi.
    cbn [for_each map concat]. unfold descriptor_bytes at 1. cbn [fst snd].
    rewrite <- !app_assoc.
    erewrite bind_Ret; cycle 1.
    { erewrite bind_Ret by (apply read_i32_bytes; lia).
      erewrite bind_Ret by (apply read_i32_bytes; lia).
      reflexivity. }
    rewrite IH by (cbn in Hl; lia || done).
    cbn. now rewrite <- app_assoc.
Qed.

Lemma wf_content_spec c :
  wf_content c = true ->
  length (a_token c) = 8%nat /\
  euc_kr_decode (a_token c) = Some (default [] (euc_kr_decode (a_token c))) /\
  - 2 ^ 31 <= a_fps c < 2 ^ 31 /\
  Z.of_nat (length (a_frames c)) < 2 ^ 31 /\
  Z.of_nat (length (a_tracks c)) < 2 ^ 31 /\
  forallb (fun d : Z * Z => is_i32 d.1 && is_i32 d.2) (a_tracks c) = true /\
  forallb
    (fun frame =>
       bool_decide (map tracktype frame = map fst (a_tracks c)) &&
       forallb is_sample frame)
    (a_frames c) = true.
Proof.
  unfold wf_content. intros W.
  do 6 (apply andb_true_iff in W as [W ?]).
  apply bool_decide_eq_true in W.
  match goal with
  | Hd : bool_decide (is_Some _) = true |- _ =>
      apply bool_decide_eq_true in Hd; destruct Hd as [tok Hd]; rewrite Hd
  end.
  unfold is_i32 in *. repeat split; try done; lia.
Qed.

(** X19. The layout the animation reader accepts when every channel
    has the POSITION bit alone or the ROTATION bit alone: behind the
    header and the descriptors the file holds frame after frame, and in
    each frame one value per channel in the order of the descriptors,
    three floats for a position and four, w first, for a rotation. The
    channel of index j then holds, in the order of the frames, the values
    the frames hold at the index j, the positions divided by 100 and the
    rotations as read. Nothing is left unread. *)
Theorem animation_frames_by_channel c :
  wf_content c = true ->
  AnimationData.load_data AnimationData.init (animation_bytes c)
  = Ret (decoded_animation c) [].
Proof.
  intros W.
  apply wf_content_spec in W as (H8 & Hd & Hfps & Hnf & Hnt & Wt & Wf).
  unfold AnimationData.load_data, animation_bytes.
  erewrite bind_Ret; cycle 1.
  { unfold AnimationData._load_settings.
    erewrite bind_Ret; cycle 1.
    { unfold read_fstr. rewrite (bind_Ret _ _ _ _ _ (f_read_app _ _ _ H8)).
      unfold decode. rewrite Hd. reflexivity. }
    erewrite bind_Ret by (apply read_i32_bytes; lia).
    erewrite bind_Ret by (apply read_i32_bytes; lia).
    reflexivity. }
  erewrite bind_Ret; cycle 1.
  { unfold AnimationData._setup_channels.
    erewrite bind_Ret by (apply read_i32_bytes; lia).
    apply setup_channels_tracks; [|done].
    unfold range. now rewrite length_seq, Nat2Z.id. }
  unfold AnimationData._load_channel_data.
  cbn [AnimationData.frame_count AnimationData.channels
       AnimationData.set_channels AnimationData.init app].
  rewrite <- (app_nil_r (concat (map frame_bytes (a_frames c)))).
  erewrite bind_Ret; cycle 1.
  { apply (load_frames_samples (map fst (a_tracks c)));
      [unfold range; now rewrite length_seq, Nat2Z.id| |exact Wf].
    rewrite map_map. reflexivity. }
  cbn [fst]. unfold ret. f_equal.
  unfold decoded_animation, AnimationData.set_channels.
  cbn [AnimationData.format_code AnimationData.fps AnimationData.frame_count
       AnimationData.channel_count].
  f_equal.
  replace (map (fun d : Z * Z => ChannelData.init d.1 d.2) (a_tracks c))
    with (imap (decoded_channel []) (a_tracks c)).
  - rewrite frames_columns; [done|].
    apply Forall_forall. intros frame Hin.
    rewrite forallb_forall in Wf. apply Wf in Hin.
    apply andb_true_iff in Hin as [Hk _]. apply bool_decide_eq_true in Hk.
    rewrite <- (length_map tracktype frame), Hk. now rewrite length_map.
  - apply list_eq. intros j. rewrite list_lookup_imap, list_lookup_fmap.
    now destruct (a_tracks c !! j).
Qed.

End AnimationFrames.

Lemma animation_frames_by_channel_witness :
  @AnimationData.load_data ascii_runtime AnimationData.init
    (AnimationLayout.animation_bytes Examples.two_frames)
  = Ret (@AnimationLayout.decoded_animation ascii_runtime Examples.two_frames)
      [] /\
  map ChannelData.position
    (AnimationData.channels
       (@AnimationLayout.decoded_animation ascii_runtime Examples.two_frames))
  = [[(Examples.one, 0, 0); (0, Examples.one, 0)]; []].
Proof.
  split.
  - apply (@animation_frames_by_channel ascii_runtime Examples.two_frames).
    vm_compute. reflexivity.
  - vm_compute. reflexivity.
Defined.

(** ** Skeletons: bytes behind the last record, and saves that fail *)

Section SkeletonEdges.
Context `{Runtime}.
Import Layout.

(** X20. The skeleton reader never looks for the end of the file: a
    well-formed skeleton followed by any bytes at all loads as the same
    skeleton, and the bytes behind the last dummy record are left
    unread. *)
Theorem skeleton_trailing_bytes version bones dummies extra :
  wf_skeleton version bones dummies = true ->
  SkeletonData.load_data SkeletonData.init
    (skeleton_bytes version bones dummies ++ extra)
  = Ret (decoded_skeleton version bones dummies) extra.
Proof.
  intros W. pose proof (wf_skeleton_spec _ _ _ W) as F.
  destruct F as [Hv Hbc Hdc Hbs Hds _ _ _ _].
  unfold SkeletonData.load_data.
  erewrite bind_Ret; cycle 1.
  { unfold SkeletonData.load_file, skeleton_bytes. rewrite <- !app_assoc.
    rewrite (bind_Ret _ _ _ _ _ (load_format_code_token _ _ _ _ _ W)).
    erewrite bind_Ret; cycle 1.
    { unfold SkeletonData._load_bones.
      erewrite (bind_Ret read_i32) by (apply read_i32_bytes; lia).
      unfold range. rewrite Nat2Z.id.
      apply (load_bones_loop bones
               (SkeletonData.set_format_code version SkeletonData.init) _
               (length bones)); assumption. }
    unfold SkeletonData._load_dummies.
    erewrite (bind_Ret (try_except _ _)); cycle 1.
    { unfold try_except.
      erewrite (bind_Ret read_i32) by (apply read_i32_bytes; lia).
      reflexivity. }
    cbv beta iota. unfold range. rewrite Nat2Z.id.
    set (self := SkeletonData.set_bones _ _).
    change version with (SkeletonData.format_code self) at 1.
    etrans; [apply (load_dummies_loop dummies self extra (length bones));
             assumption|].
    reflexivity. }
  now rewrite (bind_Ret _ _ _ _ _ (print_data_decoded_skeleton _ _ _ _ W)).
Qed.

(** X21. A save that fails leaves what it wrote before. A name the
    codec cannot encode raises UnicodeEncodeError: at once for a dummy,
    behind the four bytes of the parent index for a bone. A parent index
    outside the signed 32-bit range raises struct.error: at once for a
    bone, behind the name and its zero byte for a dummy. And [save_data]
    lists the skeleton after it has written the file, so a parent index
    outside the bone list makes it raise IndexError with the file written
    in full. *)
Theorem save_failures :
  (forall bone format_v_2 file,
     euc_kr_encode (BoneData.name bone) = None ->
     BoneData.save_data bone true format_v_2 file
     = Raise UnicodeEncodeError file /\
     (- 2 ^ 31 <= BoneData.parent bone < 2 ^ 31 ->
      BoneData.save_data bone false format_v_2 file
      = Raise UnicodeEncodeError (file ++ i32_bytes (BoneData.parent bone)))) /\
  (forall bone format_v_2 file bs,
     ~ - 2 ^ 31 <= BoneData.parent bone < 2 ^ 31 ->
     BoneData.save_data bone false format_v_2 file = Raise struct_error file /\
     (euc_kr_encode (BoneData.name bone) = Some bs ->
      BoneData.save_data bone true format_v_2 file
      = Raise struct_error (file ++ bs ++ [x00]))) /\
  (forall sk file,
     SkeletonData.save_file sk [] = Ret tt file ->
     Exists (fun bone =>
               ~ - Z.of_nat (length (SkeletonData.bones sk))
                   <= BoneData.parent bone
                   < Z.of_nat (length (SkeletonData.bones sk)))
       (SkeletonData.bones sk ++ SkeletonData.dummies sk) ->
     SkeletonData.save_data sk [] = Raise IndexError file).
Proof.
  assert (Hrange : forall z file,
            ~ - 2 ^ 31 <= z < 2 ^ 31 ->
            write_i32 z file = Raise struct_error file).
  { intros z file Hz. unfold write_i32, pack_i, bind.
    now rewrite decide_False by done. }
  assert (Hname : forall nm file,
            euc_kr_encode nm = None ->
            write_str nm file = Raise UnicodeEncodeError file).
  { intros nm file He. unfold write_str, encode, bind. now rewrite He. }
  split; [|split].
  - intros bone format_v_2 file He. split.
    + unfold BoneData.save_data. apply bind_Raise. now apply Hname.
    + intros Hp. unfold BoneData.save_data. cbn [negb].
      erewrite (bind_Ret (ret tt)) by reflexivity.
      erewrite bind_Ret by (apply write_i32_bytes; lia).
      apply bind_Raise. now apply Hname.
  - intros bone format_v_2 file bs Hp. split.
    + unfold BoneData.save_data.
      erewrite (bind_Ret (ret tt)) by reflexivity.
      apply bind_Raise. now apply Hrange.
    + intros He. unfold BoneData.save_data.
      erewrite bind_Ret by (apply (write_str_bytes _ bs); exact He).
      apply bind_Raise. now apply Hrange.
  - intros sk file Es Hex. unfold SkeletonData.save_data.
    rewrite (bind_Ret _ _ _ _ _ Es).
    apply Exists_app in Hex.
    unfold SkeletonData._print_data, bind.
    destruct (decide (Forall
                        (fun bone =>
                           - Z.of_nat (length (SkeletonData.bones sk))
                             <= BoneData.parent bone
                             < Z.of_nat (length (SkeletonData.bones sk)))
                        (SkeletonData.bones sk))) as [Hb|Hb].
    + rewrite print_bone_list_all by exact Hb.
      destruct Hex as [Hex|Hex].
      { exfalso. apply Exists_exists in Hex as (x & Hx & Hnx).
        rewrite Forall_forall in Hb. apply Hnx, Hb, Hx. }
      destruct (SkeletonData.dummies sk) as [|d ds] eqn:Ed; [inversion Hex|].
      now rewrite print_bone_list_some by exact Hex.
    + apply not_Forall_Exists in Hb; [|intros x; apply _].
      now rewrite print_bone_list_some by exact Hb.
Qed.

End SkeletonEdges.

Lemma skeleton_trailing_bytes_witness :
  @SkeletonData.load_data ascii_runtime SkeletonData.init
    (Layout.skeleton_bytes 2 [Examples.root_record] [Examples.dummy_record] ++
     b "junk")
  = Ret (@Layout.decoded_skeleton ascii_runtime 2 [Examples.root_record]
           [Examples.dummy_record]) (b "junk").
Proof.
  apply (@skeleton_trailing_bytes ascii_runtime). vm_compute. reflexivity.
Defined.

Lemma save_failures_witness :
  @BoneData.save_data ascii_runtime
    (BoneData.mk (2 ^ 31) (pystr_of_string "p_01") (0, 0, 0)
       Quaternion_identity) true false []
  = Raise struct_error (b "p_01" ++ [x00]) /\
  @BoneData.save_data ascii_runtime
    (BoneData.mk 0 [233%N] (0, 0, 0) Quaternion_identity) false false []
  = Raise UnicodeEncodeError (Layout.i32_bytes 0).
Proof.
  destruct (@save_failures ascii_runtime) as (Hname & Hparent & _). split.
  - apply (Hparent
             (BoneData.mk (2 ^ 31) (pystr_of_string "p_01") (0, 0, 0)
                Quaternion_identity) false [] (b "p_01")).
    + cbn. lia.
    + reflexivity.
  - apply (Hname (BoneData.mk 0 [233%N] (0, 0, 0) Quaternion_identity)
             false []).
    + reflexivity.
    + cbn. lia.
Defined.

(** ** Meshes: the bone pass *)

Section MeshBonePass.
Import MeshImportData Layout MeshLayout BoneLayout.




End MeshBonePass.

